(** * renderman: a shallow embedding of [src/renderman/core.py]

    The development follows the pipeline of the program:

      Source Model -> Renderers -> get_renders -> get_manifests -> diff / update

    Conventions of the embedding.
    - Python [str] values are Rocq strings; a character of the model is one
      code point below 256.
    - A Python call that may raise is a value of [outcome]; code that also
      mutates shared objects (the loaded configuration, the file system) is a
      function from the state to an outcome and the new state, so that the state
      reached when an exception propagates is part of the model.
    - The collaborators the program calls but does not implement (the file
      reads, the HTTP client, the shell running kustomize and helmfile,
      [str.format]) are the fields of the record [Env]: the general theorems
      quantify over them, and [Scenario] fixes them for the concrete runs.
    - The file system is a finite map from path strings to nodes.  A node is
      identified by the literal path string used to reach it: paths are
      taken in the form [os.path.join] gives them, without links and without
      the normalisation the operating system would apply.
    - Progress messages ([message]) and the printing of the diff text only
      write to stderr and stdout; they are not part of the modelled state. *)

From stdpp Require Import gmap strings list fin_maps.
From Stdlib Require Import ZArith Ascii Sorted.

Open Scope Z_scope.
Open Scope list_scope.

(* ------------------------------------------------------------------------- *)
(** ** Python values the program manipulates                                   *)
(* ------------------------------------------------------------------------- *)

Module Py.

(** Exceptions, by class.  [OSError] covers the errors of the file-system
    calls other than [FileExistsError], [ExternalError] the failures
    reported by a collaborator. *)
Inductive exn : Type :=
| AttributeError (msg : string)
| TypeError (msg : string)
| FileExistsError (msg : string)
| OSError (msg : string)
| RecursionError
| ExternalError (msg : string).

Inductive outcome (A : Type) : Type :=
| Returns (a : A)
| Raises (e : exn).
Arguments Returns {A} a.
Arguments Raises {A} e.

Definition obind {A B} (o : outcome A) (k : A -> outcome B) : outcome B :=
  match o with
  | Returns a => k a
  | Raises e => Raises e
  end.

(** A list comprehension whose element expression may raise: elements are
    evaluated left to right and the first exception ends the evaluation. *)
Fixpoint for_each {A B} (f : A -> outcome B) (l : list A) : outcome (list B) :=
  match l with
  | [] => Returns []
  | x :: rest =>
      obind (f x) (fun y => obind (for_each f rest) (fun ys => Returns (y :: ys)))
  end.

(** Computations over a mutable store [S]: the store is threaded through
    and survives an exception. *)
Definition eff (S A : Type) : Type := S -> outcome A * S.

Definition ret {S A} (a : A) : eff S A := fun s => (Returns a, s).
Definition raise {S A} (e : exn) : eff S A := fun s => (Raises e, s).
Definition bind {S A B} (m : eff S A) (k : A -> eff S B) : eff S B :=
  fun s => match m s with
           | (Returns a, s') => k a s'
           | (Raises e, s') => (Raises e, s')
           end.
Definition lift {S A} (o : outcome A) : eff S A := fun s => (o, s).
Definition modify {S} (f : S -> S) : eff S unit := fun s => (Returns tt, f s).
Definition gets {S A} (f : S -> A) : eff S A := fun s => (Returns (f s), s).

(** [try: body finally: cleanup]; the cleanup here never raises. *)
Definition finally {S A} (m : eff S A) (cleanup : S -> S) : eff S A :=
  fun s => let '(r, s') := m s in (r, cleanup s').

Fixpoint for_each_eff {S A B} (f : A -> eff S B) (l : list A) : eff S (list B) :=
  match l with
  | [] => ret []
  | x :: rest => bind (f x) (fun y => bind (for_each_eff f rest) (fun ys => ret (y :: ys)))
  end.

(** *** Strings *)

(** [c in chars] for a character and a string. *)
Fixpoint char_in (c : ascii) (chars : string) : bool :=
  match chars with
  | EmptyString => false
  | String a rest => Ascii.eqb c a || char_in c rest
  end.

(** [s.startswith(pre)] *)
Fixpoint startswith (pre s : string) : bool :=
  match pre with
  | EmptyString => true
  | String a pre' =>
      match s with
      | EmptyString => false
      | String b s' => Ascii.eqb a b && startswith pre' s'
      end
  end.

(** [s.endswith(c)] for a one-character suffix. *)
Fixpoint endswith_char (c : ascii) (s : string) : bool :=
  match s with
  | EmptyString => false
  | String a EmptyString => Ascii.eqb a c
  | String _ s' => endswith_char c s'
  end.

(** [str.isspace] on the code points below 256. *)
Definition isspace (c : ascii) : bool :=
  let n := nat_of_ascii c in
  ((9 <=? n) && (n <=? 13) || (28 <=? n) && (n <=? 32)
   || (n =? 133) || (n =? 160))%nat.

Fixpoint lstrip_by (p : ascii -> bool) (s : string) : string :=
  match s with
  | EmptyString => EmptyString
  | String c s' => if p c then lstrip_by p s' else s
  end.

Fixpoint rstrip_by (p : ascii -> bool) (s : string) : string :=
  match s with
  | EmptyString => EmptyString
  | String c s' =>
      match rstrip_by p s' with
      | EmptyString => if p c then EmptyString else String c EmptyString
      | r => String c r
      end
  end.

(** [s.strip()], [s.lstrip(chars)], [s.rstrip(chars)]: the argument of the
    last two is a set of characters, not a prefix or suffix. *)
Definition strip (s : string) : string := rstrip_by isspace (lstrip_by isspace s).
Definition lstrip (chars s : string) : string := lstrip_by (fun c => char_in c chars) s.
Definition rstrip (chars s : string) : string := rstrip_by (fun c => char_in c chars) s.

(** [sep.join(parts)] *)
Fixpoint join (sep : string) (parts : list string) : string :=
  match parts with
  | [] => EmptyString
  | [p] => p
  | p :: rest => p +:+ sep +:+ join sep rest
  end.

(** Truth value of an [Optional[str]]: [None] and the empty string are false. *)
Definition truthy (o : option string) : bool :=
  match o with
  | Some (String _ _) => true
  | _ => false
  end.

(** [x in xs] for a sequence of strings. *)
Definition str_in (x : string) (xs : list string) : bool :=
  existsb (String.eqb x) xs.

(** [sorted(xs)] for strings: insertion into an ordered list, by code point. *)
Fixpoint sorted_insert (x : string) (xs : list string) : list string :=
  match xs with
  | [] => [x]
  | y :: ys => if String.leb x y then x :: xs else y :: sorted_insert x ys
  end.
Definition sorted (xs : list string) : list string :=
  fold_right sorted_insert [] xs.

(** *** [os.path] (posixpath) *)

Definition sep : ascii := "/"%char.

(** One step of [posixpath.join]: a component that starts with the
    separator discards what was joined so far. *)
Definition join2 (path b : string) : string :=
  if startswith "/" b then b
  else match path with
       | EmptyString => b
       | _ => if endswith_char sep path then path +:+ b else path +:+ "/" +:+ b
       end.

Definition path_join (a : string) (ps : list string) : string :=
  fold_left join2 ps a.

(** The cut of [posixpath.split] before the trailing separators of the head
    are removed: the head runs to the last separator, included. *)
Fixpoint split_last (p : string) : string * string :=
  match p with
  | EmptyString => (EmptyString, EmptyString)
  | String c p' =>
      match split_last p' with
      | (EmptyString, t) =>
          if Ascii.eqb c sep then (String c EmptyString, t)
          else (EmptyString, String c t)
      | (h, t) => (String c h, t)
      end
  end.

Fixpoint only_seps (s : string) : bool :=
  match s with
  | EmptyString => true
  | String c s' => Ascii.eqb c sep && only_seps s'
  end.

(** [posixpath.split]: the head loses its trailing separators unless it
    consists of separators only. *)
Definition path_split (p : string) : string * string :=
  let '(h, t) := split_last p in
  (if only_seps h then h else rstrip_by (Ascii.eqb sep) h, t).

Definition dirname (p : string) : string := fst (path_split p).

End Py.

Import Py.

Declare Scope eff_scope.
Delimit Scope eff_scope with eff.
Notation "'do' x <- m ; k" := (bind m (fun x => k))
  (at level 10, x name, m at level 100, k at level 200) : eff_scope.

Declare Scope outcome_scope.
Delimit Scope outcome_scope with out.
Notation "'try' x <- m ; k" := (obind m (fun x => k))
  (at level 10, x name, m at level 100, k at level 200) : outcome_scope.


(* ------------------------------------------------------------------------- *)
(** ** Global constants, run flags and collaborators                           *)
(* ------------------------------------------------------------------------- *)

Definition HELMFILE_NAME : string := "helmfile.yaml".
Definition YAML_SEPARATOR : string := "---".
Definition NL : string := String (ascii_of_nat 10) EmptyString.

Abbreviation AppName := string.
Abbreviation Document := string.
Abbreviation ExitCode := Z.
Abbreviation Path := string.
Abbreviation URL := string.
Abbreviation Source := string.
Abbreviation RenderType := string.
Abbreviation ChartVersion := string.

(** A Python [dict[str, str]], in insertion order. *)
Abbreviation StrDict := (list (string * string)).

(** The run flags set by [initialize] and the collaborators of the renderers.
    - [str_format s d] is [s.format(d)], the mapping passed as the single
      positional argument;
    - [open_read p] is [open(p, "r", encoding=TEXT_ENCODING).read()];
    - [requests_get u] is the text of the response of [requests.get(u)] after
      [raise_for_status()];
    - [run cmd] is [run(cmd, shell=True, check=True, text=True,
      capture_output=True).stdout]. *)
Record Env : Type := {
  SOURCE_DIR : string;
  DEBUG : bool;
  SKIP_HELM_REPO_UPDATE : bool;
  str_format : string -> StrDict -> outcome string;
  open_read : Path -> outcome string;
  requests_get : URL -> outcome string;
  run : string -> outcome string
}.

(* ------------------------------------------------------------------------- *)
(** ** Config file schema                                                      *)
(* ------------------------------------------------------------------------- *)

Module Bundle.
Record t : Type := mk {
  app_name : AppName;
  bundle_name : string;
  data : option StrDict;
  sources : list Source
}.

Definition set_app_name (name : AppName) (b : t) : t :=
  mk name (bundle_name b) (data b) (sources b).

Definition is_url (source : Source) : bool := startswith "http" source.

(** [{k: v.format(self.data) for k, v in self.data.items()}] *)
Definition resolved_data (env : Env) (b : t) : outcome StrDict :=
  match data b with
  | None => Raises (AttributeError "'NoneType' object has no attribute 'items'")
  | Some d =>
      for_each (fun kv => (try v <- str_format env (snd kv) d; Returns (fst kv, v))%out) d
  end.

Definition paths (env : Env) (b : t) : outcome (list Path) :=
  (try d <- resolved_data env b;
   for_each (fun source => str_format env source d)
        (filter (fun source => negb (is_url source)) (sources b)))%out.

Definition source_type (b : t) : RenderType := "bundle".

Definition urls (env : Env) (b : t) : outcome (list URL) :=
  (try d <- resolved_data env b;
   for_each (fun source => str_format env source d)
        (filter (fun source => is_url source) (sources b)))%out.
End Bundle.

Module Kustomization.
Record t : Type := mk {
  app_name : AppName;
  kustomization_name : string;
  source : Source
}.

Definition set_app_name (name : AppName) (k : t) : t :=
  mk name (kustomization_name k) (source k).

Definition source_type (k : t) : RenderType := "kustomization".
End Kustomization.

Module Release.
Record t : Type := mk {
  app_name : AppName;
  release_name : string;
  chart_name : string;
  chart_version : ChartVersion;
  helmfile : option Path
}.

Definition set_app_name (name : AppName) (r : t) : t :=
  mk name (release_name r) (chart_name r) (chart_version r) (helmfile r).

Definition source_type (r : t) : RenderType := "release".
End Release.

Module App.
Record t : Type := mk {
  enabled : bool;
  releases : option (list Release.t);
  bundles : list Bundle.t;
  kustomizations : list Kustomization.t
}.

Definition set_bundles (bs : list Bundle.t) (a : t) : t :=
  mk (enabled a) (releases a) bs (kustomizations a).
Definition set_kustomizations (ks : list Kustomization.t) (a : t) : t :=
  mk (enabled a) (releases a) (bundles a) ks.
Definition set_releases (rs : list Release.t) (a : t) : t :=
  mk (enabled a) (Some rs) (bundles a) (kustomizations a).
End App.

(** [Renderman.apps] is a [dict]: an association list in insertion order. *)
Abbreviation Apps := (list (AppName * App.t)).

Module Renderman.
Record t : Type := mk {
  schema_version : string;
  apps : Apps
}.
End Renderman.

Module Config.
Record t : Type := mk { renderman : Renderman.t }.

Definition apps (c : t) : Apps := Renderman.apps (renderman c).

(** The configuration after the descriptors of its apps were assigned to. *)
Definition with_apps (a : Apps) (c : t) : t :=
  mk (Renderman.mk (Renderman.schema_version (renderman c)) a).
End Config.

(* ------------------------------------------------------------------------- *)
(** ** Rendering                                                               *)
(* ------------------------------------------------------------------------- *)

Module Render.
Record t : Type := mk {
  app_name : AppName;
  source_type : RenderType;
  source : Source;
  document : option Document;
  error : option exn
}.
End Render.

(** The pattern shared by the render functions:
<<
    document = None; error = None
    try: document = ...
    except Exception as e: error = e
>>
    The pair is the value of [(document, error)] after the statement. *)
Definition attempt (body : outcome Document) : option Document * option exn :=
  match body with
  | Returns d => (Some d, None)
  | Raises e => (None, Some e)
  end.

Definition render_of (app_name : AppName) (source_type : RenderType)
    (source : Source) (body : outcome Document) : Render.t :=
  let '(document, error) := attempt body in
  Render.mk app_name source_type source document error.

Module Renderer.
(** [Renderer.apps]: the app names capable of being rendered. *)
Definition apps (config : Config.t) : list AppName :=
  map fst (filter (fun item => App.enabled (snd item)) (Config.apps config)).
End Renderer.

(** The body of the [try] of the loop over [bundle.urls]. *)
Definition fetch_document (env : Env) (url : URL) : outcome Document :=
  (try text <- requests_get env url;
   let document := strip text in
   let document := lstrip (YAML_SEPARATOR +:+ NL) document in
   let document := rstrip (NL +:+ YAML_SEPARATOR) document in
   Returns document)%out.

Definition render_bundle (env : Env) (bundle : Bundle.t) : outcome (list Render.t) :=
  (try paths <- Bundle.paths env bundle;
   let local :=
     map (fun file_path =>
            render_of (Bundle.app_name bundle) (Bundle.source_type bundle) file_path
                      (open_read env file_path)) paths in
   try urls <- Bundle.urls env bundle;
   let remote :=
     map (fun url =>
            render_of (Bundle.app_name bundle) (Bundle.source_type bundle) url
                      (fetch_document env url)) urls in
   Returns (local ++ remote))%out.

Definition run_kustomize_build_cmd (env : Env) (kustomization : Kustomization.t)
    : outcome string :=
  run env ("kustomize build " +:+ Kustomization.source kustomization).

Definition render_kustomization (env : Env) (kustomization : Kustomization.t)
    : outcome (list Render.t) :=
  Returns [render_of (Kustomization.app_name kustomization)
                     (Kustomization.source_type kustomization)
                     (Kustomization.source kustomization)
                     (run_kustomize_build_cmd env kustomization)].

Definition run_helmfile_template_cmd (env : Env) (helmfile_path : Path)
    (release_name : string) : outcome string :=
  let debug_option := if DEBUG env then "--debug" else "" in
  let skip_deps_option := if SKIP_HELM_REPO_UPDATE env then "--skip-deps" else "" in
  run env ("helmfile template --file=" +:+ helmfile_path +:+ " --selector name="
           +:+ release_name +:+ " " +:+ debug_option +:+ " " +:+ skip_deps_option).

Definition render_release (env : Env) (release : Release.t) : outcome (list Render.t) :=
  let default_helmfile_path := path_join (SOURCE_DIR env) [HELMFILE_NAME] in
  let helmfile_path :=
    match Release.helmfile release with
    | Some (String c rest) => String c rest
    | _ => default_helmfile_path
    end in
  Returns [render_of (Release.app_name release) (Release.source_type release)
                     helmfile_path
                     (run_helmfile_template_cmd env helmfile_path
                                                (Release.app_name release))].

(** [for x in xs: renders.extend(f(x))] *)
Definition extend_all {A} (f : A -> outcome (list Render.t)) (xs : list A)
    : outcome (list Render.t) :=
  (try chunks <- for_each f xs; Returns (concat chunks))%out.

Module BundleRenderer.
(** The first loop of [render].  It assigns [app_name] on every bundle of a
    requested app: the second component is the [apps] mapping after the
    loop, the first the bundles collected. *)
Fixpoint collect (items : Apps) (app_names : list AppName)
    : list Bundle.t * Apps :=
  match items with
  | [] => ([], [])
  | (loaded_app_name, loaded_app_data) :: rest =>
      let '(bundles, rest') := collect rest app_names in
      if negb (str_in loaded_app_name app_names)
      then (bundles, (loaded_app_name, loaded_app_data) :: rest')
      else
        let assigned :=
          map (Bundle.set_app_name loaded_app_name) (App.bundles loaded_app_data) in
        (assigned ++ bundles,
         (loaded_app_name, App.set_bundles assigned loaded_app_data) :: rest')
  end.

Definition render (env : Env) (app_names : list AppName)
    (source_types : list RenderType) : eff Config.t (list Render.t) :=
  fun config =>
    let '(bundles, apps') := collect (Config.apps config) app_names in
    (extend_all (render_bundle env) bundles, Config.with_apps apps' config).
End BundleRenderer.

Module KustomizationRenderer.
Fixpoint collect (items : Apps) (app_names : list AppName)
    : list Kustomization.t * Apps :=
  match items with
  | [] => ([], [])
  | (app_name, app_data) :: rest =>
      let '(kustomizations, rest') := collect rest app_names in
      if negb (str_in app_name app_names)
      then (kustomizations, (app_name, app_data) :: rest')
      else
        let assigned :=
          map (Kustomization.set_app_name app_name) (App.kustomizations app_data) in
        (assigned ++ kustomizations,
         (app_name, App.set_kustomizations assigned app_data) :: rest')
  end.

Definition render (env : Env) (app_names : list AppName)
    (source_types : list RenderType) : eff Config.t (list Render.t) :=
  fun config =>
    let '(kustomizations, apps') := collect (Config.apps config) app_names in
    (extend_all (render_kustomization env) kustomizations,
     Config.with_apps apps' config).
End KustomizationRenderer.

Module ReleaseRenderer.
(** [app_config.releases] is optional: iterating over [None] raises, and
    the apps that come later in the mapping are then left as they were. *)
Fixpoint collect (items : Apps) (app_names : list AppName)
    : outcome (list Release.t) * Apps :=
  match items with
  | [] => (Returns [], [])
  | (app_name, app_config) :: rest =>
      if negb (str_in app_name app_names)
      then let '(releases, rest') := collect rest app_names in
           (releases, (app_name, app_config) :: rest')
      else
        match App.releases app_config with
        | None =>
            (Raises (TypeError "'NoneType' object is not iterable"),
             (app_name, app_config) :: rest)
        | Some declared =>
            let assigned := map (Release.set_app_name app_name) declared in
            let '(releases, rest') := collect rest app_names in
            ((try more <- releases; Returns (assigned ++ more))%out,
             (app_name, App.set_releases assigned app_config) :: rest')
        end
  end.

Definition render (env : Env) (app_names : list AppName)
    (source_types : list RenderType) : eff Config.t (list Render.t) :=
  fun config =>
    let '(releases, apps') := collect (Config.apps config) app_names in
    ((try releases <- releases; extend_all (render_release env) releases)%out,
     Config.with_apps apps' config).
End ReleaseRenderer.

Definition get_renders (env : Env) (app_names : list AppName)
    (source_types : list RenderType) : eff Config.t (list Render.t) :=
  (do bundle_renders <- BundleRenderer.render env app_names source_types;
   do kustomization_renders <- KustomizationRenderer.render env app_names source_types;
   do release_renders <- ReleaseRenderer.render env app_names source_types;
   ret (bundle_renders ++ kustomization_renders ++ release_renders))%eff.

(* ------------------------------------------------------------------------- *)
(** ** Descriptors as objects                                                  *)
(* ------------------------------------------------------------------------- *)

(** The loops of the renderers assign to [app_name] on the descriptor they
    visit and render only after the loop.  In the configurations above every
    entry of a list of an app is a descriptor of its own, which is a
    configuration in which no object is listed twice.  [Shared] has the same
    loops over descriptors as objects: the lists of an app hold references,
    the store [Objects] holds the state of every object, one object may be
    listed more than once, under one app or under several, and what is
    assigned through one reference is read through every other. *)
Module Shared.

Abbreviation ref := nat.

Module App.
Record t : Type := mk {
  enabled : bool;
  releases : option (list ref);
  bundles : list ref;
  kustomizations : list ref
}.
End App.

Abbreviation Apps := (list (AppName * App.t)).

(** [Config.apps] is [config.renderman.apps]. *)
Module Config.
Record t : Type := mk {
  schema_version : string;
  apps : Apps
}.
End Config.

(** The state of the descriptor objects, by class.  A reference of a list
    denotes an object of the class of the list; a reference that denotes
    nothing, which a Python list cannot hold, is passed over by the loops. *)
Record Objects : Type := mk_objects {
  bundle_at : gmap ref Bundle.t;
  kustomization_at : gmap ref Kustomization.t;
  release_at : gmap ref Release.t
}.

Section Loops.
Context {D : Type} (set_app_name : AppName -> D -> D).

(** The inner loop, for one requested app:
<<
    for d in listed:
        d.app_name = app_name
        collected.append(d)
>>  *)
Definition visit (app_name : AppName) (listed collected : list ref)
    (objects : gmap ref D) : list ref * gmap ref D :=
  fold_left (fun acc r => (fst acc ++ [r], alter (set_app_name app_name) r (snd acc)))
            listed (collected, objects).

(** The outer loop over [apps.items()]; [listing] is the evaluation of the
    list the inner loop iterates over. *)
Fixpoint collect (listing : App.t -> outcome (list ref)) (items : Apps)
    (app_names : list AppName) (collected : list ref)
    : eff (gmap ref D) (list ref) :=
  fun objects =>
    match items with
    | [] => (Returns collected, objects)
    | (app_name, app_config) :: rest =>
        if negb (str_in app_name app_names)
        then collect listing rest app_names collected objects
        else
          match listing app_config with
          | Raises e => (Raises e, objects)
          | Returns listed =>
              let '(collected', objects') := visit app_name listed collected objects in
              collect listing rest app_names collected' objects'
          end
    end.

(** The second loop: every collected object is rendered in the state the
    first loop left it in. *)
Definition render_all (render_one : D -> outcome (list Render.t))
    (collected : list ref) (objects : gmap ref D) : outcome (list Render.t) :=
  extend_all render_one (omap (fun r => objects !! r) collected).

Definition render_with (render_one : D -> outcome (list Render.t))
    (listing : App.t -> outcome (list ref)) (items : Apps)
    (app_names : list AppName) : eff (gmap ref D) (list Render.t) :=
  fun objects =>
    match collect listing items app_names [] objects with
    | (Returns collected, objects') => (render_all render_one collected objects', objects')
    | (Raises e, objects') => (Raises e, objects')
    end.
End Loops.

(** [app_config.releases] is optional, and iterating over [None] raises. *)
Definition iter_releases (app_config : App.t) : outcome (list ref) :=
  match App.releases app_config with
  | Some listed => Returns listed
  | None => Raises (TypeError "'NoneType' object is not iterable")
  end.

Module BundleRenderer.
Definition render (env : Env) (config : Config.t) (app_names : list AppName)
    (source_types : list RenderType) : eff Objects (list Render.t) :=
  fun objects =>
    let '(renders, bundles) :=
      render_with Bundle.set_app_name (render_bundle env)
                  (fun loaded_app_data => Returns (App.bundles loaded_app_data))
                  (Config.apps config) app_names (bundle_at objects) in
    (renders, mk_objects bundles (kustomization_at objects) (release_at objects)).
End BundleRenderer.

Module KustomizationRenderer.
Definition render (env : Env) (config : Config.t) (app_names : list AppName)
    (source_types : list RenderType) : eff Objects (list Render.t) :=
  fun objects =>
    let '(renders, kustomizations) :=
      render_with Kustomization.set_app_name (render_kustomization env)
                  (fun app_data => Returns (App.kustomizations app_data))
                  (Config.apps config) app_names (kustomization_at objects) in
    (renders, mk_objects (bundle_at objects) kustomizations (release_at objects)).
End KustomizationRenderer.

Module ReleaseRenderer.
Definition render (env : Env) (config : Config.t) (app_names : list AppName)
    (source_types : list RenderType) : eff Objects (list Render.t) :=
  fun objects =>
    let '(renders, releases) :=
      render_with Release.set_app_name (render_release env) iter_releases
                  (Config.apps config) app_names (release_at objects) in
    (renders, mk_objects (bundle_at objects) (kustomization_at objects) releases).
End ReleaseRenderer.

Definition get_renders (env : Env) (config : Config.t) (app_names : list AppName)
    (source_types : list RenderType) : eff Objects (list Render.t) :=
  (do bundle_renders <- BundleRenderer.render env config app_names source_types;
   do kustomization_renders <-
     KustomizationRenderer.render env config app_names source_types;
   do release_renders <- ReleaseRenderer.render env config app_names source_types;
   ret (bundle_renders ++ kustomization_renders ++ release_renders))%eff.

End Shared.

(* ------------------------------------------------------------------------- *)
(** ** Manifests                                                               *)
(* ------------------------------------------------------------------------- *)

(** What the list held by a [Manifest] may contain at run time: the
    constructor is annotated with [list[Render]], and [get_manifests] fills
    the list with the [document] attribute of the renders. *)
Inductive value : Type :=
| VRender (r : Render.t)
| VStr (s : string)
| VNone.

(** [r.document] *)
Definition getattr_document (r : value) : outcome (option Document) :=
  match r with
  | VRender render => Returns (Render.document render)
  | VStr _ => Raises (AttributeError "'str' object has no attribute 'document'")
  | VNone => Raises (AttributeError "'NoneType' object has no attribute 'document'")
  end.

Module Manifest.
Record t : Type := mk {
  app_name : AppName;
  source_type : RenderType;
  renders : list value
}.

(** [[r.document for r in self.renders if r.document]] *)
Fixpoint sections (renders : list value) : outcome (list Document) :=
  match renders with
  | [] => Returns []
  | r :: rest =>
      (try d <- getattr_document r;
       match d with
       | Some (String c s) =>
           try more <- sections rest; Returns (String c s :: more)
       | _ => sections rest
       end)%out
  end.

Definition separator : string := NL +:+ "---" +:+ NL.

Definition document (m : t) : outcome Document :=
  (try sections <- sections (renders m); Returns (join separator sections))%out.

Definition file_path (m : t) (output_dir : Path) : Path :=
  path_join output_dir [app_name m; source_type m +:+ ".manifest.yaml"].
End Manifest.

(** [grouped[key].append(document)], creating the group of a key first seen. *)
Fixpoint group_append (key : AppName * RenderType) (document : value)
    (grouped : list ((AppName * RenderType) * list value))
    : list ((AppName * RenderType) * list value) :=
  match grouped with
  | [] => [(key, [document])]
  | (k, documents) :: rest =>
      if bool_decide (k = key) then (k, documents ++ [document]) :: rest
      else (k, documents) :: group_append key document rest
  end.

Definition document_value (render : Render.t) : value :=
  match Render.document render with
  | Some d => VStr d
  | None => VNone
  end.

Definition get_manifests (renders : list Render.t) : list Manifest.t :=
  let grouped :=
    fold_left (fun grouped render =>
                 group_append (Render.app_name render, Render.source_type render)
                              (document_value render) grouped)
              renders [] in
  map (fun item => Manifest.mk (fst (fst item)) (snd (fst item)) (snd item)) grouped.

(* ------------------------------------------------------------------------- *)
(** ** The file system                                                         *)
(* ------------------------------------------------------------------------- *)

Inductive node : Type :=
| Dir
| File (content : string).

#[global] Instance node_eq_dec : EqDecision node.
Proof. solve_decision. Defined.

Module FS.
Abbreviation t := (gmap string node).

(** The root directory: a non-empty run of separators. *)
Definition is_root (p : string) : bool :=
  match p with
  | EmptyString => false
  | _ => only_seps p
  end.

Definition exists_ (fs : t) (p : Path) : bool :=
  is_root p || bool_decide (is_Some (fs !! p)).

Definition isdir (fs : t) (p : Path) : bool :=
  is_root p || bool_decide (fs !! p = Some Dir).

(** Whether an entry can be created at [p]: its directory is the current
    directory (empty [dirname]) or an existing directory. *)
Definition parent_isdir (fs : t) (p : Path) : bool :=
  match dirname p with
  | EmptyString => true
  | d => isdir fs d
  end.

(** [p] is [d] or lies below [d]. *)
Definition within (d p : Path) : bool :=
  String.eqb p d || startswith (d +:+ "/") p.

(** [os.mkdir(p)] *)
Definition mkdir (p : Path) : eff t unit :=
  fun fs =>
    match p with
    | EmptyString => (Raises (OSError "No such file or directory"), fs)
    | _ =>
        if exists_ fs p then (Raises (FileExistsError "File exists"), fs)
        else if parent_isdir fs p then (Returns tt, <[p := Dir]> fs)
        else (Raises (OSError "No such file or directory"), fs)
    end.

(** [os.makedirs(name, exist_ok=exist_ok)]: the recursion of the library
    goes to the head of the path, which is shorter than the path, so the
    fuel [S (length name)] is never used up (see [makedirs_fuel]). *)
Fixpoint makedirs_rec (fuel : nat) (name : Path) (exist_ok : bool) : eff t unit :=
  fun fs =>
    match fuel with
    | O => (Raises RecursionError, fs)
    | S fuel' =>
        let '(head, tail) := path_split name in
        let '(head, tail) :=
          match tail with
          | EmptyString => path_split head
          | _ => (head, tail)
          end in
        let ancestors :=
          match head, tail with
          | String _ _, String _ _ =>
              if exists_ fs head then (Returns false, fs)
              else
                match makedirs_rec fuel' head exist_ok fs with
                | (Returns _, fs') => (Returns (String.eqb tail "."), fs')
                | (Raises (FileExistsError _), fs') =>
                    (Returns (String.eqb tail "."), fs')
                | (Raises e, fs') => (Raises e, fs')
                end
          | _, _ => (Returns false, fs)
          end in
        match ancestors with
        | (Raises e, fs') => (Raises e, fs')
        | (Returns true, fs') => (Returns tt, fs')
        | (Returns false, fs') =>
            match mkdir name fs' with
            | (Raises e, fs'') =>
                if exist_ok && isdir fs'' name then (Returns tt, fs'')
                else (Raises e, fs'')
            | done => done
            end
        end
    end.

Definition makedirs (name : Path) (exist_ok : bool) : eff t unit :=
  makedirs_rec (S (String.length name)) name exist_ok.

(** [open(p, "w")]: the file is created, or truncated when it exists. *)
Definition open_w (p : Path) : eff t unit :=
  fun fs =>
    match p, fs !! p with
    | EmptyString, _ => (Raises (OSError "No such file or directory"), fs)
    | _, Some Dir => (Raises (OSError "Is a directory"), fs)
    | _, _ =>
        if is_root p then (Raises (OSError "Is a directory"), fs)
        else if parent_isdir fs p then (Returns tt, <[p := File ""]> fs)
        else (Raises (OSError "No such file or directory"), fs)
    end.

(** [outfile.write(text)] on the file opened at [p], and its closing. *)
Definition write (p : Path) (text : string) : eff t unit :=
  modify (fun fs => <[p := File text]> fs).

(** [rmtree(d, ignore_errors=True)]: a directory goes with all that is
    below it; on anything else the error is ignored. *)
Definition rmtree (d : Path) (fs : t) : t :=
  match fs !! d with
  | Some Dir => filter (fun entry => within d (fst entry) = false) fs
  | _ => fs
  end.

(** [with TemporaryDirectory() as staging_dir: body].  The name chosen by
    the library is the argument [staging_dir]; the directory is created on
    entry and removed with its content on exit, also when [body] raises. *)
Definition TemporaryDirectory {A} (staging_dir : Path) (body : eff t A) : eff t A :=
  (do _ <- mkdir staging_dir; finally body (rmtree staging_dir))%eff.

(** *** The recursive diff utility ([diff -r -u a b]), by its exit status:
    0 when the trees are identical, 1 when they differ, 2 on trouble, which
    includes an operand that does not exist. *)

Fixpoint strip_prefix (pre s : string) : option string :=
  match pre with
  | EmptyString => Some s
  | String a pre' =>
      match s with
      | EmptyString => None
      | String b s' => if Ascii.eqb a b then strip_prefix pre' s' else None
      end
  end.

(** Every entry below [a] is found, equal, at the same place below [b]. *)
Definition covered (fs : t) (a b : Path) : bool :=
  forallb (fun entry =>
             match strip_prefix (a +:+ "/") (fst entry) with
             | Some rel => bool_decide (fs !! (b +:+ "/" +:+ rel) = Some (snd entry))
             | None => true
             end) (map_to_list fs).

Definition same_tree (fs : t) (a b : Path) : bool :=
  covered fs a b && covered fs b a.

Definition basename (p : Path) : string := snd (path_split p).

Definition diff_r (fs : t) (a b : Path) : ExitCode :=
  match fs !! a, fs !! b with
  | Some Dir, Some Dir => if same_tree fs a b then 0 else 1
  | Some (File x), Some (File y) => if bool_decide (x = y) then 0 else 1
  | Some (File x), Some Dir =>
      match fs !! (path_join b [basename a]) with
      | Some (File y) => if bool_decide (x = y) then 0 else 1
      | Some Dir => 1
      | None => 2
      end
  | Some Dir, Some (File y) =>
      match fs !! (path_join a [basename b]) with
      | Some (File x) => if bool_decide (x = y) then 0 else 1
      | Some Dir => 1
      | None => 2
      end
  | _, _ => 2
  end.
End FS.

(* ------------------------------------------------------------------------- *)
(** ** Reconciliation                                                          *)
(* ------------------------------------------------------------------------- *)

(** [Manifest.save] *)
Definition save (m : Manifest.t) (output_dir : Path) : eff FS.t Path :=
  let manifest_path := Manifest.file_path m output_dir in
  (do _ <- FS.makedirs (dirname manifest_path) true;
   do _ <- FS.open_w manifest_path;
   do sections <- lift (Manifest.sections (Manifest.renders m));
   do _ <- FS.write manifest_path (join Manifest.separator sections);
   ret manifest_path)%eff.

Definition save_manifests (manifests : list Manifest.t) (output_dir : Path)
    : eff FS.t (list Path) :=
  for_each_eff (fun manifest => save manifest output_dir) manifests.

(** [staging_dir] is the name chosen by [TemporaryDirectory()]. *)
Definition diff_manifests (staging_dir : Path) (manifests : list Manifest.t)
    (output_dir : Path) : eff FS.t ExitCode :=
  (do _ <- FS.TemporaryDirectory staging_dir (save_manifests manifests staging_dir);
   do returncode <- gets (fun fs => FS.diff_r fs staging_dir output_dir);
   do _ <- modify (FS.rmtree staging_dir);
   ret returncode)%eff.

Definition update_manifests (staging_dir : Path) (manifests : list Manifest.t)
    (output_dir : Path) : eff FS.t (list Path) :=
  (do _ <- FS.TemporaryDirectory staging_dir (save_manifests manifests staging_dir);
   do _ <- modify (FS.rmtree output_dir);
   do _ <- FS.makedirs output_dir false;
   do paths <- save_manifests manifests output_dir;
   do _ <- modify (FS.rmtree staging_dir);
   ret (sorted paths))%eff.

(* ------------------------------------------------------------------------- *)
(** ** Listing the outputs                                                     *)
(* ------------------------------------------------------------------------- *)

(** [r.name] on a [Release]: the dataclass declares [app_name],
    [release_name], [chart_name], [chart_version] and [helmfile]. *)
Definition Release_getattr_name (r : Release.t) : outcome string :=
  Raises (AttributeError "'Release' object has no attribute 'name'").

(** The body of the loop of [get_outputs] for one item of [apps]: what it
    adds to [outputs]. *)
Definition app_outputs (app_names : list AppName) (category_names : list RenderType)
    (item : AppName * App.t) : outcome (list Path) :=
  let '(app_name, app_config) := item in
  if str_in app_name app_names && App.enabled app_config then Returns []
  else
    let bundle_outputs :=
      match App.bundles app_config with
      | _ :: _ =>
          if str_in "bundle" category_names
          then map (fun f => path_join app_name [f])
                   (map (fun b => Bundle.bundle_name b +:+ ".bundle.manifest.yaml")
                        (App.bundles app_config))
          else []
      | [] => []
      end in
    let kustomization_outputs :=
      match App.kustomizations app_config with
      | _ :: _ =>
          if str_in "kustomization" category_names
          then map (fun f => path_join app_name [f])
                   (map (fun k => Kustomization.kustomization_name k
                                    +:+ ".kustomize.manifest.yaml")
                        (App.kustomizations app_config))
          else []
      | [] => []
      end in
    (try release_outputs <-
       match App.releases app_config with
       | Some (r :: rs) =>
           if str_in "release" category_names
           then
             try file_names <-
               for_each (fun r => try name <- Release_getattr_name r;
                                  Returns (name +:+ ".release.manifest.yaml"))
                        (r :: rs);
             Returns (map (fun f => path_join app_name [f]) file_names)
           else Returns []
       | _ => Returns []
       end;
     Returns (bundle_outputs ++ kustomization_outputs ++ release_outputs))%out.

Definition get_outputs (config : Config.t) (app_names : list AppName)
    (category_names : list RenderType) : outcome (list Path) :=
  (try chunks <- for_each (app_outputs app_names category_names) (Config.apps config);
   Returns (concat chunks))%out.

(* ------------------------------------------------------------------------- *)
(** ** Initialization                                                          *)
(* ------------------------------------------------------------------------- *)

Definition EXTERNAL_TOOLS : list string := ["git"; "helm"; "helmfile"; "kustomize"].

(** The global flags of the module. *)
Record Flags : Type := {
  flag_DEBUG : bool;
  flag_QUIET : bool;
  flag_SKIP_HELM_REPO_UPDATE : bool;
  flag_SOURCE_DIR : string
}.

(** What [initialize] asks of the host: the major and minor number of
    [version_info], [which] as a test, and the loading of the configuration
    file, [Config( **yaml.safe_load(file))], which gives the loaded value or
    the text of the exception it raised. *)
Record Host (C : Type) : Type := {
  version_info : nat * nat;
  which : string -> bool;
  load_config : string -> C + string
}.
Arguments version_info {C} h.
Arguments which {C} h.
Arguments load_config {C} h.

(** [initialize] raises nothing but [RuntimeError]. *)
Inductive initialized (C : Type) : Type :=
| Loaded (config : C)
| RuntimeError (msg : string).
Arguments Loaded {C} config.
Arguments RuntimeError {C} msg.

(** [version_info < (3, 12)] *)
Definition version_too_old (v : nat * nat) : bool :=
  ((fst v <? 3) || ((fst v =? 3) && (snd v <? 12)))%nat.

Definition initialize {C} (host : Host C) (config_file : string)
    (quiet debug skip_helm_repo_update : bool) (flags : Flags)
    : initialized C * Flags :=
  if version_too_old (version_info host)
  then (RuntimeError "Python 3.12 or higher is required.", flags)
  else
    let missing_tools := filter (fun tool => which host tool = false) EXTERNAL_TOOLS in
    match missing_tools with
    | _ :: _ =>
        (RuntimeError ("required tools not found: " +:+ join ", " missing_tools), flags)
    | [] =>
        let flags' := {| flag_DEBUG := debug;
                         flag_QUIET := quiet;
                         flag_SKIP_HELM_REPO_UPDATE := skip_helm_repo_update;
                         flag_SOURCE_DIR := dirname config_file |} in
        match load_config host config_file with
        | inl config => (Loaded config, flags')
        | inr e =>
            (RuntimeError ("Error loading config file " +:+ config_file +:+ ": " +:+ e),
             flags')
        end
    end.

(** The renderers read the flags through the globals of the module. *)
Definition env_with_flags (flags : Flags) (env : Env) : Env := {|
  SOURCE_DIR := flag_SOURCE_DIR flags;
  DEBUG := flag_DEBUG flags;
  SKIP_HELM_REPO_UPDATE := flag_SKIP_HELM_REPO_UPDATE flags;
  str_format := str_format env;
  open_read := open_read env;
  requests_get := requests_get env;
  run := run env
|}.

(* ------------------------------------------------------------------------- *)
(** ** Properties of renders, configurations and manifests                     *)
(* ------------------------------------------------------------------------- *)

(** Exactly one of [document] and [error] is set. *)
Definition exactly_one_set (r : Render.t) : Prop :=
  (is_Some (Render.document r) /\ Render.error r = None)
  \/ (Render.document r = None /\ is_Some (Render.error r)).

(** A render that failed, or whose document is the empty string. *)
Definition unset_or_empty (r : Render.t) : Prop :=
  Render.document r = None \/ Render.document r = Some "".

(** The documents a manifest keeps: those that are set and not empty. *)
Definition kept_documents (rs : list Render.t) : list Document :=
  filter (fun d => d <> "") (omap Render.document rs).

(** The items of [apps] with the [enabled] flag of each app replaced. *)
Definition reflag (flag : AppName -> bool) (items : Apps) : Apps :=
  map (fun item =>
         (fst item,
          App.mk (flag (fst item)) (App.releases (snd item)) (App.bundles (snd item))
                 (App.kustomizations (snd item)))) items.

Definition Config_reflag (flag : AppName -> bool) (config : Config.t) : Config.t :=
  Config.with_apps (reflag flag (Config.apps config)) config.

(** A name that is one path segment: not empty, no separator, and neither
    of the two directory links. *)
Definition plain_name (s : string) : bool :=
  negb (char_in sep s) && negb (String.eqb s "") && negb (String.eqb s ".")
  && negb (String.eqb s "..").

Definition plain_manifest (m : Manifest.t) : bool :=
  plain_name (Manifest.app_name m) && negb (char_in sep (Manifest.source_type m)).

(** What [TemporaryDirectory] guarantees of the name it chooses: a path that
    does not end with the separator, with nothing at it or below it. *)
Definition fresh_dir (fs : FS.t) (staging_dir : Path) : bool :=
  negb (String.eqb staging_dir "") && negb (endswith_char sep staging_dir)
  && forallb (fun entry => negb (FS.within staging_dir (fst entry))) (map_to_list fs).

(** Directories stay: [fs'] has every directory of [fs]. *)
Definition keeps_dirs (fs fs' : FS.t) : Prop :=
  forall p, fs !! p = Some Dir -> fs' !! p = Some Dir.

(** [fs'] has the staging directory and is [fs] outside of it. *)
Definition staged (staging_dir : Path) (fs fs' : FS.t) : Prop :=
  fs' !! staging_dir = Some Dir
  /\ forall q, FS.within staging_dir q = false -> fs' !! q = fs !! q.

(** Two descriptors that the renderers cannot tell apart once [app_name] is
    assigned: bundles with the same data and sources, kustomizations with
    the same source, releases with the same helmfile. *)
Definition bundle_alike (b b' : Bundle.t) : Prop :=
  Bundle.data b' = Bundle.data b /\ Bundle.sources b' = Bundle.sources b.
Definition kustomization_alike (k k' : Kustomization.t) : Prop :=
  Kustomization.source k' = Kustomization.source k.
Definition release_alike (r r' : Release.t) : Prop :=
  Release.helmfile r' = Release.helmfile r.

(** The source types, one per renderer. *)
Definition SOURCE_TYPES : list RenderType := ["bundle"; "kustomization"; "release"].

(** The key under which [get_manifests] groups a render. *)
Definition render_key (r : Render.t) : AppName * RenderType :=
  (Render.app_name r, Render.source_type r).

Definition manifest_key (m : Manifest.t) : AppName * RenderType :=
  (Manifest.app_name m, Manifest.source_type m).

(** The keys of a list in the order of their first occurrence. *)
Fixpoint first_seen (keys : list (AppName * RenderType)) : list (AppName * RenderType) :=
  match keys with
  | [] => []
  | k :: rest => k :: filter (fun k' => k' <> k) (first_seen rest)
  end.

(** The group of a key in the mapping built by [get_manifests]. *)
Fixpoint group_of (key : AppName * RenderType)
    (grouped : list ((AppName * RenderType) * list value)) : list value :=
  match grouped with
  | [] => []
  | (k, documents) :: rest =>
      if bool_decide (k = key) then documents else group_of key rest
  end.

(** The mapping [grouped] of [get_manifests] after the loop over [renders],
    started from [grouped]. *)
Definition grouped_from (grouped : list ((AppName * RenderType) * list value))
    (renders : list Render.t) : list ((AppName * RenderType) * list value) :=
  fold_left (fun grouped render =>
               group_append (Render.app_name render, Render.source_type render)
                            (document_value render) grouped)
            renders grouped.

(** The directory of an app, and the entries a list of manifests makes below
    an output directory. *)
Definition app_dir (m : Manifest.t) (output_dir : Path) : Path :=
  output_dir +:+ "/" +:+ Manifest.app_name m.

Definition made_by (manifests : list Manifest.t) (output_dir : Path) (q : Path) : Prop :=
  exists m, In m manifests /\ (q = app_dir m output_dir \/ q = Manifest.file_path m output_dir).

(** The directory in which [p] is to be created exists (or is the current
    directory), so that [makedirs] has one directory to make. *)
Definition parent_exists (fs : FS.t) (p : Path) : bool :=
  let '(head, tail) := path_split p in
  negb (String.eqb tail "") && (String.eqb head "" || FS.exists_ fs head).

(** The setting of an [update_manifests]: manifests with plain names, a
    staging directory as [TemporaryDirectory] makes it and that does not lie
    in the output directory, and an output directory named without a
    trailing separator whose parent directory exists. *)
Definition update_ready (fs : FS.t) (staging_dir : Path) (manifests : list Manifest.t)
    (output_dir : Path) : bool :=
  forallb plain_manifest manifests
  && fresh_dir fs staging_dir
  && negb (FS.within output_dir staging_dir)
  && negb (String.eqb output_dir "") && negb (endswith_char sep output_dir)
  && parent_exists fs output_dir.

(** [d] is a directory, or there is nothing at it or below it. *)
Definition dir_or_absent (fs : FS.t) (d : Path) : bool :=
  match fs !! d with
  | Some Dir => true
  | Some (File _) => false
  | None => forallb (fun entry => negb (FS.within d (fst entry))) (map_to_list fs)
  end.

(** An [update_manifests] that is ready, where moreover the directory of
    the staging directory and that of the output directory are directories
    and the output path is not a regular file. *)
Definition update_sure (fs : FS.t) (staging_dir : Path) (manifests : list Manifest.t)
    (output_dir : Path) : bool :=
  update_ready fs staging_dir manifests output_dir
  && FS.parent_isdir fs staging_dir && FS.parent_isdir fs output_dir
  && dir_or_absent fs output_dir.

(** Below the directory [d] there are only directories [d/app] and files
    [d/app/file], as [save] makes them for plain names. *)
Definition tidy (d : Path) (fs : FS.t) : Prop :=
  fs !! d = Some Dir
  /\ forall q x,
      FS.within d q = true -> q <> d -> fs !! q = Some x ->
      (x = Dir /\ exists app, char_in sep app = false /\ q = d +:+ "/" +:+ app)
      \/ (exists content app file,
            x = File content /\ char_in sep app = false
            /\ q = d +:+ "/" +:+ app +:+ "/" +:+ file).

(** *** Descriptor objects *)

(** What a render reports of the attempt [body]: the document the attempt
    returned and no error, or the exception it raised and no document. *)
Definition reports (body : outcome Document) (r : Render.t) : Prop :=
  match body with
  | Returns d => Render.document r = Some d /\ Render.error r = None
  | Raises e => Render.document r = None /\ Render.error r = Some e
  end.

(** The references of the releases of an app, none when [releases] is
    [None]. *)
Definition release_refs (app : Shared.App.t) : list Shared.ref :=
  default [] (Shared.App.releases app).

(** The object [r] is in the list [listing] of the requested app [name]. *)
Definition listed_under (listing : Shared.App.t -> list Shared.ref)
    (items : Shared.Apps) (app_names : list AppName) (r : Shared.ref)
    (name : AppName) : Prop :=
  exists app, In (name, app) items /\ str_in name app_names = true /\ In r (listing app).

(** Every object of [new] is as in [old], or is one listed under a requested
    app and differs from its state in [old] by an assignment of the key of
    such an app to its [app_name]; no object is added or removed. *)
Definition reassigned {D} (set_app_name : AppName -> D -> D)
    (listing : Shared.App.t -> list Shared.ref) (items : Shared.Apps)
    (app_names : list AppName) (old new : gmap Shared.ref D) : Prop :=
  forall r,
    new !! r = old !! r
    \/ exists name, listed_under listing items app_names r name
                    /\ new !! r = set_app_name name <$> old !! r.

Definition objects_reassigned (config : Shared.Config.t) (app_names : list AppName)
    (old new : Shared.Objects) : Prop :=
  reassigned Bundle.set_app_name Shared.App.bundles (Shared.Config.apps config)
             app_names (Shared.bundle_at old) (Shared.bundle_at new)
  /\ reassigned Kustomization.set_app_name Shared.App.kustomizations
                (Shared.Config.apps config) app_names
                (Shared.kustomization_at old) (Shared.kustomization_at new)
  /\ reassigned Release.set_app_name release_refs (Shared.Config.apps config)
                app_names (Shared.release_at old) (Shared.release_at new).

(** Every object listed under a requested app carries the key of that app
    as [app_name]. *)
Definition named {D} (get_app_name : D -> AppName)
    (listing : Shared.App.t -> list Shared.ref) (items : Shared.Apps)
    (app_names : list AppName) (objects : gmap Shared.ref D) : Prop :=
  forall r name d,
    listed_under listing items app_names r name -> objects !! r = Some d ->
    get_app_name d = name.

Definition objects_named (config : Shared.Config.t) (app_names : list AppName)
    (objects : Shared.Objects) : Prop :=
  named Bundle.app_name Shared.App.bundles (Shared.Config.apps config) app_names
        (Shared.bundle_at objects)
  /\ named Kustomization.app_name Shared.App.kustomizations
           (Shared.Config.apps config) app_names (Shared.kustomization_at objects)
  /\ named Release.app_name release_refs (Shared.Config.apps config) app_names
           (Shared.release_at objects).

(** The references the first loop of a renderer collects: those of the
    requested apps, in the order of the mapping and of the lists. *)
Definition requested_refs (listing : Shared.App.t -> list Shared.ref)
    (items : Shared.Apps) (app_names : list AppName) : list Shared.ref :=
  flat_map (fun item => if str_in (fst item) app_names then listing (snd item) else [])
           items.

(** The key of the last requested app, in the order of the mapping, that
    lists the object [r]. *)
Fixpoint last_listing (listing : Shared.App.t -> list Shared.ref)
    (items : Shared.Apps) (app_names : list AppName) (r : Shared.ref)
    : option AppName :=
  match items with
  | [] => None
  | (name, app) :: rest =>
      match last_listing listing rest app_names r with
      | Some later => Some later
      | None =>
          if str_in name app_names && bool_decide (r ∈ listing app)
          then Some name else None
      end
  end.

(** The object [r] with the key of the last requested app that lists it as
    [app_name]. *)
Definition relabelled {D} (set_app_name : AppName -> D -> D)
    (listing : Shared.App.t -> list Shared.ref) (items : Shared.Apps)
    (app_names : list AppName) (objects : gmap Shared.ref D) (r : Shared.ref)
    : option D :=
  match last_listing listing items app_names r with
  | Some name => set_app_name name <$> objects !! r
  | None => objects !! r
  end.

(** The descriptors a renderer renders, in order. *)
Definition described {D} (set_app_name : AppName -> D -> D)
    (listing : Shared.App.t -> list Shared.ref) (items : Shared.Apps)
    (app_names : list AppName) (objects : gmap Shared.ref D) : list D :=
  omap (relabelled set_app_name listing items app_names objects)
       (requested_refs listing items app_names).

(** Some requested app has [None] for [releases]. *)
Definition releases_missing (items : Shared.Apps) (app_names : list AppName) : bool :=
  existsb (fun item =>
             str_in (fst item) app_names
             && negb (bool_decide (is_Some (Shared.App.releases (snd item)))))
          items.

(** What [get_renders] returns or raises, as a function of the configuration
    and of the objects before the call. *)
Definition renders_described (env : Env) (config : Shared.Config.t)
    (app_names : list AppName) (objects : Shared.Objects)
    : outcome (list Render.t) :=
  let items := Shared.Config.apps config in
  (try bundle_renders <-
     extend_all (render_bundle env)
       (described Bundle.set_app_name Shared.App.bundles items app_names
                  (Shared.bundle_at objects));
   try kustomization_renders <-
     extend_all (render_kustomization env)
       (described Kustomization.set_app_name Shared.App.kustomizations items
                  app_names (Shared.kustomization_at objects));
   try release_renders <-
     (if releases_missing items app_names
      then Raises (TypeError "'NoneType' object is not iterable")
      else extend_all (render_release env)
             (described Release.set_app_name release_refs items app_names
                        (Shared.release_at objects)));
   Returns (bundle_renders ++ kustomization_renders ++ release_renders))%out.

(** Two configurations with the same keys and the same lists of references,
    and two stores whose objects are alike. *)
Definition listings_alike (config config' : Shared.Config.t) : Prop :=
  Forall2 (fun item item' =>
             fst item' = fst item
             /\ Shared.App.bundles (snd item') = Shared.App.bundles (snd item)
             /\ Shared.App.kustomizations (snd item')
                = Shared.App.kustomizations (snd item)
             /\ Shared.App.releases (snd item') = Shared.App.releases (snd item))
          (Shared.Config.apps config) (Shared.Config.apps config').

Definition objects_alike (objects objects' : Shared.Objects) : Prop :=
  forall r,
    option_Forall2 bundle_alike (Shared.bundle_at objects !! r)
                   (Shared.bundle_at objects' !! r)
    /\ option_Forall2 kustomization_alike (Shared.kustomization_at objects !! r)
                      (Shared.kustomization_at objects' !! r)
    /\ option_Forall2 release_alike (Shared.release_at objects !! r)
                      (Shared.release_at objects' !! r).

(** *** Operands and paths on which the model is exact *)

(** A character the shell passes on as it is, wherever it stands in a
    word: a letter, a digit, or one of [_ . / -]. *)
Definition word_char (c : ascii) : bool :=
  let n := nat_of_ascii c in
  ((48 <=? n) && (n <=? 57) || (65 <=? n) && (n <=? 90) || (97 <=? n) && (n <=? 122))%nat
  || char_in c "_./-".

Fixpoint all_chars (p : ascii -> bool) (s : string) : bool :=
  match s with
  | EmptyString => true
  | String c rest => p c && all_chars p rest
  end.

(** A path that the command line [diff -r -u a b] hands to the diff utility
    as one operand: not empty, made of such characters, and not an option. *)
Definition shell_word (s : string) : bool :=
  negb (String.eqb s "") && negb (startswith "-" s) && all_chars word_char s.

(** The segments of a path, between separators. *)
Fixpoint segments (s : string) : list string :=
  match s with
  | EmptyString => [EmptyString]
  | String c rest =>
      if Ascii.eqb c sep then EmptyString :: segments rest
      else match segments rest with
           | segment :: more => String c segment :: more
           | [] => [String c EmptyString]
           end
  end.

(** An absolute path in which every segment is a name: no empty segment, no
    [.] and no [..], so that the path is the only one that leads to its
    node. *)
Definition canonical (p : Path) : bool :=
  match p with
  | String c rest => Ascii.eqb c sep && forallb plain_name (segments rest)
  | EmptyString => false
  end.

(** A file system whose entries are all reached by canonical paths and lie
    in a directory, and canonical paths for the staging and the output
    directory: there a node is its path, as in the model. *)
Definition settled (fs : FS.t) (staging_dir output_dir : Path) : bool :=
  canonical staging_dir && canonical output_dir
  && forallb (fun entry => canonical (fst entry) && FS.isdir fs (dirname (fst entry)))
             (map_to_list fs).

(* ------------------------------------------------------------------------- *)
(** ** Concrete runs                                                           *)
(* ------------------------------------------------------------------------- *)

Module Scenario.

(** A run in which [./a.yaml] holds [kind: A], every HTTP request fails,
    the external tools print a document, and no source has a replacement
    field, so that [str.format] returns its receiver. *)
Definition env : Env := {|
  SOURCE_DIR := "";
  DEBUG := false;
  SKIP_HELM_REPO_UPDATE := false;
  str_format := fun s _ => Returns s;
  open_read := fun p =>
    if String.eqb p "./a.yaml" then Returns "kind: A"
    else Raises (OSError "No such file or directory");
  requests_get := fun _ => Raises (ExternalError "connection refused");
  run := fun _ => Returns "kind: K"
|}.

(** The same run, with a server answering every request. *)
Definition env_online : Env := {|
  SOURCE_DIR := "";
  DEBUG := false;
  SKIP_HELM_REPO_UPDATE := false;
  str_format := fun s _ => Returns s;
  open_read := open_read env;
  requests_get := fun _ => Returns ("---" +:+ NL +:+ "foo: bar" +:+ NL +:+ "---" +:+ NL);
  run := run env
|}.

Definition remote_url : URL := "http://example.invalid/b.yaml".

Definition web_bundle : Bundle.t :=
  Bundle.mk "web" "static" (Some []) ["./a.yaml"; remote_url].

(** One app [web], one bundle, a local path and a URL. *)
Definition config : Config.t :=
  Config.mk (Renderman.mk "1" [("web", App.mk true (Some []) [web_bundle] [])]).

Definition render_a : Render.t :=
  Render.mk "web" "bundle" "./a.yaml" (Some "kind: A") None.
Definition render_b : Render.t :=
  Render.mk "web" "bundle" remote_url None
            (Some (ExternalError "connection refused")).

(** An app that is switched off, with one kustomization. *)
Definition config_disabled : Config.t :=
  Config.mk (Renderman.mk "1"
    [("web", App.mk false (Some []) [] [Kustomization.mk "web" "base" "./base"])]).

(** A bundle that declares a URL before a local path. *)
Definition interleaved : Bundle.t :=
  Bundle.mk "web" "static" (Some []) [remote_url; "./a.yaml"].

(** One bundle object, loaded with the [app_name] [api] and listed under the
    apps [web] and [api]. *)
Definition shared_config : Shared.Config.t :=
  Shared.Config.mk "1"
    [("web", Shared.App.mk true (Some []) [0%nat] []);
     ("api", Shared.App.mk true (Some []) [0%nat] [])].

Definition shared_objects : Shared.Objects :=
  Shared.mk_objects {[ 0%nat := Bundle.mk "api" "static" (Some []) ["./a.yaml"] ]} ∅ ∅.

(** The app [web] alone, with the bundle of [config] as its one object. *)
Definition web_config : Shared.Config.t :=
  Shared.Config.mk "1" [("web", Shared.App.mk true (Some []) [0%nat] [])].

Definition web_objects : Shared.Objects :=
  Shared.mk_objects {[ 0%nat := web_bundle ]} ∅ ∅.

(** A file system with a temporary directory and nothing else. *)
Definition fs_tmp : FS.t := {[ "/tmp" := Dir ]}.

(** The same with a live output directory [/out]. *)
Definition fs_out : FS.t := <[ "/out" := Dir ]> fs_tmp.

Definition manifest_web : Manifest.t :=
  Manifest.mk "web" "bundle" [VRender render_a; VRender render_b].

(** A manifest whose app name is an absolute path. *)
Definition manifest_abs : Manifest.t :=
  Manifest.mk "/out" "bundle"
    [VRender (Render.mk "/out" "bundle" "./a.yaml" (Some "kind: A") None)].

End Scenario.

(* ------------------------------------------------------------------------- *)
(** ** Comprehensions that may raise                                           *)
(* ------------------------------------------------------------------------- *)

Section ForEach.
Context {A B : Type} (f : A -> outcome B).

Lemma for_each_Forall2 (l : list A) (ys : list B) :
  for_each f l = Returns ys -> Forall2 (fun x y => f x = Returns y) l ys.
Proof.
  revert ys. induction l as [|x l IH]; intros ys H; simpl in H.
  - injection H as <-. constructor.
  - destruct (f x) as [y|e] eqn:Hx; simpl in H; [|discriminate].
    destruct (for_each f l) as [ys'|e]; simpl in H; [|discriminate].
    injection H as <-. constructor; auto.
Qed.

Lemma Forall2_for_each (l : list A) (ys : list B) :
  Forall2 (fun x y => f x = Returns y) l ys -> for_each f l = Returns ys.
Proof.
  induction 1 as [|x y l ys Hx _ IH]; simpl; [reflexivity|].
  rewrite Hx; simpl. rewrite IH. reflexivity.
Qed.

Lemma for_each_length (l : list A) (ys : list B) :
  for_each f l = Returns ys -> length ys = length l.
Proof.
  intros H. apply for_each_Forall2 in H.
  symmetry. eapply Forall2_length, H.
Qed.
End ForEach.

Lemma for_each_Returns {A B} (g : A -> B) (l : list A) :
  for_each (fun x => Returns (g x)) l = Returns (map g l).
Proof.
  induction l as [|x l IH]; simpl; [reflexivity|]. rewrite IH. reflexivity.
Qed.

Lemma extend_all_singletons {A} (g : A -> Render.t) (xs : list A) :
  extend_all (fun x => Returns [g x]) xs = Returns (map g xs).
Proof.
  unfold extend_all. rewrite (for_each_Returns (fun x => [g x])). simpl.
  f_equal. induction xs as [|x xs IH]; simpl; [reflexivity|]. now rewrite IH.
Qed.

(* ------------------------------------------------------------------------- *)
(** ** One render per source                                                   *)
(* ------------------------------------------------------------------------- *)

Lemma render_of_exactly_one_set app_name source_type source body :
  exactly_one_set (render_of app_name source_type source body).
Proof.
  destruct body as [d|e]; [left|right]; simpl; eauto.
Qed.

Lemma render_of_source app_name source_type source body :
  Render.source (render_of app_name source_type source body) = source.
Proof. destruct body; reflexivity. Qed.

(** The shape of the result of [render_bundle]: the renders of the local
    paths, then the renders of the URLs. *)
Lemma render_bundle_Returns env bundle paths urls :
  Bundle.paths env bundle = Returns paths ->
  Bundle.urls env bundle = Returns urls ->
  render_bundle env bundle =
    Returns (map (fun file_path =>
                    render_of (Bundle.app_name bundle) "bundle" file_path
                              (open_read env file_path)) paths
             ++ map (fun url =>
                       render_of (Bundle.app_name bundle) "bundle" url
                                 (fetch_document env url)) urls).
Proof.
  intros Hp Hu. unfold render_bundle. rewrite Hp; simpl. rewrite Hu; simpl.
  reflexivity.
Qed.

Lemma render_bundle_inv env bundle rs :
  render_bundle env bundle = Returns rs ->
  exists paths urls,
    Bundle.paths env bundle = Returns paths
    /\ Bundle.urls env bundle = Returns urls.
Proof.
  unfold render_bundle. intros H.
  destruct (Bundle.paths env bundle) as [paths|]; simpl in H; [|discriminate].
  destruct (Bundle.urls env bundle) as [urls|]; simpl in H; [|discriminate].
  eauto.
Qed.

Lemma render_of_reports app_name source_type source body :
  reports body (render_of app_name source_type source body).
Proof. destruct body; simpl; auto. Qed.

Lemma Forall2_map_r {A B} (P : A -> B -> Prop) (f : A -> B) (l : list A) :
  (forall x, P x (f x)) -> Forall2 P l (map f l).
Proof. intros H. induction l; simpl; constructor; auto. Qed.

(** C8.  Every render returned by [render_bundle], [render_kustomization] and
    [render_release] reports the attempt made for its source: the document
    the attempt returned and no error, or the exception it raised and no
    document; so exactly one of [document] and [error] is set.  The attempt
    is the reading of the file for a local path, the request and the
    stripping of its text for a URL, the kustomize command for a
    kustomization and the helmfile command for a release; the last two
    functions always return one render. *)
Theorem renders_exactly_one_set (env : Env) :
  (forall bundle rs,
      render_bundle env bundle = Returns rs ->
      exists paths urls local remote,
        Bundle.paths env bundle = Returns paths
        /\ Bundle.urls env bundle = Returns urls
        /\ rs = local ++ remote
        /\ Forall2 (fun file_path r =>
                      Render.source r = file_path
                      /\ reports (open_read env file_path) r) paths local
        /\ Forall2 (fun url r =>
                      Render.source r = url
                      /\ reports (try text <- requests_get env url;
                                  Returns (rstrip (NL +:+ YAML_SEPARATOR)
                                             (lstrip (YAML_SEPARATOR +:+ NL)
                                                (strip text))))%out r) urls remote
        /\ Forall exactly_one_set rs)
  /\ (forall kustomization,
        exists r,
          render_kustomization env kustomization = Returns [r]
          /\ reports (run env ("kustomize build "
                               +:+ Kustomization.source kustomization)) r
          /\ exactly_one_set r)
  /\ (forall release,
        exists r,
          render_release env release = Returns [r]
          /\ Render.source r
             = match Release.helmfile release with
               | Some (String c rest) => String c rest
               | _ => path_join (SOURCE_DIR env) [HELMFILE_NAME]
               end
          /\ reports (run env ("helmfile template --file=" +:+ Render.source r
                               +:+ " --selector name=" +:+ Release.app_name release
                               +:+ " " +:+ (if DEBUG env then "--debug" else "")
                               +:+ " "
                               +:+ (if SKIP_HELM_REPO_UPDATE env then "--skip-deps"
                                    else ""))) r
          /\ exactly_one_set r).
Proof.
  split; [|split].
  - intros bundle rs H.
    destruct (render_bundle_inv _ _ _ H) as (paths & urls & Hp & Hu).
    rewrite (render_bundle_Returns _ _ _ _ Hp Hu) in H. injection H as <-.
    eexists paths, urls, _, _. split; [exact Hp|]. split; [exact Hu|].
    split; [reflexivity|]. split; [|split].
    + apply Forall2_map_r. intros file_path.
      split; [apply render_of_source | apply render_of_reports].
    + apply Forall2_map_r. intros url.
      split; [apply render_of_source | apply (render_of_reports _ _ _ (fetch_document env url))].
    + apply Forall_app; split; apply Forall_forall; intros r Hr;
        apply list_elem_of_In, in_map_iff in Hr; destruct Hr as (s & <- & _);
        apply render_of_exactly_one_set.
  - intros k. eexists; split; [reflexivity|].
    split; [apply (render_of_reports _ _ _ (run_kustomize_build_cmd env k))
           |apply render_of_exactly_one_set].
  - intros r. eexists; split; [reflexivity|].
    rewrite render_of_source. split; [reflexivity|].
    split; [|apply render_of_exactly_one_set].
    match goal with |- reports _ (render_of ?a ?t ?s ?b) =>
      apply (render_of_reports a t s b) end.
Qed.

Lemma renders_exactly_one_set_witness :
  exists paths urls local remote,
    Bundle.paths Scenario.env Scenario.web_bundle = Returns paths
    /\ Bundle.urls Scenario.env Scenario.web_bundle = Returns urls
    /\ [Scenario.render_a; Scenario.render_b] = local ++ remote
    /\ Forall2 (fun file_path r =>
                  Render.source r = file_path
                  /\ reports (open_read Scenario.env file_path) r) paths local
    /\ Forall2 (fun url r =>
                  Render.source r = url
                  /\ reports (try text <- requests_get Scenario.env url;
                              Returns (rstrip (NL +:+ YAML_SEPARATOR)
                                         (lstrip (YAML_SEPARATOR +:+ NL)
                                            (strip text))))%out r) urls remote
    /\ Forall exactly_one_set [Scenario.render_a; Scenario.render_b].
Proof.
  apply (proj1 (renders_exactly_one_set Scenario.env) Scenario.web_bundle).
  reflexivity.
Defined.

(** C7.  The result of [get_renders], and the configuration it leaves, do not
    depend on the requested source types. *)
Theorem get_renders_ignores_source_types (env : Env) (app_names : list AppName)
    (source_types source_types' : list RenderType) (config : Config.t) :
  get_renders env app_names source_types config
  = get_renders env app_names source_types' config.
Proof. reflexivity. Qed.

(** C6.  A URL of a bundle whose GET succeeds with the body
    ["---\nfoo: bar\n---\n"] is rendered to the document ["foo: bar"]. *)
Theorem remote_bundle_normalization (env : Env) (bundle : Bundle.t)
    (paths : list Path) (urls : list URL) (i : nat) (url : URL) :
  Bundle.paths env bundle = Returns paths ->
  Bundle.urls env bundle = Returns urls ->
  urls !! i = Some url ->
  requests_get env url
    = Returns ("---" +:+ NL +:+ "foo: bar" +:+ NL +:+ "---" +:+ NL) ->
  exists rs,
    render_bundle env bundle = Returns rs
    /\ rs !! (length paths + i)%nat
       = Some (Render.mk (Bundle.app_name bundle) "bundle" url (Some "foo: bar") None).
Proof.
  intros Hp Hu Hi Hget. eexists; split.
  - apply (render_bundle_Returns _ _ _ _ Hp Hu).
  - rewrite lookup_app_r by (rewrite length_map; lia).
    rewrite length_map.
    replace (length paths + i - length paths)%nat with i by lia.
    rewrite list_lookup_fmap, Hi. simpl.
    unfold fetch_document. rewrite Hget. reflexivity.
Qed.

Lemma remote_bundle_normalization_witness :
  exists rs,
    render_bundle Scenario.env_online Scenario.web_bundle = Returns rs
    /\ rs !! 1%nat
       = Some (Render.mk "web" "bundle" Scenario.remote_url (Some "foo: bar") None).
Proof.
  apply (remote_bundle_normalization Scenario.env_online Scenario.web_bundle
           ["./a.yaml"] [Scenario.remote_url] 0 Scenario.remote_url);
    reflexivity.
Defined.

(* ------------------------------------------------------------------------- *)
(** ** The renderers and the [enabled] flag                                    *)
(* ------------------------------------------------------------------------- *)

(** C3.  An app whose [enabled] flag is false, and which [Renderer.apps]
    therefore does not list, is rendered all the same when it is requested. *)
Theorem disabled_app_is_rendered :
  Config.apps Scenario.config_disabled
    = [("web", App.mk false (Some []) [] [Kustomization.mk "web" "base" "./base"])]
  /\ Renderer.apps Scenario.config_disabled = []
  /\ fst (get_renders Scenario.env ["web"] ["kustomization"] Scenario.config_disabled)
     = Returns [Render.mk "web" "kustomization" "./base" (Some "kind: K") None].
Proof. repeat split. Qed.

Lemma BundleRenderer_collect_reflag flag items app_names :
  BundleRenderer.collect (reflag flag items) app_names
  = (fst (BundleRenderer.collect items app_names),
     reflag flag (snd (BundleRenderer.collect items app_names))).
Proof.
  induction items as [|[name app] items IH]; simpl; [reflexivity|].
  rewrite IH. destruct (BundleRenderer.collect items app_names) as [bs rest'].
  simpl. now destruct (str_in name app_names).
Qed.

Lemma KustomizationRenderer_collect_reflag flag items app_names :
  KustomizationRenderer.collect (reflag flag items) app_names
  = (fst (KustomizationRenderer.collect items app_names),
     reflag flag (snd (KustomizationRenderer.collect items app_names))).
Proof.
  induction items as [|[name app] items IH]; simpl; [reflexivity|].
  rewrite IH. destruct (KustomizationRenderer.collect items app_names) as [ks rest'].
  simpl. now destruct (str_in name app_names).
Qed.

Lemma ReleaseRenderer_collect_reflag flag items app_names :
  ReleaseRenderer.collect (reflag flag items) app_names
  = (fst (ReleaseRenderer.collect items app_names),
     reflag flag (snd (ReleaseRenderer.collect items app_names))).
Proof.
  induction items as [|[name [enabled releases bundles kustomizations]] items IH];
    simpl; [reflexivity|].
  rewrite IH. destruct (ReleaseRenderer.collect items app_names) as [rs rest'].
  simpl. destruct (str_in name app_names); simpl; [|reflexivity].
  now destruct releases.
Qed.

(** No renderer reads the [enabled] flag: the renders of a configuration are
    those of the configuration with any other flags. *)
Lemma get_renders_ignores_enabled env app_names source_types flag config :
  get_renders env app_names source_types (Config_reflag flag config)
  = (fst (get_renders env app_names source_types config),
     Config_reflag flag (snd (get_renders env app_names source_types config))).
Proof.
  unfold get_renders, bind, ret, BundleRenderer.render, KustomizationRenderer.render,
    ReleaseRenderer.render, Config_reflag.
  destruct config as [[version items]]. cbn [Config.apps Config.with_apps Config.renderman Renderman.apps Renderman.schema_version].
  rewrite BundleRenderer_collect_reflag.
  destruct (BundleRenderer.collect items app_names) as [bs items1]. cbn [fst snd].
  destruct (extend_all (render_bundle env) bs) as [r1|e]; [|reflexivity].
  cbn [Config.apps Config.with_apps Config.renderman Renderman.apps Renderman.schema_version].
  rewrite KustomizationRenderer_collect_reflag.
  destruct (KustomizationRenderer.collect items1 app_names) as [ks items2]. cbn [fst snd].
  destruct (extend_all (render_kustomization env) ks) as [r2|e]; [|reflexivity].
  cbn [Config.apps Config.with_apps Config.renderman Renderman.apps Renderman.schema_version].
  rewrite ReleaseRenderer_collect_reflag.
  destruct (ReleaseRenderer.collect items2 app_names) as [rs items3]. cbn [fst snd].
  destruct rs as [rs|e]; simpl; [|reflexivity].
  destruct (extend_all (render_release env) rs) as [r3|e]; reflexivity.
Qed.

(* ------------------------------------------------------------------------- *)
(** ** Grouping                                                                *)
(* ------------------------------------------------------------------------- *)

(** C2.  In the scenario of one app [web] with one bundle of a local path and
    a failing URL, [get_renders] yields the two renders and [get_manifests]
    one manifest; the list of that manifest holds the documents of the
    renders, not the renders, and reading its [document] raises. *)
Theorem scenario_web_manifest_document :
  get_renders Scenario.env ["web"] ["bundle"] Scenario.config
    = (Returns [Scenario.render_a; Scenario.render_b], Scenario.config)
  /\ get_manifests [Scenario.render_a; Scenario.render_b]
     = [Manifest.mk "web" "bundle" [VStr "kind: A"; VNone]]
  /\ Manifest.document (Manifest.mk "web" "bundle" [VStr "kind: A"; VNone])
     = Raises (AttributeError "'str' object has no attribute 'document'").
Proof. repeat split. Qed.

(** A manifest built by [get_manifests] from at least one render has no
    readable [document]. *)
Lemma sections_of_documents_raise (r : Render.t) (rs : list Render.t) :
  exists e, Manifest.sections (map document_value (r :: rs)) = Raises e.
Proof.
  simpl. unfold document_value. destruct (Render.document r); simpl; eauto.
Qed.

(* ------------------------------------------------------------------------- *)
(** ** The joined document                                                     *)
(* ------------------------------------------------------------------------- *)

Lemma sections_of_renders (rs : list Render.t) :
  Manifest.sections (map VRender rs) = Returns (kept_documents rs).
Proof.
  unfold kept_documents.
  induction rs as [|r rs IH]; simpl; [reflexivity|].
  rewrite IH. destruct (Render.document r) as [[|c s]|]; simpl; try reflexivity.
Qed.

Lemma kept_documents_app (xs ys : list Render.t) :
  kept_documents (xs ++ ys) = kept_documents xs ++ kept_documents ys.
Proof. unfold kept_documents. now rewrite omap_app, filter_app. Qed.

Lemma kept_documents_skip (r : Render.t) (rs : list Render.t) :
  unset_or_empty r -> kept_documents (r :: rs) = kept_documents rs.
Proof.
  unfold kept_documents. intros [H|H]; simpl; rewrite H; simpl; [reflexivity|].
  rewrite filter_cons_False; [reflexivity| intros Hne; now apply Hne].
Qed.

Lemma kept_documents_none (rs : list Render.t) :
  Forall unset_or_empty rs -> kept_documents rs = [].
Proof.
  induction 1 as [|r rs Hr _ IH]; [reflexivity|].
  now rewrite kept_documents_skip.
Qed.

(** What [save] does with the renders: only their sections matter. *)
Lemma save_same_sections (app_name : AppName) (source_type : RenderType)
    (renders renders' : list value) (output_dir : Path) (fs : FS.t) :
  Manifest.sections renders = Manifest.sections renders' ->
  save (Manifest.mk app_name source_type renders) output_dir fs
  = save (Manifest.mk app_name source_type renders') output_dir fs.
Proof. intros H. unfold save; simpl. now rewrite H. Qed.

(** The file written by a [save] that returns holds the joined sections. *)
Lemma save_content (m : Manifest.t) (output_dir : Path) (fs fs' : FS.t) (p : Path) :
  save m output_dir fs = (Returns p, fs') ->
  exists sections,
    Manifest.sections (Manifest.renders m) = Returns sections
    /\ p = Manifest.file_path m output_dir
    /\ fs' !! p = Some (File (join Manifest.separator sections)).
Proof.
  unfold save, bind, lift, ret, FS.write, modify. intros H.
  destruct (FS.makedirs _ _ fs) as [[[]|e] fs1]; [|discriminate].
  destruct (FS.open_w _ fs1) as [[[]|e] fs2]; [|discriminate].
  destruct (Manifest.sections (Manifest.renders m)) as [sections|e]; [|discriminate].
  injection H as <- <-. exists sections. repeat split.
  apply lookup_insert_eq.
Qed.

(** C10.  In a manifest built from renders, a render whose document is the
    empty string is left out of the joined document, by [document] and by
    [save], like a failed render: the sections are the documents that are
    set and not empty, the manifest without the render has the same document
    and is saved the same, and a manifest of such renders only has the empty
    document and is written as an empty file. *)
Theorem empty_document_excluded (app_name : AppName) (source_type : RenderType)
    (before after : list Render.t) (r : Render.t) :
  unset_or_empty r ->
  let with_r := Manifest.mk app_name source_type (map VRender (before ++ r :: after)) in
  let without := Manifest.mk app_name source_type (map VRender (before ++ after)) in
  Manifest.document with_r
    = Returns (join Manifest.separator (kept_documents (before ++ after)))
  /\ Manifest.document with_r = Manifest.document without
  /\ (forall output_dir fs, save with_r output_dir fs = save without output_dir fs)
  /\ (forall output_dir fs fs' p,
        save with_r output_dir fs = (Returns p, fs') ->
        fs' !! p = Some (File (join Manifest.separator (kept_documents (before ++ after)))))
  /\ (Forall unset_or_empty (before ++ after) ->
      Manifest.document with_r = Returns ""
      /\ forall output_dir fs fs' p,
          save with_r output_dir fs = (Returns p, fs') -> fs' !! p = Some (File "")).
Proof.
  intros Hr with_r without.
  assert (Hkept : kept_documents (before ++ r :: after) = kept_documents (before ++ after)).
  { rewrite !kept_documents_app. f_equal. now apply kept_documents_skip. }
  assert (Hsec : Manifest.sections (Manifest.renders with_r)
                 = Returns (kept_documents (before ++ after))).
  { simpl. now rewrite sections_of_renders, Hkept. }
  assert (Hsec' : Manifest.sections (Manifest.renders without)
                  = Returns (kept_documents (before ++ after))).
  { simpl. now rewrite sections_of_renders. }
  assert (Hsaved : forall output_dir fs fs' p,
             save with_r output_dir fs = (Returns p, fs') ->
             fs' !! p = Some (File (join Manifest.separator
                                         (kept_documents (before ++ after))))).
  { intros output_dir fs fs' p H.
    destruct (save_content _ _ _ _ _ H) as (sections & Hs & _ & Hp).
    rewrite Hsec in Hs. injection Hs as <-. exact Hp. }
  split; [|split; [|split; [|split]]].
  - unfold Manifest.document. now rewrite Hsec.
  - unfold Manifest.document. now rewrite Hsec, Hsec'.
  - intros output_dir fs. apply save_same_sections.
    change (Manifest.sections (Manifest.renders with_r)
            = Manifest.sections (Manifest.renders without)).
    now rewrite Hsec, Hsec'.
  - exact Hsaved.
  - intros Hall. rewrite (kept_documents_none _ Hall) in Hsec, Hsaved. split.
    + unfold Manifest.document. now rewrite Hsec.
    + exact Hsaved.
Qed.

Lemma empty_document_excluded_witness :
  Manifest.document
    (Manifest.mk "web" "bundle"
       (map VRender ([Scenario.render_a] ++ Render.mk "web" "bundle" "./empty.yaml" (Some "") None
                                          :: [Scenario.render_a])))
  = Returns ("kind: A" +:+ NL +:+ "---" +:+ NL +:+ "kind: A").
Proof.
  apply (empty_document_excluded "web" "bundle" [Scenario.render_a] [Scenario.render_a]
           (Render.mk "web" "bundle" "./empty.yaml" (Some "") None)).
  right. reflexivity.
Defined.

(* ------------------------------------------------------------------------- *)
(** ** Render order within a bundle                                            *)
(* ------------------------------------------------------------------------- *)

Lemma map_render_of_source app_name source_type (body : string -> outcome Document)
    (sources : list string) :
  map Render.source
      (map (fun s => render_of app_name source_type s (body s)) sources)
  = sources.
Proof.
  induction sources as [|s l IH]; simpl; [reflexivity|].
  now rewrite render_of_source, IH.
Qed.

(** C4, as the code has it.  The renders of a bundle follow its local paths
    in declaration order and then its URLs in declaration order, whichever
    of them failed: [render_bundle] returns as soon as the two views of the
    sources can be computed, and each render stands for the source at its
    place in that sequence.  The order is the declaration order when no URL
    is declared before a local path. *)
Theorem render_bundle_order (env : Env) (bundle : Bundle.t) :
  let is_path := fun source => negb (Bundle.is_url source) in
  let is_url := fun source => Bundle.is_url source in
  let declared := Bundle.sources bundle in
  (forall paths urls,
      Bundle.paths env bundle = Returns paths ->
      Bundle.urls env bundle = Returns urls ->
      exists rs, render_bundle env bundle = Returns rs
                 /\ map Render.source rs = paths ++ urls)
  /\ (forall rs,
        render_bundle env bundle = Returns rs ->
        exists d,
          Bundle.resolved_data env bundle = Returns d
          /\ Forall2 (fun source r => str_format env source d = Returns (Render.source r))
                     (filter is_path declared ++ filter is_url declared) rs
          /\ (declared = filter is_path declared ++ filter is_url declared ->
              Forall2 (fun source r => str_format env source d = Returns (Render.source r))
                      declared rs)).
Proof.
  intros is_path is_url declared. split.
  - intros paths urls Hp Hu. eexists; split.
    + apply (render_bundle_Returns _ _ _ _ Hp Hu).
    + now rewrite map_app, !map_render_of_source.
  - intros rs H.
    destruct (render_bundle_inv _ _ _ H) as (paths & urls & Hp & Hu).
    rewrite (render_bundle_Returns _ _ _ _ Hp Hu) in H. injection H as <-.
    unfold Bundle.paths, Bundle.urls in Hp, Hu.
    destruct (Bundle.resolved_data env bundle) as [d|e]; simpl in Hp, Hu; [|discriminate].
    apply for_each_Forall2 in Hp, Hu.
    assert (Hall : Forall2 (fun source r => str_format env source d = Returns (Render.source r))
                     (filter is_path declared ++ filter is_url declared)
                     (map (fun file_path =>
                             render_of (Bundle.app_name bundle) "bundle" file_path
                                       (open_read env file_path)) paths
                      ++ map (fun url =>
                                render_of (Bundle.app_name bundle) "bundle" url
                                          (fetch_document env url)) urls)).
    { apply Forall2_app.
      - apply Forall2_fmap_r. eapply Forall2_impl; [exact Hp|].
        intros s p Hs. simpl. now rewrite render_of_source.
      - apply Forall2_fmap_r. eapply Forall2_impl; [exact Hu|].
        intros s p Hs. simpl. now rewrite render_of_source. }
    exists d. split; [reflexivity|]. split; [exact Hall|].
    intros ->. exact Hall.
Qed.

Lemma render_bundle_order_witness :
  exists rs, render_bundle Scenario.env Scenario.web_bundle = Returns rs
             /\ map Render.source rs = ["./a.yaml"] ++ [Scenario.remote_url].
Proof.
  apply (proj1 (render_bundle_order Scenario.env Scenario.web_bundle)); reflexivity.
Defined.

(** C4, as stated, fails on a bundle that declares a URL before a local
    path: the render of the path comes first. *)
Lemma render_bundle_order_counterexample :
  Bundle.sources Scenario.interleaved = [Scenario.remote_url; "./a.yaml"]
  /\ exists rs,
      render_bundle Scenario.env Scenario.interleaved = Returns rs
      /\ map Render.source rs = ["./a.yaml"; Scenario.remote_url]
      /\ map Render.source rs <> Bundle.sources Scenario.interleaved.
Proof.
  split; [reflexivity|]. eexists; split; [reflexivity|].
  split; [reflexivity|]. discriminate.
Qed.

(* ------------------------------------------------------------------------- *)
(** ** What the renderers do to the descriptors                                *)
(* ------------------------------------------------------------------------- *)

Lemma Bundle_set_same b : Bundle.set_app_name (Bundle.app_name b) b = b.
Proof. now destruct b. Qed.
Lemma Kustomization_set_same k :
  Kustomization.set_app_name (Kustomization.app_name k) k = k.
Proof. now destruct k. Qed.
Lemma Release_set_same r : Release.set_app_name (Release.app_name r) r = r.
Proof. now destruct r. Qed.

Lemma with_apps_same config : Config.with_apps (Config.apps config) config = config.
Proof. now destruct config as [[v a]]. Qed.

(** A relation between the store before and after that is kept by each step
    is kept by the sequence. *)
Lemma bind_keeps {S A B} (R : S -> S -> Prop) (m : eff S A) (k : A -> eff S B) (s : S) :
  (forall s1 s2 s3, R s1 s2 -> R s2 s3 -> R s1 s3) ->
  R s (snd (m s)) ->
  (forall a s', R s' (snd (k a s'))) ->
  R s (snd (bind m k s)).
Proof.
  intros Htrans Hm Hk. unfold bind.
  destruct (m s) as [[a|e] s']; simpl in *; [|exact Hm].
  eapply Htrans; [exact Hm | apply Hk].
Qed.

Lemma omap_pointwise {A B} (f g : A -> option B) (l : list A) :
  (forall x, f x = g x) -> omap f l = omap g l.
Proof.
  intros H. induction l as [|x l IH]; [reflexivity|]. simpl. rewrite H.
  destruct (g x); [f_equal|]; exact IH.
Qed.

Section SharedLoops.
Context {D : Type} (set_app_name : AppName -> D -> D) (get_app_name : D -> AppName).
Context (listing : Shared.App.t -> outcome (list Shared.ref))
        (refs_of : Shared.App.t -> list Shared.ref).
Hypothesis set_set : forall name name' d,
  set_app_name name' (set_app_name name d) = set_app_name name' d.
Hypothesis set_get : forall d, set_app_name (get_app_name d) d = d.
Hypothesis listing_refs : forall app listed,
  listing app = Returns listed -> refs_of app = listed.

Lemma fmap_set_set name name' (o : option D) :
  set_app_name name' <$> (set_app_name name <$> o) = set_app_name name' <$> o.
Proof. destruct o; simpl; [|reflexivity]. now rewrite set_set. Qed.

Lemma visit_cons name r listed collected (objects : gmap Shared.ref D) :
  Shared.visit set_app_name name (r :: listed) collected objects
  = Shared.visit set_app_name name listed (collected ++ [r])
                 (alter (set_app_name name) r objects).
Proof. reflexivity. Qed.

Lemma visit_fst name listed collected (objects : gmap Shared.ref D) :
  fst (Shared.visit set_app_name name listed collected objects) = collected ++ listed.
Proof.
  revert collected objects. induction listed as [|r listed IH]; intros collected objects.
  - simpl. now rewrite app_nil_r.
  - rewrite visit_cons, IH, <- app_assoc. reflexivity.
Qed.

Lemma visit_snd name listed collected (objects : gmap Shared.ref D) r :
  snd (Shared.visit set_app_name name listed collected objects) !! r
  = if bool_decide (r ∈ listed) then set_app_name name <$> objects !! r
    else objects !! r.
Proof.
  revert collected objects. induction listed as [|r0 listed IH]; intros collected objects.
  - reflexivity.
  - rewrite visit_cons, IH.
    destruct (decide (r = r0)) as [->|Hne].
    + rewrite lookup_alter_eq, fmap_set_set.
      rewrite (bool_decide_true (r0 ∈ r0 :: listed)) by (now left).
      now destruct (bool_decide (r0 ∈ listed)).
    + rewrite lookup_alter_ne by congruence.
      destruct (bool_decide (r ∈ listed)) eqn:Hin.
      * apply bool_decide_eq_true in Hin.
        rewrite (bool_decide_true (r ∈ r0 :: listed)) by (now right). reflexivity.
      * apply bool_decide_eq_false in Hin.
        rewrite (bool_decide_false (r ∈ r0 :: listed)); [reflexivity|].
        intros [?|?]%elem_of_cons; auto.
Qed.

Lemma reassigned_refl items app_names (objects : gmap Shared.ref D) :
  reassigned set_app_name refs_of items app_names objects objects.
Proof. intros r. now left. Qed.

Lemma reassigned_trans items app_names (o1 o2 o3 : gmap Shared.ref D) :
  reassigned set_app_name refs_of items app_names o1 o2 ->
  reassigned set_app_name refs_of items app_names o2 o3 ->
  reassigned set_app_name refs_of items app_names o1 o3.
Proof.
  intros H12 H23 r.
  destruct (H23 r) as [E23|(name' & Hl' & E23)]; rewrite E23.
  - apply H12.
  - destruct (H12 r) as [E12|(name & Hl & E12)]; rewrite E12.
    + right. eauto.
    + right. exists name'. split; [exact Hl'|]. apply fmap_set_set.
Qed.

Lemma reassigned_cons item items app_names (o1 o2 : gmap Shared.ref D) :
  reassigned set_app_name refs_of items app_names o1 o2 ->
  reassigned set_app_name refs_of (item :: items) app_names o1 o2.
Proof.
  intros H r. destruct (H r) as [E|(name & (app & Hin & Hreq & Hr) & E)]; [now left|].
  right. exists name. split; [|exact E]. exists app. split; [now right | auto].
Qed.

Lemma collect_reassigned items app_names collected (objects : gmap Shared.ref D) :
  reassigned set_app_name refs_of items app_names objects
    (snd (Shared.collect set_app_name listing items app_names collected objects)).
Proof.
  revert collected objects.
  induction items as [|[name app] items IH]; intros collected objects; simpl.
  - apply reassigned_refl.
  - destruct (str_in name app_names) eqn:Hreq; simpl.
    + destruct (listing app) as [listed|e] eqn:Hl; [|apply reassigned_refl].
      pose proof (visit_snd name listed collected objects) as Hv.
      destruct (Shared.visit set_app_name name listed collected objects)
        as [collected' objects'].
      simpl in Hv.
      eapply reassigned_trans; [|apply reassigned_cons, IH].
      intros r. rewrite Hv. destruct (bool_decide (r ∈ listed)) eqn:Hin; [|now left].
      right. exists name. split; [|reflexivity].
      exists app. split; [now left|]. split; [exact Hreq|].
      rewrite (listing_refs _ _ Hl). apply list_elem_of_In.
      now apply bool_decide_eq_true in Hin.
    + apply reassigned_cons, IH.
Qed.

Lemma collect_named items app_names collected (objects : gmap Shared.ref D) :
  named get_app_name refs_of items app_names objects ->
  snd (Shared.collect set_app_name listing items app_names collected objects) = objects.
Proof.
  revert collected. induction items as [|[name app] items IH]; intros collected Hn; simpl.
  - reflexivity.
  - assert (Hrest : named get_app_name refs_of items app_names objects).
    { intros r n d (a & Hin & Hreq & Hr). apply Hn. exists a. split; [now right | auto]. }
    destruct (str_in name app_names) eqn:Hreq; simpl; [|now apply IH].
    destruct (listing app) as [listed|e] eqn:Hl; [|reflexivity].
    pose proof (visit_snd name listed collected objects) as Hv.
    destruct (Shared.visit set_app_name name listed collected objects)
      as [collected' objects'].
    simpl in Hv.
    assert (E : objects' = objects).
    { apply map_eq. intros r. rewrite Hv.
      destruct (bool_decide (r ∈ listed)) eqn:Hin; [|reflexivity].
      apply bool_decide_eq_true, list_elem_of_In in Hin.
      destruct (objects !! r) as [d|] eqn:Hd; [|reflexivity]. simpl. f_equal.
      rewrite <- (Hn r name d) at 1; [apply set_get| |exact Hd].
      exists app. split; [now left|]. split; [exact Hreq|].
      now rewrite (listing_refs _ _ Hl). }
    subst objects'. now apply IH.
Qed.

Lemma render_with_snd render_one items app_names (objects : gmap Shared.ref D) :
  snd (Shared.render_with set_app_name render_one listing items app_names objects)
  = snd (Shared.collect set_app_name listing items app_names [] objects).
Proof.
  unfold Shared.render_with.
  now destruct (Shared.collect set_app_name listing items app_names [] objects)
    as [[collected|e] objects'].
Qed.

Lemma last_listing_listed items app_names r name :
  last_listing refs_of items app_names r = Some name ->
  listed_under refs_of items app_names r name.
Proof.
  induction items as [|[n app] items IH]; simpl; [discriminate|].
  destruct (last_listing refs_of items app_names r) as [later|].
  - intros H. injection H as ->. destruct (IH eq_refl) as (a & Hin & Hreq & Hr).
    exists a. split; [now right | auto].
  - destruct (str_in n app_names) eqn:Hreq; simpl; [|discriminate].
    destruct (bool_decide (r ∈ refs_of app)) eqn:Hin; [|discriminate].
    intros H. injection H as <-. exists app. split; [now left|]. split; [exact Hreq|].
    apply list_elem_of_In. now apply bool_decide_eq_true in Hin.
Qed.

Lemma requested_refs_last_listing items app_names r :
  In r (requested_refs refs_of items app_names) ->
  exists name, last_listing refs_of items app_names r = Some name.
Proof.
  unfold requested_refs.
  induction items as [|[n app] items IH]; simpl; [contradiction|].
  intros [H|H]%in_app_or.
  - destruct (last_listing refs_of items app_names r); [eauto|].
    destruct (str_in n app_names); [|contradiction]. simpl.
    rewrite bool_decide_true by (now apply list_elem_of_In). eauto.
  - destruct (IH H) as [name ->]. eauto.
Qed.
End SharedLoops.

Section SharedTotal.
Context {D : Type} (set_app_name : AppName -> D -> D).
Context (refs_of : Shared.App.t -> list Shared.ref).
Hypothesis set_set : forall name name' d,
  set_app_name name' (set_app_name name d) = set_app_name name' d.

Lemma collect_fst_total items app_names collected (objects : gmap Shared.ref D) :
  fst (Shared.collect set_app_name (fun app => Returns (refs_of app)) items app_names
         collected objects)
  = Returns (collected ++ requested_refs refs_of items app_names).
Proof.
  revert collected objects. unfold requested_refs.
  induction items as [|[name app] items IH]; intros collected objects; simpl.
  - now rewrite app_nil_r.
  - destruct (str_in name app_names); simpl.
    + pose proof (visit_fst set_app_name name (refs_of app) collected objects) as Hv.
      destruct (Shared.visit set_app_name name (refs_of app) collected objects)
        as [collected' objects'].
      simpl in Hv. subst collected'. rewrite IH, <- app_assoc. reflexivity.
    + apply IH.
Qed.

Lemma collect_snd_total items app_names collected (objects : gmap Shared.ref D) r :
  snd (Shared.collect set_app_name (fun app => Returns (refs_of app)) items app_names
         collected objects) !! r
  = relabelled set_app_name refs_of items app_names objects r.
Proof.
  revert collected objects. unfold relabelled.
  induction items as [|[name app] items IH]; intros collected objects; simpl.
  - reflexivity.
  - destruct (str_in name app_names); simpl.
    + pose proof (visit_snd set_app_name set_set name (refs_of app) collected objects r)
        as Hv.
      destruct (Shared.visit set_app_name name (refs_of app) collected objects)
        as [collected' objects'].
      simpl in Hv. rewrite IH, Hv.
      destruct (last_listing refs_of items app_names r) as [later|].
      * destruct (bool_decide (r ∈ refs_of app)); [|reflexivity].
        now apply fmap_set_set.
      * now destruct (bool_decide (r ∈ refs_of app)).
    + rewrite IH. now destruct (last_listing refs_of items app_names r).
Qed.

Lemma render_with_described render_one items app_names (objects : gmap Shared.ref D) :
  fst (Shared.render_with set_app_name render_one (fun app => Returns (refs_of app))
         items app_names objects)
  = extend_all render_one (described set_app_name refs_of items app_names objects).
Proof.
  unfold Shared.render_with, Shared.render_all, described.
  pose proof (collect_fst_total items app_names [] objects) as Hf.
  pose proof (collect_snd_total items app_names [] objects) as Hs.
  destruct (Shared.collect set_app_name _ items app_names [] objects)
    as [collected objects'].
  simpl in Hf, Hs. subst collected. simpl.
  replace (omap (fun r => objects' !! r) (requested_refs refs_of items app_names))
    with (omap (relabelled set_app_name refs_of items app_names objects)
               (requested_refs refs_of items app_names)); [reflexivity|].
  apply omap_pointwise. intros r. now rewrite Hs.
Qed.
End SharedTotal.

Lemma Bundle_set_set name name' b :
  Bundle.set_app_name name' (Bundle.set_app_name name b) = Bundle.set_app_name name' b.
Proof. reflexivity. Qed.
Lemma Kustomization_set_set name name' k :
  Kustomization.set_app_name name' (Kustomization.set_app_name name k)
  = Kustomization.set_app_name name' k.
Proof. reflexivity. Qed.
Lemma Release_set_set name name' r :
  Release.set_app_name name' (Release.set_app_name name r) = Release.set_app_name name' r.
Proof. reflexivity. Qed.

Lemma iter_releases_refs app listed :
  Shared.iter_releases app = Returns listed -> release_refs app = listed.
Proof.
  unfold Shared.iter_releases, release_refs.
  destruct (Shared.App.releases app); simpl; congruence.
Qed.

Lemma objects_reassigned_refl config app_names objects :
  objects_reassigned config app_names objects objects.
Proof. repeat split; apply reassigned_refl. Qed.

Lemma objects_reassigned_trans config app_names o1 o2 o3 :
  objects_reassigned config app_names o1 o2 ->
  objects_reassigned config app_names o2 o3 ->
  objects_reassigned config app_names o1 o3.
Proof.
  intros (Hb & Hk & Hr) (Hb' & Hk' & Hr'). repeat split.
  - eapply reassigned_trans; eauto using Bundle_set_set.
  - eapply reassigned_trans; eauto using Kustomization_set_set.
  - eapply reassigned_trans; eauto using Release_set_set.
Qed.

Section SharedState.
Variables (env : Env) (config : Shared.Config.t) (app_names : list AppName)
          (source_types : list RenderType).

Lemma BundleRenderer_render_snd objects :
  snd (Shared.BundleRenderer.render env config app_names source_types objects)
  = Shared.mk_objects
      (snd (Shared.collect Bundle.set_app_name
              (fun app => Returns (Shared.App.bundles app))
              (Shared.Config.apps config) app_names [] (Shared.bundle_at objects)))
      (Shared.kustomization_at objects) (Shared.release_at objects).
Proof.
  unfold Shared.BundleRenderer.render.
  rewrite <- (render_with_snd Bundle.set_app_name _ (render_bundle env)).
  now destruct (Shared.render_with _ _ _ _ _ _).
Qed.

Lemma KustomizationRenderer_render_snd objects :
  snd (Shared.KustomizationRenderer.render env config app_names source_types objects)
  = Shared.mk_objects (Shared.bundle_at objects)
      (snd (Shared.collect Kustomization.set_app_name
              (fun app => Returns (Shared.App.kustomizations app))
              (Shared.Config.apps config) app_names []
              (Shared.kustomization_at objects)))
      (Shared.release_at objects).
Proof.
  unfold Shared.KustomizationRenderer.render.
  rewrite <- (render_with_snd Kustomization.set_app_name _ (render_kustomization env)).
  now destruct (Shared.render_with _ _ _ _ _ _).
Qed.

Lemma ReleaseRenderer_render_snd objects :
  snd (Shared.ReleaseRenderer.render env config app_names source_types objects)
  = Shared.mk_objects (Shared.bundle_at objects) (Shared.kustomization_at objects)
      (snd (Shared.collect Release.set_app_name Shared.iter_releases
              (Shared.Config.apps config) app_names [] (Shared.release_at objects))).
Proof.
  unfold Shared.ReleaseRenderer.render.
  rewrite <- (render_with_snd Release.set_app_name _ (render_release env)).
  now destruct (Shared.render_with _ _ _ _ _ _).
Qed.

Lemma BundleRenderer_render_reassigned objects :
  objects_reassigned config app_names objects
    (snd (Shared.BundleRenderer.render env config app_names source_types objects)).
Proof.
  rewrite BundleRenderer_render_snd. repeat split; simpl; try apply reassigned_refl.
  apply collect_reassigned; [apply Bundle_set_set|]. now intros app listed [= <-].
Qed.

Lemma KustomizationRenderer_render_reassigned objects :
  objects_reassigned config app_names objects
    (snd (Shared.KustomizationRenderer.render env config app_names source_types objects)).
Proof.
  rewrite KustomizationRenderer_render_snd.
  repeat split; simpl; try apply reassigned_refl.
  apply collect_reassigned; [apply Kustomization_set_set|]. now intros app listed [= <-].
Qed.

Lemma ReleaseRenderer_render_reassigned objects :
  objects_reassigned config app_names objects
    (snd (Shared.ReleaseRenderer.render env config app_names source_types objects)).
Proof.
  rewrite ReleaseRenderer_render_snd. repeat split; simpl; try apply reassigned_refl.
  apply collect_reassigned; [apply Release_set_set | apply iter_releases_refs].
Qed.

Lemma BundleRenderer_render_named objects :
  objects_named config app_names objects ->
  snd (Shared.BundleRenderer.render env config app_names source_types objects) = objects.
Proof.
  intros (Hb & _ & _). rewrite BundleRenderer_render_snd.
  rewrite (collect_named Bundle.set_app_name Bundle.app_name _ Shared.App.bundles
             Bundle_set_set Bundle_set_same); [now destruct objects| |exact Hb].
  now intros app listed [= <-].
Qed.

Lemma KustomizationRenderer_render_named objects :
  objects_named config app_names objects ->
  snd (Shared.KustomizationRenderer.render env config app_names source_types objects)
  = objects.
Proof.
  intros (_ & Hk & _). rewrite KustomizationRenderer_render_snd.
  rewrite (collect_named Kustomization.set_app_name Kustomization.app_name _
             Shared.App.kustomizations Kustomization_set_set Kustomization_set_same);
    [now destruct objects| |exact Hk].
  now intros app listed [= <-].
Qed.

Lemma ReleaseRenderer_render_named objects :
  objects_named config app_names objects ->
  snd (Shared.ReleaseRenderer.render env config app_names source_types objects) = objects.
Proof.
  intros (_ & _ & Hr). rewrite ReleaseRenderer_render_snd.
  rewrite (collect_named Release.set_app_name Release.app_name _ release_refs
             Release_set_set Release_set_same);
    [now destruct objects | apply iter_releases_refs | exact Hr].
Qed.
End SharedState.

(** C5, as the code has it.  [get_renders] adds and removes no descriptor
    object and changes nothing of an object but its [app_name], and that only
    of objects listed under a requested app, to the key of such an app; an
    object that is also listed under an app that is not requested is changed
    with it.  Whether [get_renders] returns or raises, it changes nothing
    when every object listed under a requested app carries the key of that
    app already. *)
Theorem get_renders_source_model (env : Env) (config : Shared.Config.t)
    (app_names : list AppName) (source_types : list RenderType)
    (objects : Shared.Objects) :
  objects_reassigned config app_names objects
    (snd (Shared.get_renders env config app_names source_types objects))
  /\ (objects_named config app_names objects ->
      snd (Shared.get_renders env config app_names source_types objects) = objects).
Proof.
  unfold Shared.get_renders. split.
  - repeat (apply bind_keeps;
            [apply objects_reassigned_trans
            |auto using BundleRenderer_render_reassigned,
               KustomizationRenderer_render_reassigned, ReleaseRenderer_render_reassigned
            |intros ? ?]).
    apply objects_reassigned_refl.
  - revert objects.
    change (forall objects,
      (fun s s' => objects_named config app_names s -> s' = s) objects
        (snd (bind (Shared.BundleRenderer.render env config app_names source_types)
           (fun b => bind (Shared.KustomizationRenderer.render env config app_names
                             source_types)
              (fun k => bind (Shared.ReleaseRenderer.render env config app_names
                                source_types)
                 (fun r => ret (b ++ k ++ r)))) objects))).
    intros objects.
    repeat (apply bind_keeps;
            [intros s1 s2 s3 H12 H23 Hn; rewrite (H23 ltac:(rewrite (H12 Hn); exact Hn));
             exact (H12 Hn)
            |auto using BundleRenderer_render_named,
               KustomizationRenderer_render_named, ReleaseRenderer_render_named
            |intros ? ?]).
    reflexivity.
Qed.

Lemma get_renders_source_model_witness :
  snd (Shared.get_renders Scenario.env Scenario.web_config ["web"] ["bundle"]
         Scenario.web_objects)
  = Scenario.web_objects.
Proof.
  apply (proj2 (get_renders_source_model Scenario.env Scenario.web_config ["web"]
                  ["bundle"] Scenario.web_objects)).
  repeat split; intros r name d (app & [[= <- <-]|[]] & _ & Hr); simpl in Hr;
    try contradiction.
  destruct Hr as [<-|[]]. intros [= <-]. reflexivity.
Defined.

(** C5, as stated, fails: rendering the app [web] overwrites the [app_name]
    of the bundle listed under it, which is also the bundle of the app [api],
    an app that was not requested. *)
Lemma get_renders_source_model_counterexample :
  Shared.bundle_at Scenario.shared_objects !! 0%nat
    = Some (Bundle.mk "api" "static" (Some []) ["./a.yaml"])
  /\ Shared.bundle_at
       (snd (Shared.get_renders Scenario.env Scenario.shared_config ["web"] ["bundle"]
               Scenario.shared_objects)) !! 0%nat
     = Some (Bundle.mk "web" "static" (Some []) ["./a.yaml"])
  /\ snd (Shared.get_renders Scenario.env Scenario.shared_config ["web"] ["bundle"]
            Scenario.shared_objects)
     <> Scenario.shared_objects.
Proof.
  split; [reflexivity|]. split; [vm_compute; reflexivity|].
  intros H. apply (f_equal (fun o => Shared.bundle_at o !! 0%nat)) in H.
  vm_compute in H. discriminate.
Qed.

(* ------------------------------------------------------------------------- *)
(** ** Paths                                                                   *)
(* ------------------------------------------------------------------------- *)

#[local] Arguments String.append !_ _ : simpl nomatch.
#[local] Arguments Ascii.eqb : simpl never.

Lemma append_nil_r (s : string) : s +:+ "" = s.
Proof. induction s as [|c s IH]; simpl; [reflexivity | now rewrite IH]. Qed.

Lemma append_assoc (a b c : string) : (a +:+ b) +:+ c = a +:+ b +:+ c.
Proof. induction a as [|x a IH]; simpl; [reflexivity | now rewrite IH]. Qed.

Lemma append_length (a b : string) :
  String.length (a +:+ b) = (String.length a + String.length b)%nat.
Proof. induction a as [|x a IH]; simpl; [reflexivity | now rewrite IH]. Qed.

Lemma append_ne_self (a b : string) : b <> "" -> a +:+ b <> a.
Proof.
  intros Hb H. apply (f_equal String.length) in H. rewrite append_length in H.
  destruct b; [congruence | simpl in H; lia].
Qed.

Lemma startswith_append (a b c : string) :
  startswith (a +:+ b) (a +:+ c) = startswith b c.
Proof.
  induction a as [|x a IH]; simpl; [reflexivity|].
  now rewrite Ascii.eqb_refl, IH.
Qed.

Lemma char_in_append (c : ascii) (a b : string) :
  char_in c (a +:+ b) = char_in c a || char_in c b.
Proof.
  induction a as [|x a IH]; simpl; [reflexivity|]. rewrite IH. apply orb_assoc.
Qed.

Lemma endswith_char_append (c : ascii) (a b : string) :
  b <> "" -> endswith_char c (a +:+ b) = endswith_char c b.
Proof.
  intros Hb. induction a as [|x a IH]; simpl; [reflexivity|].
  rewrite IH. destruct (a +:+ b) eqn:E; [|reflexivity].
  destruct a; simpl in E; [congruence | discriminate].
Qed.

Lemma endswith_char_absent (c : ascii) (s : string) :
  char_in c s = false -> endswith_char c s = false.
Proof.
  induction s as [|x s IH]; simpl; [reflexivity|]. intros H.
  apply orb_false_elim in H as [Hx Hs].
  destruct s; [|auto]. now rewrite Ascii.eqb_sym.
Qed.

Lemma startswith_sep_absent (s : string) :
  char_in sep s = false -> startswith "/" s = false.
Proof.
  destruct s as [|x s]; simpl; [reflexivity|]. intros H.
  apply orb_false_elim in H as [Hx _]. unfold sep in Hx. now rewrite Hx.
Qed.

Lemma split_last_no_sep (s : string) :
  char_in sep s = false -> split_last s = ("", s).
Proof.
  induction s as [|x s IH]; simpl; [reflexivity|]. intros H.
  apply orb_false_elim in H as [Hx Hs]. rewrite (IH Hs).
  rewrite Ascii.eqb_sym in Hx. now rewrite Hx.
Qed.

Lemma split_last_append (x y : string) :
  char_in sep y = false -> split_last (x +:+ "/" +:+ y) = (x +:+ "/", y).
Proof.
  intros Hy. induction x as [|c x IH]; simpl in *.
  - now rewrite (split_last_no_sep _ Hy).
  - rewrite IH. destruct (x +:+ "/") eqn:E; [|reflexivity].
    destruct x; discriminate.
Qed.

Lemma only_seps_append_false (x : string) :
  x <> "" -> endswith_char sep x = false -> only_seps (x +:+ "/") = false.
Proof.
  induction x as [|c x IH]; [congruence|]. intros _ H. simpl.
  destruct x as [|c' x].
  - simpl in *. now rewrite H.
  - rewrite IH; [apply andb_false_r | discriminate | exact H].
Qed.

Lemma rstrip_sep_append (x : string) :
  x <> "" -> endswith_char sep x = false ->
  rstrip_by (Ascii.eqb sep) (x +:+ "/") = x.
Proof.
  induction x as [|c x IH]; [congruence|]. intros _ H.
  destruct x as [|c' x].
  - simpl in *. rewrite Ascii.eqb_sym in H. now rewrite H.
  - change (String c (String c' x) +:+ "/") with (String c (String c' x +:+ "/")).
    cbn [rstrip_by]. rewrite IH; [reflexivity | discriminate | exact H].
Qed.

Lemma path_split_append (x y : string) :
  x <> "" -> endswith_char sep x = false -> char_in sep y = false ->
  path_split (x +:+ "/" +:+ y) = (x, y).
Proof.
  intros Hx Hend Hy. unfold path_split.
  rewrite (split_last_append _ _ Hy), (only_seps_append_false _ Hx Hend).
  now rewrite (rstrip_sep_append _ Hx Hend).
Qed.

Lemma join2_plain (x y : string) :
  x <> "" -> endswith_char sep x = false -> char_in sep y = false ->
  join2 x y = x +:+ "/" +:+ y.
Proof.
  intros Hx Hend Hy. unfold join2.
  rewrite (startswith_sep_absent _ Hy), Hend. now destruct x.
Qed.

(** The place of a manifest with plain names below a directory. *)
Lemma file_path_plain (m : Manifest.t) (output_dir : Path) :
  plain_manifest m = true ->
  output_dir <> "" -> endswith_char sep output_dir = false ->
  let app_dir := output_dir +:+ "/" +:+ Manifest.app_name m in
  let file := Manifest.source_type m +:+ ".manifest.yaml" in
  Manifest.file_path m output_dir = app_dir +:+ "/" +:+ file
  /\ dirname (Manifest.file_path m output_dir) = app_dir
  /\ path_split app_dir = (output_dir, Manifest.app_name m)
  /\ Manifest.app_name m <> "".
Proof.
  intros Hm Hd Hend app_dir file. unfold plain_manifest, plain_name in Hm.
  repeat (apply andb_prop in Hm as [Hm ?]).
  repeat match goal with H : negb _ = true |- _ => apply negb_true_iff in H end.
  assert (Hname : Manifest.app_name m <> "") by (intros E; rewrite E in *; discriminate).
  assert (Hfile : char_in sep file = false).
  { unfold file. rewrite char_in_append. apply orb_false_intro; [assumption | reflexivity]. }
  assert (Hdir : app_dir <> "") by (unfold app_dir; now destruct output_dir).
  assert (Hdend : endswith_char sep app_dir = false).
  { unfold app_dir. rewrite <- append_assoc.
    rewrite endswith_char_append by assumption. now apply endswith_char_absent. }
  assert (Hpath : Manifest.file_path m output_dir = app_dir +:+ "/" +:+ file).
  { unfold Manifest.file_path, path_join; simpl.
    rewrite (join2_plain output_dir) by assumption.
    now rewrite join2_plain. }
  split; [exact Hpath|]. split; [|split; [|exact Hname]].
  - unfold dirname. rewrite Hpath. now rewrite path_split_append.
  - unfold app_dir. now apply path_split_append.
Qed.

Lemma within_self (d : Path) : FS.within d d = true.
Proof. unfold FS.within. now rewrite String.eqb_refl. Qed.

Lemma within_below (d rest : string) : FS.within d (d +:+ "/" +:+ rest) = true.
Proof.
  unfold FS.within. apply orb_true_intro. right.
  rewrite (startswith_append d "/" ("/" +:+ rest)). reflexivity.
Qed.

(* ------------------------------------------------------------------------- *)
(** ** The file-system calls, one at a time                                    *)
(* ------------------------------------------------------------------------- *)

Lemma mkdir_cases (p : Path) (fs : FS.t) :
  (exists e, FS.mkdir p fs = (Raises e, fs))
  \/ (fs !! p = None /\ FS.mkdir p fs = (Returns tt, <[p := Dir]> fs)).
Proof.
  unfold FS.mkdir. destruct p as [|c p]; [left; eauto|].
  destruct (FS.exists_ fs (String c p)) eqn:He; [left; eauto|].
  destruct (FS.parent_isdir fs (String c p)); [right | left; eauto].
  split; [|reflexivity].
  unfold FS.exists_ in He. apply orb_false_elim in He as [_ He].
  apply bool_decide_eq_false in He. now apply eq_None_not_Some.
Qed.

Lemma open_w_cases (p : Path) (fs : FS.t) :
  (exists e, FS.open_w p fs = (Raises e, fs))
  \/ (fs !! p <> Some Dir /\ FS.open_w p fs = (Returns tt, <[p := File ""]> fs)).
Proof.
  unfold FS.open_w. destruct p as [|c p]; [left; eauto|].
  destruct (fs !! String c p) as [[|x]|] eqn:Hp; [left; eauto| |];
    (destruct (FS.is_root (String c p)); [left; eauto|]);
    (destruct (FS.parent_isdir fs (String c p)); [right | left; eauto]);
    (split; [congruence | reflexivity]).
Qed.

Lemma keeps_dirs_refl fs : keeps_dirs fs fs.
Proof. now intros p. Qed.

Lemma keeps_dirs_trans fs1 fs2 fs3 :
  keeps_dirs fs1 fs2 -> keeps_dirs fs2 fs3 -> keeps_dirs fs1 fs3.
Proof. intros H12 H23 p Hp. auto. Qed.

Lemma mkdir_keeps_dirs p fs : keeps_dirs fs (snd (FS.mkdir p fs)).
Proof.
  destruct (mkdir_cases p fs) as [[e ->]|[Hp ->]]; simpl; [apply keeps_dirs_refl|].
  intros q Hq. rewrite lookup_insert_ne; [exact Hq | congruence].
Qed.

Lemma makedirs_rec_keeps_dirs fuel name exist_ok fs :
  keeps_dirs fs (snd (FS.makedirs_rec fuel name exist_ok fs)).
Proof.
  revert name fs. induction fuel as [|fuel IH]; intros name fs; simpl;
    [apply keeps_dirs_refl|].
  destruct (path_split name) as [head tail].
  destruct (match tail with "" => path_split head | _ => (head, tail) end)
    as [head' tail'].
  set (ancestors := match head' with "" => _ | _ => _ end).
  assert (Ha : keeps_dirs fs (snd ancestors)).
  { subst ancestors. destruct head' as [|c h]; [apply keeps_dirs_refl|].
    destruct tail' as [|c' t]; [apply keeps_dirs_refl|].
    destruct (FS.exists_ fs (String c h)); [apply keeps_dirs_refl|].
    specialize (IH (String c h) fs).
    destruct (FS.makedirs_rec fuel (String c h) exist_ok fs) as [[[]|[]] fs'];
      exact IH. }
  destruct ancestors as [[[]|e] fs']; simpl in *; try exact Ha.
  pose proof (mkdir_keeps_dirs name fs') as Hm.
  destruct (FS.mkdir name fs') as [[[]|e] fs'']; simpl in *.
  - eapply keeps_dirs_trans; eauto.
  - destruct (exist_ok && FS.isdir fs'' name); simpl; eapply keeps_dirs_trans; eauto.
Qed.

Lemma save_keeps_dirs m output_dir fs :
  keeps_dirs fs (snd (save m output_dir fs)).
Proof.
  unfold save, bind, lift, ret, FS.write, modify, FS.makedirs.
  pose proof (makedirs_rec_keeps_dirs
                (S (String.length (dirname (Manifest.file_path m output_dir))))
                (dirname (Manifest.file_path m output_dir)) true fs) as H1.
  destruct (FS.makedirs_rec _ _ _ fs) as [[[]|e] fs1]; simpl in *; [|exact H1].
  destruct (open_w_cases (Manifest.file_path m output_dir) fs1)
    as [[e ->]|[Hp ->]]; [exact H1|].
  assert (H2 : keeps_dirs fs (<[Manifest.file_path m output_dir := File ""]> fs1)).
  { intros q Hq. apply H1 in Hq. rewrite lookup_insert_ne; [exact Hq | congruence]. }
  destruct (Manifest.sections (Manifest.renders m)) as [sections|e]; simpl; [|exact H2].
  intros q Hq. apply H1 in Hq.
  rewrite !lookup_insert_ne; [exact Hq | congruence | congruence].
Qed.

Lemma save_manifests_keeps_dirs manifests output_dir fs :
  keeps_dirs fs (snd (save_manifests manifests output_dir fs)).
Proof.
  unfold save_manifests. revert fs.
  induction manifests as [|m ms IH]; intros fs; simpl; [apply keeps_dirs_refl|].
  unfold bind at 1.
  pose proof (save_keeps_dirs m output_dir fs) as H1.
  destruct (save m output_dir fs) as [[p|e] fs1]; simpl in *; [|exact H1].
  unfold bind.
  specialize (IH fs1).
  destruct (for_each_eff _ ms fs1) as [[ps|e] fs2]; simpl in *;
    eapply keeps_dirs_trans; eauto.
Qed.

Lemma rmtree_removes d fs : FS.rmtree d fs !! d = None \/ exists x, fs !! d = Some (File x).
Proof.
  unfold FS.rmtree. destruct (fs !! d) as [[|x]|] eqn:Hd; [left| right; eauto | left; auto].
  apply map_lookup_filter_None. right. intros n _. simpl.
  now rewrite within_self.
Qed.

(** When the body of [with TemporaryDirectory()] is a [save_manifests], the
    directory is gone after the statement, however the statement ends,
    provided it could be created. *)
Lemma TemporaryDirectory_gone staging_dir manifests target fs r fs' :
  FS.TemporaryDirectory staging_dir (save_manifests manifests target) fs = (Returns r, fs') ->
  fs' !! staging_dir = None.
Proof.
  unfold FS.TemporaryDirectory, bind, finally.
  destruct (mkdir_cases staging_dir fs) as [[e ->]|[Hp ->]]; [discriminate|].
  pose proof (save_manifests_keeps_dirs manifests target (<[staging_dir := Dir]> fs)) as Hk.
  destruct (save_manifests manifests target _) as [o fs1]. simpl in Hk.
  intros H. injection H as _ <-.
  specialize (Hk staging_dir (lookup_insert_eq _ _ _)).
  destruct (rmtree_removes staging_dir fs1) as [H|[x H]]; [exact H | congruence].
Qed.

(** [diff_manifests] compares the output directory with a staging directory
    that is already removed: when it returns, it returns the status 2 of the
    diff utility, whatever the manifests and the output directory. *)
Lemma diff_manifests_status staging_dir manifests output_dir fs returncode fs' :
  diff_manifests staging_dir manifests output_dir fs = (Returns returncode, fs') ->
  returncode = 2.
Proof.
  unfold diff_manifests. unfold bind at 1.
  destruct (FS.TemporaryDirectory _ _ fs) as [[ps|e] fs1] eqn:Ht; [|discriminate].
  apply TemporaryDirectory_gone in Ht.
  unfold bind, gets, modify, ret. intros H. injection H as <- _.
  unfold FS.diff_r. now rewrite Ht.
Qed.

(** C1.  After an [update_manifests] that wrote the manifest of the app
    [web] to the output directory [out], [diff_manifests] on the same
    manifests and output directory returns the exit status 2. *)
Theorem update_then_diff_exit_status :
  exists paths fs,
    update_manifests "/tmp/tmpa" [Scenario.manifest_web] "out" Scenario.fs_tmp
      = (Returns paths, fs)
    /\ paths = ["out/web/bundle.manifest.yaml"]
    /\ fs !! "out/web/bundle.manifest.yaml" = Some (File "kind: A")
    /\ fst (diff_manifests "/tmp/tmpb" [Scenario.manifest_web] "out" fs) = Returns 2.
Proof.
  eexists _, _. split; [vm_compute; reflexivity|].
  split; [reflexivity|]. split; vm_compute; reflexivity.
Qed.

(* ------------------------------------------------------------------------- *)
(** ** Staging                                                                 *)
(* ------------------------------------------------------------------------- *)

Lemma staged_insert staging_dir fs fs' rest x :
  rest <> "" ->
  staged staging_dir fs fs' ->
  staged staging_dir fs (<[staging_dir +:+ "/" +:+ rest := x]> fs').
Proof.
  intros Hrest [Hdir Hout]. split.
  - rewrite lookup_insert_ne; [exact Hdir|]. apply append_ne_self. discriminate.
  - intros q Hq. rewrite lookup_insert_ne; [now apply Hout|].
    intros <-. now rewrite within_below in Hq.
Qed.

Lemma fresh_dir_spec fs staging_dir :
  fresh_dir fs staging_dir = true ->
  staging_dir <> ""
  /\ endswith_char sep staging_dir = false
  /\ forall q, FS.within staging_dir q = true -> fs !! q = None.
Proof.
  unfold fresh_dir. intros H.
  apply andb_prop in H as [H Hall]. apply andb_prop in H as [Hne Hend].
  apply negb_true_iff in Hne, Hend. split; [|split; [exact Hend|]].
  - intros ->. discriminate.
  - intros q Hq. destruct (fs !! q) as [x|] eqn:Hx; [|reflexivity].
    rewrite forallb_forall in Hall.
    apply elem_of_map_to_list, list_elem_of_In, Hall in Hx. simpl in Hx.
    now rewrite Hq in Hx.
Qed.

(** A directory to make right below an existing one is made by one [mkdir]. *)
Lemma makedirs_below name head tail exist_ok fs :
  path_split name = (head, tail) -> tail <> "" -> FS.exists_ fs head = true ->
  snd (FS.makedirs name exist_ok fs) = fs
  \/ snd (FS.makedirs name exist_ok fs) = <[name := Dir]> fs.
Proof.
  intros Hsplit Htail Hhead. unfold FS.makedirs. cbn [FS.makedirs_rec].
  rewrite Hsplit. destruct tail as [|c t]; [congruence|].
  assert (Ha : (match head with
                | "" => (Returns false, fs)
                | String _ _ =>
                    if FS.exists_ fs head then (Returns false, fs)
                    else match FS.makedirs_rec (String.length name) head exist_ok fs with
                         | (Returns _, fs') => (Returns (String.eqb (String c t) "."), fs')
                         | (Raises (FileExistsError _), fs') =>
                             (Returns (String.eqb (String c t) "."), fs')
                         | (Raises e, fs') => (Raises e, fs')
                         end
                end) = (Returns false, fs)).
  { destruct head; [reflexivity|]. now rewrite Hhead. }
  rewrite Ha.
  destruct (mkdir_cases name fs) as [[e ->]|[_ ->]]; simpl; [|now right].
  destruct (exist_ok && FS.isdir fs name); now left.
Qed.

Lemma save_staged m staging_dir fs0 fs :
  plain_manifest m = true ->
  staging_dir <> "" -> endswith_char sep staging_dir = false ->
  staged staging_dir fs0 fs ->
  staged staging_dir fs0 (snd (save m staging_dir fs)).
Proof.
  intros Hm Hne Hend Hst.
  destruct (file_path_plain m staging_dir Hm Hne Hend) as (Hpath & Hdirname & Hsplit & Happ).
  assert (Hpath' : Manifest.file_path m staging_dir
                   = staging_dir +:+ "/" +:+ Manifest.app_name m +:+ "/"
                       +:+ Manifest.source_type m +:+ ".manifest.yaml").
  { rewrite Hpath. now rewrite !append_assoc. }
  assert (Hrest : Manifest.app_name m +:+ "/" +:+ Manifest.source_type m
                    +:+ ".manifest.yaml" <> "").
  { destruct (Manifest.app_name m); [congruence | discriminate]. }
  unfold save, bind, lift, ret, FS.write, modify. rewrite Hdirname.
  assert (Hmk : staged staging_dir fs0
                  (snd (FS.makedirs (staging_dir +:+ "/" +:+ Manifest.app_name m) true fs))).
  { destruct (makedirs_below _ _ _ true fs Hsplit Happ) as [-> | ->].
    - unfold FS.exists_. destruct Hst as [-> _]. apply orb_true_r.
    - exact Hst.
    - now apply staged_insert. }
  destruct (FS.makedirs _ true fs) as [[[]|e] fs1]; simpl in *; [|exact Hmk].
  destruct (open_w_cases (Manifest.file_path m staging_dir) fs1)
    as [[e ->]|[_ ->]]; [exact Hmk|].
  rewrite Hpath'.
  destruct (Manifest.sections (Manifest.renders m)) as [sections|e]; simpl;
    repeat apply staged_insert; assumption.
Qed.

Lemma save_manifests_staged manifests staging_dir fs0 fs :
  forallb plain_manifest manifests = true ->
  staging_dir <> "" -> endswith_char sep staging_dir = false ->
  staged staging_dir fs0 fs ->
  staged staging_dir fs0 (snd (save_manifests manifests staging_dir fs)).
Proof.
  intros Hms Hne Hend. unfold save_manifests. revert fs.
  induction manifests as [|m ms IH]; intros fs Hst; simpl; [exact Hst|].
  simpl in Hms. apply andb_prop in Hms as [Hm Hms].
  unfold bind at 1.
  pose proof (save_staged m staging_dir fs0 fs Hm Hne Hend Hst) as H1.
  destruct (save m staging_dir fs) as [[p|e] fs1]; simpl in *; [|exact H1].
  unfold bind. specialize (IH Hms fs1 H1).
  destruct (for_each_eff _ ms fs1) as [[ps|e] fs2]; exact IH.
Qed.

(** Removing the staging directory gives back the file system it was
    created in. *)
Lemma rmtree_staged staging_dir fs fs' :
  (forall q, FS.within staging_dir q = true -> fs !! q = None) ->
  staged staging_dir fs fs' -> FS.rmtree staging_dir fs' = fs.
Proof.
  intros Hfresh [Hdir Hout]. unfold FS.rmtree. rewrite Hdir.
  apply map_eq. intros q.
  destruct (FS.within staging_dir q) eqn:Hq.
  - rewrite (Hfresh q Hq). apply map_lookup_filter_None. right.
    intros x _. simpl. congruence.
  - rewrite <- (Hout q Hq). destruct (fs' !! q) as [x|] eqn:Hx.
    + apply map_lookup_filter_Some. split; [exact Hx | exact Hq].
    + apply map_lookup_filter_None. now left.
Qed.

Lemma rmtree_absent d fs : fs !! d = None -> FS.rmtree d fs = fs.
Proof. unfold FS.rmtree. now intros ->. Qed.

Lemma TemporaryDirectory_restores staging_dir manifests fs :
  forallb plain_manifest manifests = true ->
  fresh_dir fs staging_dir = true ->
  snd (FS.TemporaryDirectory staging_dir (save_manifests manifests staging_dir) fs) = fs.
Proof.
  intros Hms Hfresh.
  destruct (fresh_dir_spec _ _ Hfresh) as (Hne & Hend & Hnone).
  unfold FS.TemporaryDirectory, bind, finally.
  destruct (mkdir_cases staging_dir fs) as [[e ->]|[_ ->]]; [reflexivity|].
  assert (Hst : staged staging_dir fs (<[staging_dir := Dir]> fs)).
  { split; [apply lookup_insert_eq|].
    intros q Hq. apply lookup_insert_ne. intros <-. now rewrite within_self in Hq. }
  pose proof (save_manifests_staged manifests staging_dir fs _ Hms Hne Hend Hst) as H.
  destruct (save_manifests manifests staging_dir _) as [o fs1]. simpl in *.
  now apply rmtree_staged.
Qed.



(** C9.  A manifest whose app name is the absolute path [/out] is not
    written to the staging directory: [path.join] drops the staging
    directory, and [diff_manifests] on the output directory [/out] writes
    the manifest into that directory, where no such file was. *)
Theorem diff_manifests_writes_output :
  Manifest.file_path Scenario.manifest_abs "/tmp/tmpb" = "/out/bundle.manifest.yaml"
  /\ FS.within "/out" "/out/bundle.manifest.yaml" = true
  /\ Scenario.fs_out !! "/out/bundle.manifest.yaml" = None
  /\ snd (diff_manifests "/tmp/tmpb" [Scenario.manifest_abs] "/out" Scenario.fs_out)
       !! "/out/bundle.manifest.yaml" = Some (File "kind: A").
Proof. repeat split; vm_compute; reflexivity. Qed.

(* ------------------------------------------------------------------------- *)
(** ** [makedirs] does not run out of fuel                                     *)
(* ------------------------------------------------------------------------- *)

Lemma split_last_length (p h t : string) :
  split_last p = (h, t) -> (String.length h + String.length t = String.length p)%nat.
Proof.
  revert h t. induction p as [|c p IH]; intros h t H; simpl in H.
  - injection H as <- <-. reflexivity.
  - destruct (split_last p) as [h' t']. specialize (IH _ _ eq_refl).
    destruct h' as [|x h'].
    + destruct (Ascii.eqb c sep); injection H as <- <-; simpl in *; lia.
    + injection H as <- <-. simpl in *. lia.
Qed.

Lemma rstrip_by_length (f : ascii -> bool) (s : string) :
  (String.length (rstrip_by f s) <= String.length s)%nat.
Proof.
  induction s as [|c s IH]; simpl; [lia|].
  destruct (rstrip_by f s); [destruct (f c)|]; simpl in *; lia.
Qed.

Lemma path_split_length (p h t : string) :
  path_split p = (h, t) -> (String.length h + String.length t <= String.length p)%nat.
Proof.
  unfold path_split. destruct (split_last p) as [h' t'] eqn:E.
  apply split_last_length in E. intros H.
  destruct (only_seps h'); injection H as <- <-; [lia|].
  pose proof (rstrip_by_length (Ascii.eqb sep) h'). lia.
Qed.

(** The result of [makedirs_rec] is the same for every fuel above the
    length of the path. *)
Lemma makedirs_fuel (n m : nat) (name : Path) (exist_ok : bool) (fs : FS.t) :
  (String.length name < n)%nat -> (String.length name < m)%nat ->
  FS.makedirs_rec n name exist_ok fs = FS.makedirs_rec m name exist_ok fs.
Proof.
  revert m name fs. induction n as [|n IH]; intros m name fs Hn Hm; [lia|].
  destruct m as [|m]; [lia|]. cbn [FS.makedirs_rec].
  destruct (path_split name) as [head tail] eqn:E1.
  apply path_split_length in E1.
  destruct (match tail with "" => path_split head | _ => (head, tail) end)
    as [head' tail'] eqn:E2.
  assert (Hlen : tail' <> "" -> (String.length head' < String.length name)%nat).
  { intros Ht. destruct tail as [|c t].
    - apply path_split_length in E2. destruct tail'; [congruence | simpl in *; lia].
    - injection E2 as <- <-. simpl in *. lia. }
  destruct head' as [|c h]; [reflexivity|].
  destruct tail' as [|c' t]; [reflexivity|].
  destruct (FS.exists_ fs (String c h)); [reflexivity|].
  rewrite (IH m (String c h) fs); [reflexivity| |];
    specialize (Hlen ltac:(discriminate)); lia.
Qed.

(* ------------------------------------------------------------------------- *)
(** ** More on the renderers                                                   *)
(* ------------------------------------------------------------------------- *)

Lemma filter_split_length {A} (f : A -> bool) (l : list A) :
  (length (filter (fun x => negb (f x)) l) + length (filter (fun x => f x) l)
   = length l)%nat.
Proof.
  induction l as [|x l IH]; [reflexivity|].
  rewrite !filter_cons. destruct (f x); simpl; lia.
Qed.

Lemma render_of_labels app_name source_type source body :
  Render.app_name (render_of app_name source_type source body) = app_name
  /\ Render.source_type (render_of app_name source_type source body) = source_type.
Proof. now destruct body. Qed.

Lemma render_bundle_shape (env : Env) (bundle : Bundle.t) (rs : list Render.t) :
  render_bundle env bundle = Returns rs ->
  length rs = length (Bundle.sources bundle)
  /\ Forall (fun r => Render.app_name r = Bundle.app_name bundle
                      /\ Render.source_type r = "bundle") rs.
Proof.
  intros H.
  destruct (render_bundle_inv _ _ _ H) as (paths & urls & Hp & Hu).
  rewrite (render_bundle_Returns _ _ _ _ Hp Hu) in H. injection H as <-.
  split.
  - unfold Bundle.paths, Bundle.urls in Hp, Hu.
    destruct (Bundle.resolved_data env bundle) as [d|e]; simpl in Hp, Hu; [|discriminate].
    apply for_each_length in Hp, Hu.
    rewrite length_app, !length_map, Hp, Hu.
    apply (filter_split_length Bundle.is_url).
  - apply Forall_app; split; apply Forall_forall; intros r Hr;
      apply list_elem_of_In, in_map_iff in Hr; destruct Hr as (s & <- & _);
      apply render_of_labels.
Qed.

(** X1.  When [render_bundle] returns, it returns one render per declared
    source, each labelled with the [app_name] of the bundle and the source
    type [bundle]. *)
Theorem render_bundle_one_per_source (env : Env) (bundle : Bundle.t)
    (rs : list Render.t) :
  render_bundle env bundle = Returns rs ->
  length rs = length (Bundle.sources bundle)
  /\ Forall (fun r => Render.app_name r = Bundle.app_name bundle
                      /\ Render.source_type r = "bundle") rs.
Proof. apply render_bundle_shape. Qed.

Lemma render_bundle_one_per_source_witness :
  length [Scenario.render_a; Scenario.render_b]
  = length (Bundle.sources Scenario.web_bundle).
Proof.
  apply (render_bundle_one_per_source Scenario.env Scenario.web_bundle
           [Scenario.render_a; Scenario.render_b]).
  reflexivity.
Defined.

(** *** What a failing [str.format] does *)

Lemma for_each_raises {A B} (f : A -> outcome B) (l : list A) (x : A) (e : exn) :
  In x l -> f x = Raises e -> exists e', for_each f l = Raises e'.
Proof.
  intros Hin Hx. induction l as [|y l IH]; [contradiction|]. simpl.
  destruct (f y) as [b|e1] eqn:Hy; simpl; [|eauto].
  destruct Hin as [->|Hin]; [congruence|].
  destruct (IH Hin) as [e' ->]. simpl. eauto.
Qed.

Lemma render_bundle_raises env bundle e :
  Bundle.paths env bundle = Raises e \/ Bundle.urls env bundle = Raises e ->
  exists e', render_bundle env bundle = Raises e'.
Proof.
  unfold render_bundle. intros [H|H].
  - rewrite H. simpl. eauto.
  - destruct (Bundle.paths env bundle); simpl; [|eauto]. rewrite H. simpl. eauto.
Qed.

Lemma BundleRenderer_collect_In items app_names name app bundle :
  In (name, app) items -> str_in name app_names = true -> In bundle (App.bundles app) ->
  In (Bundle.set_app_name name bundle) (fst (BundleRenderer.collect items app_names)).
Proof.
  intros Hin Hreq Hb. induction items as [|[n a] items IH]; [contradiction|].
  simpl. destruct (BundleRenderer.collect items app_names) as [bs rest'].
  simpl in IH.
  destruct Hin as [E|Hin].
  - injection E as -> ->. rewrite Hreq. simpl.
    apply in_or_app. left. now apply in_map.
  - destruct (str_in n app_names); simpl; [apply in_or_app; right|]; auto.
Qed.

(** X2.  A bundle of a requested app whose [paths] or [urls] cannot be
    computed (no [data] mapping, or a [str.format] that raises) is not turned
    into a render with an error: the exception leaves [get_renders], which
    then returns no render at all. *)
Theorem unresolved_bundle_aborts_get_renders (env : Env) (app_names : list AppName)
    (source_types : list RenderType) (config : Config.t)
    (name : AppName) (app : App.t) (bundle : Bundle.t) (e : exn) :
  In (name, app) (Config.apps config) ->
  str_in name app_names = true ->
  In bundle (App.bundles app) ->
  Bundle.paths env bundle = Raises e \/ Bundle.urls env bundle = Raises e ->
  exists e', fst (get_renders env app_names source_types config) = Raises e'.
Proof.
  intros Hin Hreq Hb He.
  pose proof (BundleRenderer_collect_In _ _ _ _ _ Hin Hreq Hb) as Hc.
  destruct (render_bundle_raises env (Bundle.set_app_name name bundle) e He) as [e1 H1].
  unfold get_renders, bind, BundleRenderer.render.
  destruct (BundleRenderer.collect (Config.apps config) app_names) as [bs apps'].
  simpl in Hc. unfold extend_all.
  destruct (for_each_raises _ _ _ _ Hc H1) as [e' ->]. simpl. eauto.
Qed.

Lemma unresolved_bundle_aborts_get_renders_witness :
  exists e',
    fst (get_renders Scenario.env ["web"] ["bundle"]
           (Config.mk (Renderman.mk "1"
              [("web", App.mk true (Some []) [Bundle.mk "web" "static" None []] [])])))
    = Raises e'.
Proof.
  apply (unresolved_bundle_aborts_get_renders Scenario.env ["web"] ["bundle"] _
           "web" (App.mk true (Some []) [Bundle.mk "web" "static" None []] [])
           (Bundle.mk "web" "static" None [])
           (AttributeError "'NoneType' object has no attribute 'items'")).
  - left. reflexivity.
  - reflexivity.
  - left. reflexivity.
  - left. reflexivity.
Defined.

(** *** The document of a URL *)

Lemma lstrip_by_head (p : ascii -> bool) (s : string) (c : ascii) (rest : string) :
  lstrip_by p s = String c rest -> p c = false.
Proof.
  induction s as [|x s IH]; simpl; [discriminate|].
  destruct (p x) eqn:Hx; [exact IH|]. intros H. injection H as <- _. exact Hx.
Qed.

Lemma rstrip_by_head (p : ascii -> bool) (s : string) (c : ascii) (rest : string) :
  rstrip_by p s = String c rest -> exists rest', s = String c rest'.
Proof.
  destruct s as [|x s]; simpl; [discriminate|].
  destruct (rstrip_by p s); [destruct (p x); [discriminate|]|];
    intros H; injection H as <- _; eauto.
Qed.

Lemma rstrip_by_last (p : ascii -> bool) (s : string) (c : ascii) :
  p c = true -> endswith_char c (rstrip_by p s) = false.
Proof.
  intros Hc. induction s as [|x s IH]; simpl; [reflexivity|].
  destruct (rstrip_by p s) as [|y r] eqn:Hr.
  - destruct (p x) eqn:Hx; simpl; [reflexivity|].
    destruct (Ascii.eqb_spec x c) as [->|]; [congruence | reflexivity].
  - cbn [endswith_char]. exact IH.
Qed.

Lemma startswith_char (c : ascii) (s : string) :
  startswith (String c "") s = true -> exists rest, s = String c rest.
Proof.
  destruct s as [|x s]; simpl; [discriminate|].
  destruct (Ascii.eqb_spec c x) as [->|]; [eauto | discriminate].
Qed.

(** X3.  The document fetched from a URL never begins and never ends with a
    dash or a newline: the two calls after [strip] remove every leading and
    trailing character of the separator, not one separator line. *)
Theorem fetch_document_edges (env : Env) (url : URL) (document : Document) :
  fetch_document env url = Returns document ->
  startswith "-" document = false
  /\ startswith NL document = false
  /\ endswith_char "-" document = false
  /\ endswith_char (ascii_of_nat 10) document = false.
Proof.
  unfold fetch_document. destruct (requests_get env url) as [text|e]; [|discriminate].
  simpl. intros H. injection H as <-.
  unfold lstrip, rstrip.
  set (inner := lstrip_by _ (strip text)).
  assert (Hhead : forall c, char_in c (YAML_SEPARATOR +:+ NL) = true ->
                            startswith (String c "")
                              (rstrip_by (fun c => char_in c (NL +:+ YAML_SEPARATOR)) inner)
                            = false).
  { intros c Hc. destruct (startswith _ _) eqn:Hs; [|reflexivity].
    apply startswith_char in Hs as [rest Hs].
    apply rstrip_by_head in Hs as [rest' Hs].
    subst inner. apply lstrip_by_head in Hs. unfold YAML_SEPARATOR, NL in *. simpl in Hs, Hc. congruence. }
  repeat split.
  - apply (Hhead "-"%char). reflexivity.
  - apply (Hhead (ascii_of_nat 10)). reflexivity.
  - apply (rstrip_by_last (fun c => char_in c (NL +:+ YAML_SEPARATOR))). reflexivity.
  - apply (rstrip_by_last (fun c => char_in c (NL +:+ YAML_SEPARATOR))). reflexivity.
Qed.

Lemma fetch_document_edges_witness :
  startswith "-" "foo: bar" = false.
Proof.
  apply (fetch_document_edges Scenario.env_online Scenario.remote_url "foo: bar").
  reflexivity.
Defined.

(** *** Requests that match no app *)

Lemma BundleRenderer_collect_none items app_names :
  Forall (fun item => str_in (fst item) app_names = false) items ->
  BundleRenderer.collect items app_names = ([], items).
Proof.
  induction 1 as [|[name app] items Hn _ IH]; simpl; [reflexivity|].
  simpl in Hn. now rewrite IH, Hn.
Qed.

Lemma KustomizationRenderer_collect_none items app_names :
  Forall (fun item => str_in (fst item) app_names = false) items ->
  KustomizationRenderer.collect items app_names = ([], items).
Proof.
  induction 1 as [|[name app] items Hn _ IH]; simpl; [reflexivity|].
  simpl in Hn. now rewrite IH, Hn.
Qed.

Lemma ReleaseRenderer_collect_none items app_names :
  Forall (fun item => str_in (fst item) app_names = false) items ->
  ReleaseRenderer.collect items app_names = (Returns [], items).
Proof.
  induction 1 as [|[name app] items Hn _ IH]; simpl; [reflexivity|].
  simpl in Hn. now rewrite IH, Hn.
Qed.

(** X4.  When no key of [apps] is among the requested names, and so when no
    name is requested, [get_renders] returns no render, calls no
    collaborator and leaves the configuration as it was, also for apps
    whose [releases] is [None]. *)
Theorem get_renders_nothing_requested (env : Env) (app_names : list AppName)
    (source_types : list RenderType) (config : Config.t) :
  Forall (fun item => str_in (fst item) app_names = false) (Config.apps config) ->
  get_renders env app_names source_types config = (Returns [], config).
Proof.
  intros H. unfold get_renders, bind, ret, BundleRenderer.render,
    KustomizationRenderer.render, ReleaseRenderer.render.
  rewrite (BundleRenderer_collect_none _ _ H), with_apps_same. simpl.
  rewrite (KustomizationRenderer_collect_none _ _ H), with_apps_same. simpl.
  rewrite (ReleaseRenderer_collect_none _ _ H), with_apps_same. reflexivity.
Qed.

Lemma get_renders_nothing_requested_witness :
  get_renders Scenario.env [] ["bundle"] Scenario.config = (Returns [], Scenario.config).
Proof.
  apply (get_renders_nothing_requested Scenario.env [] ["bundle"] Scenario.config).
  repeat constructor.
Defined.

Lemma extend_all_Forall {A} (P : Render.t -> Prop) (f : A -> outcome (list Render.t))
    (xs : list A) (rs : list Render.t) :
  extend_all f xs = Returns rs ->
  (forall x ys, In x xs -> f x = Returns ys -> Forall P ys) ->
  Forall P rs.
Proof.
  unfold extend_all. destruct (for_each f xs) as [chunks|e] eqn:Hc; [|discriminate].
  simpl. intros H. injection H as <-. intros Hf.
  apply for_each_Forall2 in Hc.
  induction Hc as [|x ys xs chunks Hx _ IH]; simpl; [constructor|].
  apply Forall_app. split.
  - apply (Hf x ys); [now left | exact Hx].
  - apply IH. intros x' ys' Hin. apply Hf. now right.
Qed.

Lemma for_each_Forall2_eq {A A' B} (f : A -> outcome B) (g : A' -> outcome B)
    (l : list A) (l' : list A') :
  Forall2 (fun x y => f x = g y) l l' -> for_each f l = for_each g l'.
Proof.
  induction 1 as [|x y l l' Hxy _ IH]; simpl; [reflexivity|]. now rewrite Hxy, IH.
Qed.

Lemma extend_all_Forall2_eq {A} (f : A -> outcome (list Render.t)) (l l' : list A) :
  Forall2 (fun x y => f x = f y) l l' -> extend_all f l = extend_all f l'.
Proof. intros H. unfold extend_all. now rewrite (for_each_Forall2_eq f f l l' H). Qed.

Lemma render_bundle_alike env name b b' :
  bundle_alike b b' ->
  render_bundle env (Bundle.set_app_name name b)
  = render_bundle env (Bundle.set_app_name name b').
Proof. destruct b, b'. intros [H1 H2]. simpl in *. now subst. Qed.

Lemma render_kustomization_alike env name k k' :
  kustomization_alike k k' ->
  render_kustomization env (Kustomization.set_app_name name k)
  = render_kustomization env (Kustomization.set_app_name name k').
Proof. destruct k, k'. unfold kustomization_alike. simpl. now intros ->. Qed.

Lemma render_release_alike env name r r' :
  release_alike r r' ->
  render_release env (Release.set_app_name name r)
  = render_release env (Release.set_app_name name r').
Proof. destruct r, r'. unfold release_alike. simpl. now intros ->. Qed.

(** *** What [get_renders] renders *)

Lemma collect_iter_releases {D} (set_app_name : AppName -> D -> D) items app_names
    collected (objects : gmap Shared.ref D) :
  releases_missing items app_names = false ->
  Shared.collect set_app_name Shared.iter_releases items app_names collected objects
  = Shared.collect set_app_name (fun app => Returns (release_refs app)) items app_names
      collected objects.
Proof.
  revert collected objects. unfold releases_missing.
  induction items as [|[name app] items IH]; intros collected objects H; simpl in *.
  - reflexivity.
  - apply orb_false_iff in H as [H1 H2].
    destruct (str_in name app_names); simpl in *; [|now apply IH].
    unfold Shared.iter_releases, release_refs.
    destruct (Shared.App.releases app) as [listed|]; simpl in *; [|discriminate].
    destruct (Shared.visit set_app_name name listed collected objects).
    now apply IH.
Qed.

Lemma collect_releases_missing {D} (set_app_name : AppName -> D -> D) items app_names
    collected (objects : gmap Shared.ref D) :
  releases_missing items app_names = true ->
  fst (Shared.collect set_app_name Shared.iter_releases items app_names collected objects)
  = Raises (TypeError "'NoneType' object is not iterable").
Proof.
  revert collected objects. unfold releases_missing.
  induction items as [|[name app] items IH]; intros collected objects H; simpl in *.
  - discriminate.
  - destruct (str_in name app_names); simpl in *; [|now apply IH].
    unfold Shared.iter_releases.
    destruct (Shared.App.releases app) as [listed|]; simpl in *; [|reflexivity].
    destruct (Shared.visit set_app_name name listed collected objects).
    now apply IH.
Qed.

Lemma ReleaseRenderer_render_fst env config app_names source_types objects :
  fst (Shared.ReleaseRenderer.render env config app_names source_types objects)
  = if releases_missing (Shared.Config.apps config) app_names
    then Raises (TypeError "'NoneType' object is not iterable")
    else extend_all (render_release env)
           (described Release.set_app_name release_refs (Shared.Config.apps config)
                      app_names (Shared.release_at objects)).
Proof.
  unfold Shared.ReleaseRenderer.render.
  destruct (releases_missing (Shared.Config.apps config) app_names) eqn:Hm.
  - unfold Shared.render_with.
    pose proof (collect_releases_missing Release.set_app_name _ _ []
                  (Shared.release_at objects) Hm) as H.
    destruct (Shared.collect _ _ _ _ _ _) as [[collected|e] objects']; simpl in H;
      [discriminate|]. simpl. congruence.
  - rewrite <- (render_with_described Release.set_app_name release_refs Release_set_set).
    unfold Shared.render_with. rewrite (collect_iter_releases _ _ _ _ _ Hm).
    now destruct (Shared.collect _ _ _ _ _ _) as [[collected|e] objects'].
Qed.

Lemma BundleRenderer_render_fst env config app_names source_types objects :
  fst (Shared.BundleRenderer.render env config app_names source_types objects)
  = extend_all (render_bundle env)
      (described Bundle.set_app_name Shared.App.bundles (Shared.Config.apps config)
                 app_names (Shared.bundle_at objects)).
Proof.
  unfold Shared.BundleRenderer.render.
  rewrite <- (render_with_described Bundle.set_app_name Shared.App.bundles Bundle_set_set).
  now destruct (Shared.render_with _ _ _ _ _ _).
Qed.

Lemma KustomizationRenderer_render_fst env config app_names source_types objects :
  fst (Shared.KustomizationRenderer.render env config app_names source_types objects)
  = extend_all (render_kustomization env)
      (described Kustomization.set_app_name Shared.App.kustomizations
                 (Shared.Config.apps config) app_names
                 (Shared.kustomization_at objects)).
Proof.
  unfold Shared.KustomizationRenderer.render.
  rewrite <- (render_with_described Kustomization.set_app_name
                Shared.App.kustomizations Kustomization_set_set).
  now destruct (Shared.render_with _ _ _ _ _ _).
Qed.

Lemma get_renders_renders_described env config app_names source_types objects :
  fst (Shared.get_renders env config app_names source_types objects)
  = renders_described env config app_names objects.
Proof.
  unfold Shared.get_renders, bind, ret, renders_described.
  pose proof (BundleRenderer_render_fst env config app_names source_types objects) as F1.
  pose proof (BundleRenderer_render_snd env config app_names source_types objects) as S1.
  destruct (Shared.BundleRenderer.render env config app_names source_types objects)
    as [[b|e] o1]; simpl in F1, S1; rewrite <- F1; simpl; [|reflexivity].
  pose proof (KustomizationRenderer_render_fst env config app_names source_types o1) as F2.
  pose proof (KustomizationRenderer_render_snd env config app_names source_types o1) as S2.
  destruct (Shared.KustomizationRenderer.render env config app_names source_types o1)
    as [[k|e] o2]; simpl in F2, S2; subst o1; simpl in F2; rewrite <- F2; simpl;
    [|reflexivity].
  pose proof (ReleaseRenderer_render_fst env config app_names source_types o2) as F3.
  destruct (Shared.ReleaseRenderer.render env config app_names source_types o2)
    as [[r|e] o3]; simpl in F3; subst o2; simpl in F3; rewrite <- F3; reflexivity.
Qed.

(** X5.  [get_renders] renders the bundles, then the kustomizations, then the
    releases listed under the requested apps, in the order of the mapping and
    of the lists, one occurrence after the other; what is rendered for an
    occurrence is the object with, as [app_name], the key of the last
    requested app that lists the object, which is the key the occurrence is
    listed under unless the object is listed again under a later requested
    app.  Nothing is rendered for the releases when [releases] is [None] in a
    requested app. *)
Theorem get_renders_relabelled (env : Env) (config : Shared.Config.t)
    (app_names : list AppName) (source_types : list RenderType)
    (objects : Shared.Objects) :
  fst (Shared.get_renders env config app_names source_types objects)
  = renders_described env config app_names objects
  /\ forall listing r,
       In r (requested_refs listing (Shared.Config.apps config) app_names) ->
       exists name,
         last_listing listing (Shared.Config.apps config) app_names r = Some name
         /\ listed_under listing (Shared.Config.apps config) app_names r name.
Proof.
  split; [apply get_renders_renders_described|].
  intros listing r Hr.
  destruct (requested_refs_last_listing listing _ _ _ Hr) as [name Hname].
  exists name. split; [exact Hname|]. now apply last_listing_listed.
Qed.

Lemma get_renders_relabelled_witness :
  fst (Shared.get_renders Scenario.env Scenario.shared_config ["web"; "api"] ["bundle"]
         Scenario.shared_objects)
  = Returns [Render.mk "api" "bundle" "./a.yaml" (Some "kind: A") None;
             Render.mk "api" "bundle" "./a.yaml" (Some "kind: A") None]
  /\ exists name,
       last_listing Shared.App.bundles (Shared.Config.apps Scenario.shared_config)
                    ["web"; "api"] 0%nat = Some name
       /\ listed_under Shared.App.bundles (Shared.Config.apps Scenario.shared_config)
                       ["web"; "api"] 0%nat name.
Proof.
  split.
  - rewrite (proj1 (get_renders_relabelled Scenario.env Scenario.shared_config
                      ["web"; "api"] ["bundle"] Scenario.shared_objects)).
    vm_compute. reflexivity.
  - apply (proj2 (get_renders_relabelled Scenario.env Scenario.shared_config
                    ["web"; "api"] ["bundle"] Scenario.shared_objects)).
    simpl. now left.
Defined.

(** *** What the renderers read *)

Lemma omap_Forall2 {A B} (R : B -> B -> Prop) (f g : A -> option B) (l : list A) :
  (forall x, In x l -> option_Forall2 R (f x) (g x)) ->
  Forall2 R (omap f l) (omap g l).
Proof.
  induction l as [|x l IH]; intros H; [constructor|]. simpl.
  pose proof (H x (or_introl eq_refl)) as Hx.
  assert (Hl : Forall2 R (omap f l) (omap g l)).
  { apply IH. intros y Hy. apply H. now right. }
  destruct Hx; [constructor|]; assumption.
Qed.

Section DescribedAlike.
Context {D : Type} (set_app_name : AppName -> D -> D) (alike : D -> D -> Prop).
Context (render_one : D -> outcome (list Render.t)).
Context (listing : Shared.App.t -> list Shared.ref).
Hypothesis render_alike : forall name x y,
  alike x y -> render_one (set_app_name name x) = render_one (set_app_name name y).

Lemma requested_refs_alike (items items' : Shared.Apps) app_names :
  Forall2 (fun item item' =>
             fst item' = fst item /\ listing (snd item') = listing (snd item))
          items items' ->
  requested_refs listing items' app_names = requested_refs listing items app_names
  /\ forall r, last_listing listing items' app_names r
               = last_listing listing items app_names r.
Proof.
  unfold requested_refs.
  induction 1 as [|[name app] [name' app'] items items' [Hk Hl] _ [IH1 IH2]]; simpl.
  - split; reflexivity.
  - simpl in Hk, Hl. subst name'. rewrite Hl, IH1. split; [reflexivity|].
    intros r. now rewrite IH2.
Qed.

Lemma described_alike (items items' : Shared.Apps) app_names
    (objects objects' : gmap Shared.ref D) :
  Forall2 (fun item item' =>
             fst item' = fst item /\ listing (snd item') = listing (snd item))
          items items' ->
  (forall r, option_Forall2 alike (objects !! r) (objects' !! r)) ->
  extend_all render_one (described set_app_name listing items app_names objects)
  = extend_all render_one (described set_app_name listing items' app_names objects').
Proof.
  intros Hitems Hobjects.
  destruct (requested_refs_alike _ _ app_names Hitems) as [Hrefs Hlast].
  unfold described. rewrite Hrefs.
  apply extend_all_Forall2_eq, omap_Forall2. intros r Hr.
  unfold relabelled. rewrite Hlast.
  destruct (requested_refs_last_listing listing _ _ _ Hr) as [name ->].
  destruct (Hobjects r); simpl; constructor. now apply render_alike.
Qed.
End DescribedAlike.

Lemma releases_missing_alike (items items' : Shared.Apps) app_names :
  Forall2 (fun item item' =>
             fst item' = fst item
             /\ Shared.App.releases (snd item') = Shared.App.releases (snd item))
          items items' ->
  releases_missing items' app_names = releases_missing items app_names.
Proof.
  unfold releases_missing.
  induction 1 as [|[name app] [name' app'] items items' [Hk Hl] _ IH]; simpl;
    [reflexivity|].
  simpl in Hk, Hl. subst name'. now rewrite Hl, IH.
Qed.

(** X6.  The outcome of [get_renders] depends on nothing but the keys of
    [apps], the lists of the apps, and, of the objects, the [data] and
    [sources] of the bundles, the [source] of the kustomizations and the
    [helmfile] of the releases: the [enabled] flag, the names of the
    descriptors, the chart of a release and the [app_name] the objects were
    loaded with are never read. *)
Theorem get_renders_reads (env : Env) (config config' : Shared.Config.t)
    (app_names : list AppName) (source_types source_types' : list RenderType)
    (objects objects' : Shared.Objects) :
  listings_alike config config' ->
  objects_alike objects objects' ->
  fst (Shared.get_renders env config app_names source_types objects)
  = fst (Shared.get_renders env config' app_names source_types' objects').
Proof.
  unfold listings_alike. intros Hl Ho.
  rewrite !get_renders_renders_described. unfold renders_described.
  rewrite (described_alike Bundle.set_app_name bundle_alike (render_bundle env)
             Shared.App.bundles (render_bundle_alike env)
             _ (Shared.Config.apps config') app_names _ (Shared.bundle_at objects')).
  2: { eapply Forall2_impl; [exact Hl|]. intros ? ? (? & ? & ? & ?). auto. }
  2: { intros r. apply Ho. }
  rewrite (described_alike Kustomization.set_app_name kustomization_alike
             (render_kustomization env) Shared.App.kustomizations
             (render_kustomization_alike env)
             _ (Shared.Config.apps config') app_names _
             (Shared.kustomization_at objects')).
  2: { eapply Forall2_impl; [exact Hl|]. intros ? ? (? & ? & ? & ?). auto. }
  2: { intros r. apply Ho. }
  rewrite (described_alike Release.set_app_name release_alike
             (render_release env) release_refs (render_release_alike env)
             _ (Shared.Config.apps config') app_names _ (Shared.release_at objects')).
  2: { eapply Forall2_impl; [exact Hl|]. intros ? ? (? & ? & ? & Hr).
       unfold release_refs. rewrite Hr. auto. }
  2: { intros r. apply Ho. }
  rewrite (releases_missing_alike (Shared.Config.apps config)
             (Shared.Config.apps config') app_names); [reflexivity|].
  eapply Forall2_impl; [exact Hl|]. intros ? ? (? & ? & ? & ?). auto.
Qed.

Lemma get_renders_reads_witness :
  fst (Shared.get_renders Scenario.env Scenario.web_config ["web"] ["bundle"]
         Scenario.web_objects)
  = fst (Shared.get_renders Scenario.env
           (Shared.Config.mk "2" [("web", Shared.App.mk false (Some []) [0%nat] [])])
           ["web"] ["release"]
           (Shared.mk_objects
              {[ 0%nat := Bundle.mk "frontend" "other" (Some [])
                                    ["./a.yaml"; Scenario.remote_url] ]} ∅ ∅)).
Proof.
  apply (get_renders_reads Scenario.env Scenario.web_config).
  - repeat constructor.
  - intros r. repeat split; simpl; rewrite ?lookup_empty; try constructor.
    destruct (decide (r = 0%nat)) as [->|Hne].
    + rewrite !lookup_singleton_eq. repeat constructor.
    + rewrite !lookup_singleton_ne by congruence. constructor.
Defined.

(* ------------------------------------------------------------------------- *)
(** ** More on grouping                                                        *)
(* ------------------------------------------------------------------------- *)

Lemma filter_all {A} (P : A -> Prop) `{!forall x, Decision (P x)} (l : list A) :
  (forall x, P x) -> filter P l = l.
Proof.
  intros Hall. induction l as [|x l IH]; [reflexivity|].
  rewrite filter_cons_True by apply Hall. now rewrite IH.
Qed.

Lemma group_append_keys key document grouped :
  map fst (group_append key document grouped)
  = if bool_decide (key ∈ map fst grouped) then map fst grouped
    else map fst grouped ++ [key].
Proof.
  induction grouped as [|[k ds] grouped IH]; simpl.
  - reflexivity.
  - destruct (bool_decide (k = key)) eqn:Hk.
    + apply bool_decide_eq_true in Hk as ->. simpl.
      rewrite bool_decide_eq_true_2; [reflexivity | apply list_elem_of_here].
    + apply bool_decide_eq_false in Hk. simpl. rewrite IH.
      destruct (bool_decide (key ∈ map fst grouped)) eqn:Hin.
      * apply bool_decide_eq_true in Hin.
        rewrite bool_decide_eq_true_2; [reflexivity | now apply list_elem_of_further].
      * apply bool_decide_eq_false in Hin.
        rewrite bool_decide_eq_false_2; [reflexivity|].
        intros H. apply elem_of_cons in H as [->|H]; auto.
Qed.

Lemma group_append_group_of key key' document grouped :
  group_of key' (group_append key document grouped)
  = if bool_decide (key = key') then group_of key grouped ++ [document]
    else group_of key' grouped.
Proof.
  induction grouped as [|[k ds] grouped IH]; simpl.
  - destruct (bool_decide (key = key')); reflexivity.
  - destruct (bool_decide (k = key)) eqn:Hk; simpl.
    + apply bool_decide_eq_true in Hk as ->.
      destruct (bool_decide (key = key')); reflexivity.
    + apply bool_decide_eq_false in Hk.
      destruct (bool_decide (k = key')) eqn:Hk'.
      * apply bool_decide_eq_true in Hk' as ->.
        rewrite bool_decide_eq_false_2; [reflexivity | congruence].
      * exact IH.
Qed.

Lemma grouped_from_keys grouped renders :
  map fst (grouped_from grouped renders)
  = map fst grouped
    ++ filter (fun k => k ∉ map fst grouped) (first_seen (map render_key renders)).
Proof.
  revert grouped. induction renders as [|r renders IH]; intros grouped; simpl.
  - now rewrite app_nil_r.
  - unfold grouped_from in *. simpl. rewrite IH, group_append_keys.
    fold (render_key r).
    destruct (bool_decide (render_key r ∈ map fst grouped)) eqn:Hin.
    + apply bool_decide_eq_true in Hin.
      rewrite filter_cons_False by (intros H; now apply H).
      f_equal. rewrite list_filter_filter. apply list_filter_iff.
      intros k. split; [intros H; split; [exact H | congruence] | now intros []].
    + apply bool_decide_eq_false in Hin.
      rewrite filter_cons_True by exact Hin.
      rewrite <- app_assoc. simpl. do 2 f_equal.
      rewrite list_filter_filter. apply list_filter_iff.
      intros k. rewrite elem_of_app, list_elem_of_singleton. tauto.
Qed.

Lemma first_seen_NoDup keys : NoDup (first_seen keys).
Proof.
  induction keys as [|k keys IH]; simpl; constructor.
  - rewrite list_elem_of_filter. now intros [H _].
  - now apply NoDup_filter.
Qed.

Lemma first_seen_elem_of keys k : k ∈ first_seen keys <-> k ∈ keys.
Proof.
  induction keys as [|k' keys IH]; simpl; [reflexivity|].
  rewrite !elem_of_cons, list_elem_of_filter, IH.
  destruct (decide (k = k')); tauto.
Qed.

Lemma grouped_from_group_of grouped renders key :
  group_of key (grouped_from grouped renders)
  = group_of key grouped
    ++ map document_value (filter (fun r => render_key r = key) renders).
Proof.
  revert grouped. induction renders as [|r renders IH]; intros grouped; simpl.
  - now rewrite app_nil_r.
  - unfold grouped_from in *. simpl. rewrite IH, group_append_group_of.
    fold (render_key r). rewrite filter_cons.
    destruct (decide (render_key r = key)) as [->|Hne].
    + rewrite bool_decide_eq_true_2 by reflexivity. now rewrite <- app_assoc.
    + now rewrite bool_decide_eq_false_2 by exact Hne.
Qed.

Lemma group_of_In grouped key documents :
  NoDup (map fst grouped) -> In (key, documents) grouped ->
  group_of key grouped = documents.
Proof.
  induction grouped as [|[k ds] grouped IH]; simpl; [contradiction|].
  intros Hnd [E|Hin].
  - injection E as -> ->. now rewrite bool_decide_eq_true_2.
  - apply NoDup_cons in Hnd as [Hk Hnd].
    rewrite bool_decide_eq_false_2; [now apply IH|].
    intros ->. apply Hk, list_elem_of_In, in_map_iff. now exists (key, documents).
Qed.

Lemma get_manifests_keys renders :
  map manifest_key (get_manifests renders) = first_seen (map render_key renders).
Proof.
  unfold get_manifests. fold (grouped_from [] renders).
  rewrite map_map. unfold manifest_key. simpl.
  transitivity (map fst (grouped_from [] renders)).
  - apply map_ext. now intros [[a s] ds].
  - rewrite grouped_from_keys. simpl. apply filter_all.
    intros k. apply not_elem_of_nil.
Qed.

(** X7.  [get_manifests] builds one manifest per key (app name, source type)
    that occurs among the renders, in the order in which the keys are first
    seen, and none when there is no render. *)
Theorem get_manifests_first_seen (renders : list Render.t) :
  map manifest_key (get_manifests renders) = first_seen (map render_key renders)
  /\ NoDup (map manifest_key (get_manifests renders))
  /\ (forall key, key ∈ map manifest_key (get_manifests renders)
                  <-> key ∈ map render_key renders)
  /\ (renders = [] <-> get_manifests renders = []).
Proof.
  pose proof (get_manifests_keys renders) as Hkeys.
  split; [exact Hkeys|]. rewrite Hkeys.
  split; [apply first_seen_NoDup|]. split; [apply first_seen_elem_of|].
  split; [now intros ->|].
  intros H. rewrite H in Hkeys. destruct renders; [reflexivity | discriminate].
Qed.

Lemma get_manifests_group_of (renders : list Render.t) (m : Manifest.t) :
  In m (get_manifests renders) ->
  Manifest.renders m
  = map document_value (filter (fun r => render_key r = manifest_key m) renders)
  /\ Manifest.renders m <> [].
Proof.
  intros Hin.
  assert (Hnd : NoDup (map fst (grouped_from [] renders))).
  { rewrite grouped_from_keys. simpl. apply NoDup_filter, first_seen_NoDup. }
  unfold get_manifests in Hin. fold (grouped_from [] renders) in Hin.
  apply in_map_iff in Hin as ([[a s] ds] & <- & Hin). simpl.
  pose proof (group_of_In _ _ _ Hnd Hin) as Hg.
  rewrite grouped_from_group_of in Hg. simpl in Hg.
  unfold manifest_key. simpl. split; [now rewrite Hg|].
  rewrite <- Hg.
  assert (Hkey : (a, s) ∈ map render_key renders).
  { apply first_seen_elem_of.
    rewrite <- get_manifests_keys. unfold get_manifests.
    fold (grouped_from [] renders). rewrite map_map.
    apply list_elem_of_In, in_map_iff. now exists (a, s, ds). }
  apply list_elem_of_In, in_map_iff in Hkey as (r & Hr & Hrin).
  intros Hnil. apply map_eq_nil in Hnil.
  assert (Hf : r ∈ filter (fun r => render_key r = (a, s)) renders).
  { apply list_elem_of_filter. split; [exact Hr | now apply list_elem_of_In]. }
  rewrite Hnil in Hf. now apply not_elem_of_nil in Hf.
Qed.

(** X8.  The list of a manifest built by [get_manifests] holds, in render
    order, the [document] attribute of every render with the key of the
    manifest, failed renders included as [None]; it is never empty and
    holds no render. *)
Theorem get_manifests_group (renders : list Render.t) (m : Manifest.t) :
  In m (get_manifests renders) ->
  Manifest.renders m
  = map document_value (filter (fun r => render_key r = manifest_key m) renders)
  /\ Manifest.renders m <> [].
Proof. apply get_manifests_group_of. Qed.

Lemma get_manifests_group_witness :
  Manifest.renders (Manifest.mk "web" "bundle" [VStr "kind: A"; VNone])
  = map document_value
        (filter (fun r => render_key r = ("web", "bundle"))
                [Scenario.render_a; Scenario.render_b]).
Proof.
  apply (get_manifests_group [Scenario.render_a; Scenario.render_b]
           (Manifest.mk "web" "bundle" [VStr "kind: A"; VNone])).
  left. reflexivity.
Defined.

Lemma sections_of_document_values (rs : list Render.t) :
  rs <> [] -> exists msg, Manifest.sections (map document_value rs) = Raises (AttributeError msg).
Proof.
  destruct rs as [|r rs]; [congruence|]. intros _. simpl.
  unfold document_value. destruct (Render.document r); simpl; eauto.
Qed.

Lemma get_manifests_unreadable (renders : list Render.t) (m : Manifest.t) :
  In m (get_manifests renders) ->
  exists msg, Manifest.sections (Manifest.renders m) = Raises (AttributeError msg).
Proof.
  intros Hin. destruct (get_manifests_group_of _ _ Hin) as [Hr Hne].
  rewrite Hr. apply sections_of_document_values.
  intros E. apply Hne. now rewrite Hr, E.
Qed.

(** X9.  No manifest built by [get_manifests] has a readable document: its
    list holds strings and [None], so [Manifest.document] raises
    [AttributeError] on the first of them and [Manifest.save] never
    returns. *)
Theorem get_manifests_document_raises (renders : list Render.t) (m : Manifest.t) :
  In m (get_manifests renders) ->
  (exists msg, Manifest.document m = Raises (AttributeError msg))
  /\ (forall output_dir fs, exists e, fst (save m output_dir fs) = Raises e).
Proof.
  intros Hin. destruct (get_manifests_unreadable _ _ Hin) as [msg Hsec].
  split; [exists msg; unfold Manifest.document; now rewrite Hsec|].
  intros output_dir fs. unfold save, bind, lift.
  destruct (FS.makedirs _ _ fs) as [[[]|e] fs1]; [|eauto].
  destruct (FS.open_w _ fs1) as [[[]|e] fs2]; [|eauto].
  rewrite Hsec. eauto.
Qed.

Lemma get_manifests_document_raises_witness :
  exists msg,
    Manifest.document (Manifest.mk "web" "bundle" [VStr "kind: A"; VNone])
    = Raises (AttributeError msg).
Proof.
  apply (get_manifests_document_raises [Scenario.render_a; Scenario.render_b]
           (Manifest.mk "web" "bundle" [VStr "kind: A"; VNone])).
  left. reflexivity.
Defined.

(* ------------------------------------------------------------------------- *)
(** ** More on reconciliation                                                  *)
(* ------------------------------------------------------------------------- *)

Lemma save_manifests_paths manifests output_dir fs paths fs' :
  save_manifests manifests output_dir fs = (Returns paths, fs') ->
  paths = map (fun m => Manifest.file_path m output_dir) manifests.
Proof.
  unfold save_manifests. revert fs fs' paths.
  induction manifests as [|m ms IH]; intros fs fs' paths H; simpl in H.
  - unfold ret in H. now injection H as <- _.
  - unfold bind at 1 in H.
    destruct (save m output_dir fs) as [[p|e] fs1] eqn:Hs; [|discriminate].
    apply save_content in Hs as (_ & _ & -> & _).
    unfold bind in H.
    destruct (for_each_eff _ ms fs1) as [[ps|e] fs2] eqn:Hrest; [|discriminate].
    unfold ret in H. injection H as <- _. simpl. f_equal. exact (IH _ _ _ Hrest).
Qed.

Lemma sorted_insert_Permutation x l : sorted_insert x l ≡ₚ x :: l.
Proof.
  induction l as [|y l IH]; simpl; [reflexivity|].
  destruct (String.leb x y); [reflexivity|].
  rewrite IH. apply Permutation_swap.
Qed.

Lemma sorted_Permutation l : sorted l ≡ₚ l.
Proof.
  induction l as [|x l IH]; simpl; [reflexivity|].
  unfold sorted in *. simpl. now rewrite sorted_insert_Permutation, IH.
Qed.

Lemma sorted_insert_Sorted x l :
  Sorted (fun a b => String.leb a b = true) l ->
  Sorted (fun a b => String.leb a b = true) (sorted_insert x l).
Proof.
  induction 1 as [|y l Hl IH Hhd]; simpl; [repeat constructor|].
  destruct (String.leb x y) eqn:Hxy.
  - constructor; [now constructor | now constructor].
  - constructor; [exact IH|].
    assert (Hyx : String.leb y x = true).
    { destruct (String.leb_total x y) as [H|H]; [congruence | exact H]. }
    destruct l as [|z l]; simpl; [now constructor|].
    destruct (String.leb x z); constructor; [exact Hyx|].
    now inversion Hhd.
Qed.

Lemma sorted_Sorted l : Sorted (fun a b => String.leb a b = true) (sorted l).
Proof.
  induction l as [|x l IH]; [constructor|].
  unfold sorted in *. simpl. now apply sorted_insert_Sorted.
Qed.

(** X10.  When [update_manifests] returns, it returns the file paths of the
    manifests below the output directory, one per manifest (a path written
    twice is listed twice), in ascending order of their code points. *)
Theorem update_manifests_paths (staging_dir : Path) (manifests : list Manifest.t)
    (output_dir : Path) (fs fs' : FS.t) (paths : list Path) :
  update_manifests staging_dir manifests output_dir fs = (Returns paths, fs') ->
  paths = sorted (map (fun m => Manifest.file_path m output_dir) manifests)
  /\ paths ≡ₚ map (fun m => Manifest.file_path m output_dir) manifests
  /\ Sorted (fun a b => String.leb a b = true) paths.
Proof.
  unfold update_manifests. unfold bind at 1.
  destruct (FS.TemporaryDirectory _ _ fs) as [[ps0|e] fs1]; [|discriminate].
  unfold bind at 1, modify. unfold bind at 1.
  destruct (FS.makedirs output_dir false _) as [[[]|e] fs2]; [|discriminate].
  unfold bind at 1.
  destruct (save_manifests manifests output_dir fs2) as [[ps|e] fs3] eqn:Hs; [|discriminate].
  unfold bind, modify, ret. intros H. injection H as <- _.
  apply save_manifests_paths in Hs as ->.
  split; [reflexivity|]. split; [apply sorted_Permutation | apply sorted_Sorted].
Qed.

Lemma update_manifests_paths_witness :
  ["out/web/bundle.manifest.yaml"]
  = sorted (map (fun m => Manifest.file_path m "out") [Scenario.manifest_web]).
Proof.
  apply (update_manifests_paths "/tmp/tmpa" [Scenario.manifest_web] "out" Scenario.fs_tmp
           (snd (update_manifests "/tmp/tmpa" [Scenario.manifest_web] "out" Scenario.fs_tmp))).
  vm_compute. reflexivity.
Defined.

(** *** The place of a manifest *)

Lemma append_inj_r (a b t : string) : a +:+ t = b +:+ t -> a = b.
Proof.
  revert b. induction a as [|x a IH]; intros [|y b] H; simpl in H.
  - reflexivity.
  - apply (f_equal String.length) in H. simpl in H. rewrite append_length in H. lia.
  - apply (f_equal String.length) in H. simpl in H. rewrite append_length in H. lia.
  - injection H as -> H. f_equal. now apply IH.
Qed.

Lemma split_at_sep (a b x y : string) :
  char_in sep a = false -> char_in sep b = false ->
  a +:+ "/" +:+ x = b +:+ "/" +:+ y -> a = b /\ x = y.
Proof.
  revert b. induction a as [|c a IH]; intros [|d b] Ha Hb H; simpl in *.
  - injection H as ->. auto.
  - injection H as <- _. apply orb_false_elim in Hb as [Hb _].
    unfold sep in Hb. now rewrite Ascii.eqb_refl in Hb.
  - injection H as -> _. apply orb_false_elim in Ha as [Ha _].
    unfold sep in Ha. now rewrite Ascii.eqb_refl in Ha.
  - injection H as -> H. apply orb_false_elim in Ha as [_ Ha].
    apply orb_false_elim in Hb as [_ Hb].
    destruct (IH b Ha Hb H) as [-> ->]. auto.
Qed.

Lemma plain_manifest_spec m :
  plain_manifest m = true ->
  char_in sep (Manifest.app_name m) = false
  /\ Manifest.app_name m <> ""
  /\ char_in sep (Manifest.source_type m) = false.
Proof.
  unfold plain_manifest, plain_name. intros Hm.
  repeat (apply andb_prop in Hm as [Hm ?]).
  repeat match goal with H : negb _ = true |- _ => apply negb_true_iff in H end.
  repeat split; try assumption.
  intros E. rewrite E in *. discriminate.
Qed.

Lemma file_path_plain_inj (m1 m2 : Manifest.t) (output_dir : Path) :
  plain_manifest m1 = true -> plain_manifest m2 = true ->
  output_dir <> "" -> endswith_char sep output_dir = false ->
  Manifest.file_path m1 output_dir = Manifest.file_path m2 output_dir ->
  manifest_key m1 = manifest_key m2.
Proof.
  intros H1 H2 Hd Hend.
  destruct (file_path_plain m1 output_dir H1 Hd Hend) as (-> & _).
  destruct (file_path_plain m2 output_dir H2 Hd Hend) as (-> & _).
  destruct (plain_manifest_spec _ H1) as (Ha1 & _ & _).
  destruct (plain_manifest_spec _ H2) as (Ha2 & _ & _).
  rewrite !append_assoc. intros H.
  apply String.app_inj in H. apply (String.app_inj "/") in H.
  apply split_at_sep in H as [Happ Hfile]; [|assumption|assumption].
  apply append_inj_r in Hfile. unfold manifest_key. congruence.
Qed.

(** X11.  Below an output directory named without a trailing separator,
    manifests with plain names are written to the same file exactly when
    they have the same app name and source type: manifests of different
    keys never overwrite each other. *)
Theorem file_path_injective (m1 m2 : Manifest.t) (output_dir : Path) :
  plain_manifest m1 = true -> plain_manifest m2 = true ->
  output_dir <> "" -> endswith_char sep output_dir = false ->
  Manifest.file_path m1 output_dir = Manifest.file_path m2 output_dir
  <-> manifest_key m1 = manifest_key m2.
Proof.
  intros H1 H2 Hd Hend. split; [now apply file_path_plain_inj|].
  unfold manifest_key, Manifest.file_path. now intros [= -> ->].
Qed.

Lemma file_path_injective_witness :
  Manifest.file_path Scenario.manifest_web "out"
  <> Manifest.file_path (Manifest.mk "web" "release" []) "out"
  /\ Manifest.file_path Scenario.manifest_web "out"
     = Manifest.file_path (Manifest.mk "web" "bundle" []) "out".
Proof.
  split.
  - intros H.
    apply (file_path_injective Scenario.manifest_web (Manifest.mk "web" "release" [])
             "out") in H; try reflexivity; discriminate.
  - apply (file_path_injective Scenario.manifest_web (Manifest.mk "web" "bundle" [])
             "out"); try reflexivity; discriminate.
Defined.

(** *** One [save] below an existing directory *)

Lemma makedirs_one name head tail exist_ok fs :
  path_split name = (head, tail) -> tail <> "" ->
  head = "" \/ FS.exists_ fs head = true ->
  FS.makedirs name exist_ok fs
  = match FS.mkdir name fs with
    | (Raises e, fs'') =>
        if exist_ok && FS.isdir fs'' name then (Returns tt, fs'') else (Raises e, fs'')
    | done => done
    end.
Proof.
  intros Hsplit Htail Hhead. unfold FS.makedirs. cbn [FS.makedirs_rec].
  rewrite Hsplit. destruct tail as [|c t]; [congruence|].
  destruct head as [|c' h]; [reflexivity|].
  destruct Hhead as [Hhead|Hhead]; [discriminate|]. now rewrite Hhead.
Qed.

Lemma save_plain_Returns m d fs p fs' :
  plain_manifest m = true -> d <> "" -> endswith_char sep d = false ->
  fs !! d = Some Dir ->
  save m d fs = (Returns p, fs') ->
  exists doc fs1,
    Manifest.document m = Returns doc
    /\ (fs1 = fs \/ (fs !! app_dir m d = None /\ fs1 = <[app_dir m d := Dir]> fs))
    /\ fs' = <[Manifest.file_path m d := File doc]> fs1.
Proof.
  intros Hm Hne Hend Hd.
  destruct (file_path_plain m d Hm Hne Hend) as (_ & Hdirname & Hsplit & Happ).
  unfold save, bind, lift, ret, FS.write, modify. rewrite Hdirname.
  fold (app_dir m d) in Hsplit |- *.
  rewrite (makedirs_one _ _ _ true fs Hsplit Happ)
    by (right; unfold FS.exists_; rewrite Hd; apply orb_true_r).
  assert (Hmk : exists r fs1,
             match FS.mkdir (app_dir m d) fs with
             | (Raises e, fs'') =>
                 if true && FS.isdir fs'' (app_dir m d) then (Returns tt, fs'')
                 else (Raises e, fs'')
             | done => done
             end = (r, fs1)
             /\ (fs1 = fs \/ (fs !! app_dir m d = None /\ fs1 = <[app_dir m d := Dir]> fs))).
  { destruct (mkdir_cases (app_dir m d) fs) as [[e ->]|[Hnone ->]].
    - destruct (true && FS.isdir fs (app_dir m d)); eauto.
    - eauto 6. }
  destruct Hmk as (r & fs1 & -> & Hfs1).
  destruct r as [[]|e]; [|discriminate].
  destruct (open_w_cases (Manifest.file_path m d) fs1) as [[e ->]|[_ ->]]; [discriminate|].
  unfold Manifest.document.
  destruct (Manifest.sections (Manifest.renders m)) as [sections|e]; [|discriminate].
  simpl. intros H. injection H as _ <-.
  exists (join Manifest.separator sections), fs1.
  split; [reflexivity|]. split; [exact Hfs1|]. apply insert_insert_eq.
Qed.

Section SaveManifests.
Variables (d : Path).
Hypothesis d_nonempty : d <> "".
Hypothesis d_no_sep : endswith_char sep d = false.

(** An entry that is not the file of a manifest is left as it is. *)
Lemma save_manifests_keeps_entry manifests fs paths fs' q x :
  forallb plain_manifest manifests = true ->
  fs !! d = Some Dir ->
  save_manifests manifests d fs = (Returns paths, fs') ->
  fs !! q = Some x ->
  (forall m, In m manifests -> q <> Manifest.file_path m d) ->
  fs' !! q = Some x.
Proof.
  unfold save_manifests. revert fs paths.
  induction manifests as [|m ms IH]; intros fs paths Hms Hd H Hq Hne; simpl in H.
  - unfold ret in H. injection H as _ <-. exact Hq.
  - simpl in Hms. apply andb_prop in Hms as [Hm Hms].
    unfold bind at 1 in H.
    pose proof (save_keeps_dirs m d fs d Hd) as Hd1.
    destruct (save m d fs) as [[p|e] fs1] eqn:Hs; [|discriminate].
    simpl in Hd1.
    destruct (save_plain_Returns _ _ _ _ _ Hm d_nonempty d_no_sep Hd Hs)
      as (doc & fs0 & _ & Hfs0 & ->).
    unfold bind in H.
    destruct (for_each_eff _ ms _) as [[ps|e] fs2] eqn:Hrest; [|discriminate].
    unfold ret in H. injection H as _ <-.
    apply (IH _ _ Hms Hd1 Hrest); [|intros m' Hin; apply Hne; now right].
    rewrite lookup_insert_ne by (apply not_eq_sym, Hne; now left).
    destruct Hfs0 as [->|[Hnone ->]]; [exact Hq|].
    rewrite lookup_insert_ne; [exact Hq | congruence].
Qed.

(** Every entry there is after [save_manifests] was there before or is
    the directory or the file of a manifest. *)
Lemma save_manifests_entries manifests fs paths fs' q :
  forallb plain_manifest manifests = true ->
  fs !! d = Some Dir ->
  save_manifests manifests d fs = (Returns paths, fs') ->
  fs' !! q <> None ->
  fs !! q <> None \/ made_by manifests d q.
Proof.
  unfold save_manifests. revert fs paths.
  induction manifests as [|m ms IH]; intros fs paths Hms Hd H Hq; simpl in H.
  - unfold ret in H. injection H as _ <-. now left.
  - simpl in Hms. apply andb_prop in Hms as [Hm Hms].
    unfold bind at 1 in H.
    pose proof (save_keeps_dirs m d fs d Hd) as Hd1.
    destruct (save m d fs) as [[p|e] fs1] eqn:Hs; [|discriminate].
    simpl in Hd1.
    destruct (save_plain_Returns _ _ _ _ _ Hm d_nonempty d_no_sep Hd Hs)
      as (doc & fs0 & _ & Hfs0 & ->).
    unfold bind in H.
    destruct (for_each_eff _ ms _) as [[ps|e] fs2] eqn:Hrest; [|discriminate].
    unfold ret in H. injection H as _ <-.
    destruct (IH _ _ Hms Hd1 Hrest Hq) as [Hq1|(m' & Hin & Hm')].
    + destruct (decide (q = Manifest.file_path m d)) as [->|Hne1].
      { right. exists m. split; [now left | now right]. }
      rewrite lookup_insert_ne in Hq1 by congruence.
      destruct Hfs0 as [->|[Hnone ->]]; [now left|].
      destruct (decide (q = app_dir m d)) as [->|Hne2].
      { right. exists m. split; [now left | now left]. }
      rewrite lookup_insert_ne in Hq1 by congruence. now left.
    + right. exists m'. split; [now right | exact Hm'].
Qed.

(** With one manifest per key, the file of each manifest holds its
    document after [save_manifests]. *)
Lemma save_manifests_written manifests fs paths fs' :
  forallb plain_manifest manifests = true ->
  NoDup (map manifest_key manifests) ->
  fs !! d = Some Dir ->
  save_manifests manifests d fs = (Returns paths, fs') ->
  forall m, In m manifests ->
            exists doc, Manifest.document m = Returns doc
                        /\ fs' !! Manifest.file_path m d = Some (File doc).
Proof.
  revert fs paths.
  induction manifests as [|m ms IH]; intros fs paths Hms Hnd Hd H m0 Hin;
    [contradiction|].
  pose proof Hms as Hms0.
  simpl in Hms. apply andb_prop in Hms as [Hm Hms].
  simpl in Hnd. apply NoDup_cons in Hnd as [Hfresh Hnd].
  unfold save_manifests in H. simpl in H. unfold bind at 1 in H.
  pose proof (save_keeps_dirs m d fs d Hd) as Hd1.
  destruct (save m d fs) as [[p|e] fs1] eqn:Hs; [|discriminate].
  simpl in Hd1.
  destruct (save_plain_Returns _ _ _ _ _ Hm d_nonempty d_no_sep Hd Hs)
    as (doc & fs0 & Hdoc & Hfs0 & ->).
  unfold bind in H.
  destruct (for_each_eff _ ms _) as [[ps|e] fs2] eqn:Hrest; [|discriminate].
  unfold ret in H. injection H as _ <-.
  destruct Hin as [<-|Hin].
  - exists doc. split; [exact Hdoc|].
    apply (save_manifests_keeps_entry ms _ ps _ _ _ Hms Hd1 Hrest).
    + apply lookup_insert_eq.
    + intros m' Hin' Heq. apply Hfresh.
      apply (file_path_plain_inj _ _ _ Hm) in Heq; try assumption.
      * rewrite Heq. apply list_elem_of_In, in_map. exact Hin'.
      * rewrite forallb_forall in Hms. now apply Hms.
  - apply (IH _ _ Hms Hnd Hd1 Hrest _ Hin).
Qed.
End SaveManifests.

(** *** [update_manifests] *)

Lemma startswith_length (a b : string) :
  startswith a b = true -> (String.length a <= String.length b)%nat.
Proof.
  revert b. induction a as [|x a IH]; intros [|y b]; simpl; try lia; try discriminate.
  intros H. apply andb_prop in H as [_ H]. apply IH in H. lia.
Qed.

Lemma within_shorter (d q : Path) :
  (String.length q < String.length d)%nat -> FS.within d q = false.
Proof.
  intros Hlen. unfold FS.within. apply orb_false_intro.
  - apply String.eqb_neq. intros ->. lia.
  - destruct (startswith (d +:+ "/") q) eqn:H; [|reflexivity].
    apply startswith_length in H. rewrite append_length in H. simpl in H. lia.
Qed.

Lemma rmtree_outside d fs q : FS.within d q = false -> FS.rmtree d fs !! q = fs !! q.
Proof.
  intros Hq. unfold FS.rmtree. destruct (fs !! d) as [[|x]|]; try reflexivity.
  destruct (fs !! q) as [y|] eqn:Hy.
  - apply map_lookup_filter_Some. split; [exact Hy | exact Hq].
  - apply map_lookup_filter_None. now left.
Qed.

Lemma rmtree_inside d fs q :
  fs !! d = Some Dir -> FS.within d q = true -> FS.rmtree d fs !! q = None.
Proof.
  intros Hd Hq. unfold FS.rmtree. rewrite Hd.
  apply map_lookup_filter_None. right. intros x _. simpl. congruence.
Qed.

Lemma update_ready_spec fs staging_dir manifests output_dir :
  update_ready fs staging_dir manifests output_dir = true ->
  forallb plain_manifest manifests = true
  /\ fresh_dir fs staging_dir = true
  /\ FS.within output_dir staging_dir = false
  /\ output_dir <> ""
  /\ endswith_char sep output_dir = false
  /\ exists head tail,
      path_split output_dir = (head, tail) /\ tail <> ""
      /\ FS.within output_dir head = false
      /\ (head = "" \/ FS.exists_ fs head = true).
Proof.
  unfold update_ready, parent_exists. intros H.
  repeat (apply andb_prop in H as [H ?]).
  repeat match goal with H : negb _ = true |- _ => apply negb_true_iff in H end.
  repeat split; try assumption.
  - intros ->. discriminate.
  - destruct (path_split output_dir) as [head tail] eqn:Hsplit.
    match goal with H : _ && _ = true |- _ => apply andb_prop in H as [Ht Hh] end.
    apply negb_true_iff, String.eqb_neq in Ht.
    exists head, tail. repeat split; try assumption.
    + apply within_shorter. apply path_split_length in Hsplit.
      destruct tail; [congruence | simpl in Hsplit; lia].
    + apply orb_prop in Hh as [Hh|Hh]; [left; now apply String.eqb_eq | now right].
Qed.

(** The run of an [update_manifests] that is ready, stage by stage: the
    staging pass gives back the file system; then either [makedirs] raises
    on the cleared output directory, or the manifests are saved into the
    output directory made anew, and the staging directory has not come
    back. *)
Lemma update_manifests_run staging_dir manifests output_dir fs :
  update_ready fs staging_dir manifests output_dir = true ->
  let cleared := FS.rmtree output_dir fs in
  let base := <[output_dir := Dir]> cleared in
  (exists e,
      fst (FS.TemporaryDirectory staging_dir (save_manifests manifests staging_dir) fs)
        = Raises e
      /\ update_manifests staging_dir manifests output_dir fs = (Raises e, fs))
  \/ (exists e,
        FS.mkdir output_dir cleared = (Raises e, cleared)
        /\ update_manifests staging_dir manifests output_dir fs = (Raises e, cleared))
  \/ (cleared !! output_dir = None
      /\ staged output_dir cleared (snd (save_manifests manifests output_dir base))
      /\ update_manifests staging_dir manifests output_dir fs
         = (match fst (save_manifests manifests output_dir base) with
            | Returns paths => Returns (sorted paths)
            | Raises e => Raises e
            end,
            snd (save_manifests manifests output_dir base))).
Proof.
  intros Hready cleared base.
  destruct (update_ready_spec _ _ _ _ Hready)
    as (Hms & Hfresh & Hstg & Hne & Hend & head & tail & Hsplit & Htail & Hhead_out & Hhead).
  remember (update_manifests staging_dir manifests output_dir fs) as result eqn:Hres.
  unfold update_manifests in Hres. unfold bind at 1 in Hres.
  pose proof (TemporaryDirectory_restores staging_dir manifests fs Hms Hfresh) as Ht.
  destruct (FS.TemporaryDirectory _ _ fs) as [[ps0|e] fs1]; simpl in Ht; subst fs1;
    [|left; exists e; split; [reflexivity | exact Hres]].
  unfold bind at 1, modify in Hres. fold cleared in Hres. unfold bind at 1 in Hres.
  assert (Hhead' : head = "" \/ FS.exists_ cleared head = true).
  { destruct Hhead as [->|Hh]; [now left | right].
    unfold FS.exists_ in *. unfold cleared. now rewrite rmtree_outside. }
  rewrite (makedirs_one _ _ _ false cleared Hsplit Htail Hhead') in Hres.
  destruct (mkdir_cases output_dir cleared) as [[e He]|[Hnone He]]; rewrite He in Hres;
    [right; left; simpl in Hres; eauto|].
  right; right. split; [exact Hnone|]. fold base in Hres.
  assert (Hbase : staged output_dir cleared base).
  { split; [apply lookup_insert_eq|]. intros q Hq. apply lookup_insert_ne.
    intros <-. now rewrite within_self in Hq. }
  pose proof (save_manifests_staged manifests output_dir cleared base Hms Hne Hend Hbase)
    as Hst.
  split; [exact Hst|].
  unfold bind at 1 in Hres.
  destruct (save_manifests manifests output_dir base) as [[ps|e] fs3]; [|exact Hres].
  simpl in Hst |- *. unfold bind, modify, ret in Hres. rewrite Hres. f_equal.
  apply rmtree_absent. destruct Hst as [_ Hout].
  rewrite (Hout _ Hstg). unfold cleared. rewrite rmtree_outside by exact Hstg.
  destruct (fresh_dir_spec _ _ Hfresh) as (_ & _ & Hnone').
  apply Hnone', within_self.
Qed.

(** X12.  On a settled file system, an [update_manifests] that is ready
    changes nothing outside the output directory, whether it returns or
    raises: every entry that is neither the output directory nor below it is
    after the call what it was before, and the staging directory is gone. *)
Theorem update_manifests_frame (staging_dir : Path) (manifests : list Manifest.t)
    (output_dir : Path) (fs : FS.t) :
  settled fs staging_dir output_dir = true ->
  update_ready fs staging_dir manifests output_dir = true ->
  forall q, FS.within output_dir q = false ->
            snd (update_manifests staging_dir manifests output_dir fs) !! q = fs !! q.
Proof.
  intros _ Hready q Hq.
  destruct (update_manifests_run _ _ _ _ Hready)
    as [(e & _ & ->)|[(e & _ & ->)|(_ & [_ Hst] & ->)]]; simpl.
  - reflexivity.
  - now apply rmtree_outside.
  - rewrite (Hst _ Hq). now apply rmtree_outside.
Qed.

Lemma update_manifests_frame_witness :
  snd (update_manifests "/tmp/tmpa" [Scenario.manifest_web] "/out" Scenario.fs_out) !! "/tmp"
  = Scenario.fs_out !! "/tmp".
Proof.
  apply (update_manifests_frame "/tmp/tmpa" [Scenario.manifest_web] "/out" Scenario.fs_out);
    vm_compute; reflexivity.
Defined.

(** X13.  When an [update_manifests] that is ready returns for manifests
    with distinct keys, every manifest has a document and the file of the
    manifest holds it. *)
Theorem update_manifests_written (staging_dir : Path) (manifests : list Manifest.t)
    (output_dir : Path) (fs fs' : FS.t) (paths : list Path) :
  update_ready fs staging_dir manifests output_dir = true ->
  NoDup (map manifest_key manifests) ->
  update_manifests staging_dir manifests output_dir fs = (Returns paths, fs') ->
  forall m, In m manifests ->
            exists doc, Manifest.document m = Returns doc
                        /\ fs' !! Manifest.file_path m output_dir = Some (File doc).
Proof.
  intros Hready Hnd H.
  destruct (update_ready_spec _ _ _ _ Hready) as (Hms & _ & _ & Hne & Hend & _).
  destruct (update_manifests_run _ _ _ _ Hready)
    as [(e & _ & He)|[(e & _ & He)|(_ & _ & He)]]; rewrite He in H; try discriminate.
  destruct (save_manifests manifests output_dir _) as [[ps|e] fs3] eqn:Hs;
    [|discriminate].
  simpl in H. injection H as _ <-.
  eapply (save_manifests_written output_dir Hne Hend manifests _ ps fs3 Hms Hnd);
    [apply lookup_insert_eq | exact Hs].
Qed.

Lemma update_manifests_written_witness :
  exists doc,
    Manifest.document Scenario.manifest_web = Returns doc
    /\ snd (update_manifests "/tmp/tmpa" [Scenario.manifest_web] "/out" Scenario.fs_out)
         !! Manifest.file_path Scenario.manifest_web "/out" = Some (File doc).
Proof.
  apply (update_manifests_written "/tmp/tmpa" [Scenario.manifest_web] "/out" Scenario.fs_out
           (snd (update_manifests "/tmp/tmpa" [Scenario.manifest_web] "/out" Scenario.fs_out))
           ["/out/web/bundle.manifest.yaml"]).
  - vm_compute; reflexivity.
  - repeat constructor. apply not_elem_of_nil.
  - vm_compute; reflexivity.
  - left. reflexivity.
Defined.

(** X14.  When an [update_manifests] that is ready returns on an output
    directory that existed, nothing of the old content is left: the output
    directory is a directory, and every entry below it is the directory of
    an app or the file of a manifest. *)
Theorem update_manifests_no_stale (staging_dir : Path) (manifests : list Manifest.t)
    (output_dir : Path) (fs fs' : FS.t) (paths : list Path) :
  update_ready fs staging_dir manifests output_dir = true ->
  fs !! output_dir = Some Dir ->
  update_manifests staging_dir manifests output_dir fs = (Returns paths, fs') ->
  fs' !! output_dir = Some Dir
  /\ forall q, FS.within output_dir q = true -> q <> output_dir -> fs' !! q <> None ->
               made_by manifests output_dir q.
Proof.
  intros Hready Hdir H.
  destruct (update_ready_spec _ _ _ _ Hready) as (Hms & _ & _ & Hne & Hend & _).
  destruct (update_manifests_run _ _ _ _ Hready)
    as [(e & _ & He)|[(e & _ & He)|(_ & [Hst _] & He)]]; rewrite He in H; try discriminate.
  destruct (save_manifests manifests output_dir _) as [[ps|e] fs3] eqn:Hs;
    [|discriminate].
  simpl in H, Hst. injection H as _ <-. split; [exact Hst|].
  intros q Hq Hqne Hsome.
  destruct (save_manifests_entries output_dir Hne Hend manifests _ ps fs3 q Hms
              (lookup_insert_eq _ _ _) Hs Hsome) as [Hold|Hmade]; [|exact Hmade].
  rewrite lookup_insert_ne in Hold by congruence.
  now rewrite (rmtree_inside _ _ _ Hdir Hq) in Hold.
Qed.

Lemma update_manifests_no_stale_witness :
  snd (update_manifests "/tmp/tmpa" [Scenario.manifest_web] "/out"
         (<["/out/old.yaml" := File "stale"]> Scenario.fs_out)) !! "/out" = Some Dir.
Proof.
  apply (update_manifests_no_stale "/tmp/tmpa" [Scenario.manifest_web] "/out"
           (<["/out/old.yaml" := File "stale"]> Scenario.fs_out)
           (snd (update_manifests "/tmp/tmpa" [Scenario.manifest_web] "/out"
                   (<["/out/old.yaml" := File "stale"]> Scenario.fs_out)))
           ["/out/web/bundle.manifest.yaml"]); vm_compute; reflexivity.
Defined.

(** X15.  When the output path is a regular file, an [update_manifests]
    that is ready never returns: [rmtree] leaves the file, [makedirs]
    raises on it, and the file system is as it was. *)
Theorem update_manifests_on_file (staging_dir : Path) (manifests : list Manifest.t)
    (output_dir : Path) (fs : FS.t) (content : string) :
  update_ready fs staging_dir manifests output_dir = true ->
  fs !! output_dir = Some (File content) ->
  exists e, update_manifests staging_dir manifests output_dir fs = (Raises e, fs).
Proof.
  intros Hready Hfile.
  assert (Hcleared : FS.rmtree output_dir fs = fs).
  { unfold FS.rmtree. now rewrite Hfile. }
  destruct (update_manifests_run _ _ _ _ Hready)
    as [(e & _ & He)|[(e & _ & He)|(Hnone & _)]].
  - eauto.
  - rewrite Hcleared in He. eauto.
  - rewrite Hcleared in Hnone. congruence.
Qed.

Lemma update_manifests_on_file_witness :
  exists e,
    update_manifests "/tmp/tmpa" [Scenario.manifest_web] "/out"
                     (<["/out" := File "x"]> Scenario.fs_tmp)
    = (Raises e, <["/out" := File "x"]> Scenario.fs_tmp).
Proof.
  apply (update_manifests_on_file "/tmp/tmpa" [Scenario.manifest_web] "/out"
           (<["/out" := File "x"]> Scenario.fs_tmp) "x"); vm_compute; reflexivity.
Defined.

(* ------------------------------------------------------------------------- *)
(** ** Listing the outputs                                                     *)
(* ------------------------------------------------------------------------- *)

Lemma app_outputs_Raises app_names category_names item e :
  app_outputs app_names category_names item = Raises e ->
  e = AttributeError "'Release' object has no attribute 'name'".
Proof.
  destruct item as [name app]. unfold app_outputs.
  destruct (str_in name app_names && App.enabled app); [discriminate|].
  destruct (App.releases app) as [[|r rs]|]; simpl; try discriminate.
  destruct (str_in "release" category_names); simpl; [|discriminate].
  now intros [= <-].
Qed.

Lemma for_each_first_raise {A B} (f : A -> outcome B) (l : list A) (e : exn) :
  for_each f l = Raises e -> exists x, In x l /\ f x = Raises e.
Proof.
  induction l as [|x l IH]; simpl; [discriminate|].
  destruct (f x) as [y|e1] eqn:Hx; simpl.
  - destruct (for_each f l) as [ys|e2]; simpl; [discriminate|].
    intros [= <-]. destruct (IH eq_refl) as (x' & Hin & Hx'). eauto.
  - intros [= <-]. eauto.
Qed.

(** X16.  [get_outputs] skips the apps that are requested and enabled: every
    path it lists is that of a descriptor of an app that is not requested
    or not enabled, and it lists nothing (and does not raise) when every app
    is requested and enabled. *)
Theorem get_outputs_skips_requested (config : Config.t) (app_names : list AppName)
    (category_names : list RenderType) :
  (forall outputs p,
      get_outputs config app_names category_names = Returns outputs ->
      In p outputs ->
      exists name app file_name,
        In (name, app) (Config.apps config)
        /\ (str_in name app_names = false \/ App.enabled app = false)
        /\ p = path_join name [file_name])
  /\ (Forall (fun item => str_in (fst item) app_names = true
                          /\ App.enabled (snd item) = true) (Config.apps config) ->
      get_outputs config app_names category_names = Returns []).
Proof.
  unfold get_outputs. split.
  - intros outputs p H Hp.
    destruct (for_each _ (Config.apps config)) as [chunks|e] eqn:Hc; [|discriminate].
    simpl in H. injection H as <-.
    apply for_each_Forall2 in Hc.
    induction Hc as [|[name app] chunk items chunks Hitem _ IH]; simpl in Hp;
      [contradiction|].
    apply in_app_or in Hp as [Hp|Hp].
    + exists name, app. unfold app_outputs in Hitem.
      destruct (str_in name app_names && App.enabled app) eqn:Hskip.
      { injection Hitem as <-. contradiction. }
      apply andb_false_iff in Hskip.
      destruct (match App.releases app with
                | Some (r :: rs) => _
                | _ => Returns []
                end) as [release_outputs|e] eqn:Hrel; [|discriminate].
      simpl in Hitem. injection Hitem as <-.
      assert (Hfile : exists file_name, p = path_join name [file_name]).
      { apply in_app_or in Hp as [Hp|Hp]; [|apply in_app_or in Hp as [Hp|Hp]].
        - destruct (App.bundles app); [contradiction|].
          destruct (str_in "bundle" category_names); [|contradiction].
          apply in_map_iff in Hp as (f & <- & _). eauto.
        - destruct (App.kustomizations app); [contradiction|].
          destruct (str_in "kustomization" category_names); [|contradiction].
          apply in_map_iff in Hp as (f & <- & _). eauto.
        - destruct (App.releases app) as [[|r rs]|]; simpl in Hrel;
            try (injection Hrel as <-; contradiction).
          destruct (str_in "release" category_names); simpl in Hrel; [discriminate|].
          injection Hrel as <-. contradiction. }
      destruct Hfile as [file_name ->]. exists file_name.
      split; [now left|]. split; [tauto | reflexivity].
    + destruct (IH Hp) as (n & a & f & Hin & Hwhy & ->).
      exists n, a, f. split; [now right | auto].
  - intros Hall.
    assert (Hc : for_each (app_outputs app_names category_names) (Config.apps config)
                 = Returns (map (fun _ => []) (Config.apps config))).
    { induction Hall as [|[name app] items [Hreq Hen] _ IH]; simpl in *; [reflexivity|].
      rewrite Hreq, Hen. simpl. now rewrite IH. }
    rewrite Hc. simpl. f_equal. clear.
    induction (Config.apps config); simpl; auto.
Qed.

Lemma get_outputs_skips_requested_witness :
  get_outputs Scenario.config ["web"] ["bundle"; "release"] = Returns [].
Proof.
  apply (proj2 (get_outputs_skips_requested Scenario.config ["web"] ["bundle"; "release"])).
  repeat constructor.
Defined.

(** X17.  When the category [release] is asked for and an app that is not
    skipped declares a release, [get_outputs] raises [AttributeError]: it
    reads the attribute [name], which a [Release] does not have.  It raises
    nothing else. *)
Theorem get_outputs_release_raises (config : Config.t) (app_names : list AppName)
    (category_names : list RenderType) :
  (forall name app r rs,
      In (name, app) (Config.apps config) ->
      str_in name app_names && App.enabled app = false ->
      str_in "release" category_names = true ->
      App.releases app = Some (r :: rs) ->
      get_outputs config app_names category_names
      = Raises (AttributeError "'Release' object has no attribute 'name'"))
  /\ (forall e,
        get_outputs config app_names category_names = Raises e ->
        e = AttributeError "'Release' object has no attribute 'name'"
        /\ str_in "release" category_names = true).
Proof.
  assert (Honly : forall e,
             get_outputs config app_names category_names = Raises e ->
             e = AttributeError "'Release' object has no attribute 'name'"
             /\ str_in "release" category_names = true).
  { unfold get_outputs. intros e H.
    destruct (for_each _ (Config.apps config)) as [chunks|e'] eqn:Hc; [discriminate|].
    simpl in H. injection H as ->.
    apply for_each_first_raise in Hc as ([name app] & _ & Hx).
    split; [now apply app_outputs_Raises in Hx|].
    unfold app_outputs in Hx.
    destruct (str_in name app_names && App.enabled app); [discriminate|].
    destruct (App.releases app) as [[|r rs]|]; simpl in Hx; try discriminate.
    now destruct (str_in "release" category_names). }
  split; [|exact Honly].
  intros name app r rs Hin Hskip Hcat Hrel.
  assert (Hitem : app_outputs app_names category_names (name, app)
                  = Raises (AttributeError "'Release' object has no attribute 'name'")).
  { unfold app_outputs. rewrite Hskip, Hrel, Hcat. reflexivity. }
  destruct (for_each_raises _ _ _ _ Hin Hitem) as [e' He'].
  destruct (Honly e') as [-> _]; unfold get_outputs; now rewrite He'.
Qed.

Lemma get_outputs_release_raises_witness :
  get_outputs
    (Config.mk (Renderman.mk "1"
       [("db", App.mk false (Some [Release.mk "db" "pg" "postgresql" "15.0" None]) [] [])]))
    ["db"] ["release"]
  = Raises (AttributeError "'Release' object has no attribute 'name'").
Proof.
  apply (proj1 (get_outputs_release_raises _ ["db"] ["release"])
           "db" (App.mk false (Some [Release.mk "db" "pg" "postgresql" "15.0" None]) [] [])
           (Release.mk "db" "pg" "postgresql" "15.0" None) []);
    [left|..]; reflexivity.
Defined.

(* ------------------------------------------------------------------------- *)
(** ** Initialization                                                          *)
(* ------------------------------------------------------------------------- *)

Lemma filter_nil_Forall {A} (P : A -> Prop) `{!forall x, Decision (P x)} (l : list A) :
  filter P l = [] -> Forall (fun x => ~ P x) l.
Proof.
  induction l as [|x l IH]; [constructor|]. rewrite filter_cons.
  destruct (decide (P x)); [discriminate|]. intros Hnil. constructor; auto.
Qed.

(** X18.  [initialize] returns a configuration only if the Python version is
    at least 3.12, the four external tools are found and the configuration
    file loads; it then has set the flags from its arguments, with
    [SOURCE_DIR] the directory of the configuration file.  The flags are
    left alone when the version or the tools are refused, and they are set
    all the same when the configuration fails to load. *)
Theorem initialize_outcome {C} (host : Host C) (config_file : string)
    (quiet debug skip_helm_repo_update : bool) (flags : Flags) :
  let set := {| flag_DEBUG := debug; flag_QUIET := quiet;
                flag_SKIP_HELM_REPO_UPDATE := skip_helm_repo_update;
                flag_SOURCE_DIR := dirname config_file |} in
  let result := initialize host config_file quiet debug skip_helm_repo_update flags in
  (forall config,
      fst result = Loaded config ->
      version_too_old (version_info host) = false
      /\ Forall (fun tool => which host tool = true) EXTERNAL_TOOLS
      /\ load_config host config_file = inl config
      /\ snd result = set)
  /\ (version_too_old (version_info host) = true
      \/ Exists (fun tool => which host tool = false) EXTERNAL_TOOLS ->
      exists msg, result = (RuntimeError msg, flags))
  /\ (version_too_old (version_info host) = false ->
      Forall (fun tool => which host tool = true) EXTERNAL_TOOLS ->
      forall e, load_config host config_file = inr e ->
                result = (RuntimeError ("Error loading config file " +:+ config_file
                                          +:+ ": " +:+ e), set)).
Proof.
  intros set result. subst result. unfold initialize.
  destruct (version_too_old (version_info host)) eqn:Hv.
  { split; [discriminate|]. split; [eauto | discriminate]. }
  destruct (filter (fun tool => which host tool = false) EXTERNAL_TOOLS)
    as [|tool missing] eqn:Hmissing.
  - apply filter_nil_Forall in Hmissing.
    assert (Hall : Forall (fun tool => which host tool = true) EXTERNAL_TOOLS).
    { eapply Forall_impl; [exact Hmissing|]. intros t Ht. simpl in Ht.
      now destruct (which host t). }
    split; [|split].
    + intros config H. destruct (load_config host config_file) as [c|e]; [|discriminate].
      simpl in H. injection H as <-. auto.
    + intros [H|H]; [discriminate|]. exfalso.
      apply Exists_exists in H as (t & Hin & Ht).
      rewrite Forall_forall in Hall. rewrite (Hall t Hin) in Ht. discriminate.
    + intros _ _ e ->. reflexivity.
  - split; [discriminate|]. split; [eauto|].
    intros _ Hall. exfalso.
    assert (Hin : tool ∈ filter (fun tool => which host tool = false) EXTERNAL_TOOLS)
      by (rewrite Hmissing; apply list_elem_of_here).
    apply list_elem_of_filter in Hin as [Ht Hin].
    rewrite Forall_forall in Hall. rewrite (Hall tool Hin) in Ht. discriminate.
Qed.

Lemma initialize_outcome_witness :
  exists msg,
    initialize {| version_info := (3, 12)%nat;
                  which := fun tool => negb (String.eqb tool "helm");
                  load_config := fun _ => inl Scenario.config |}
               "deploy/renderman.yaml" false false false
               {| flag_DEBUG := true; flag_QUIET := true;
                  flag_SKIP_HELM_REPO_UPDATE := true; flag_SOURCE_DIR := "old" |}
    = (RuntimeError msg,
       {| flag_DEBUG := true; flag_QUIET := true;
          flag_SKIP_HELM_REPO_UPDATE := true; flag_SOURCE_DIR := "old" |}).
Proof.
  apply (initialize_outcome
           {| version_info := (3, 12)%nat;
              which := fun tool => negb (String.eqb tool "helm");
              load_config := fun _ => inl Scenario.config |}).
  right. apply Exists_cons_tl, Exists_cons_hd. reflexivity.
Defined.

Lemma initialize_source_dir {C} (host : Host C) (config_file : string)
    (quiet debug skip_helm_repo_update : bool) (flags : Flags) (config : C)
    (flags' : Flags) :
  initialize host config_file quiet debug skip_helm_repo_update flags
    = (Loaded config, flags') ->
  flag_SOURCE_DIR flags' = dirname config_file.
Proof.
  unfold initialize.
  destruct (version_too_old (version_info host)); [discriminate|].
  destruct (filter _ EXTERNAL_TOOLS); [|discriminate].
  destruct (load_config host config_file); [|discriminate].
  now intros [= _ <-].
Qed.

(** X19.  After an [initialize] that returns for a configuration file
    [dir/name], a release without [helmfile] is rendered from
    [dir/helmfile.yaml], the file beside the configuration file, and its
    render carries that path as source. *)
Theorem initialize_then_render_release {C} (host : Host C) (dir name : string)
    (quiet debug skip_helm_repo_update : bool) (flags flags' : Flags) (config : C)
    (env : Env) (release : Release.t) :
  dir <> "" -> endswith_char sep dir = false -> char_in sep name = false ->
  initialize host (dir +:+ "/" +:+ name) quiet debug skip_helm_repo_update flags
    = (Loaded config, flags') ->
  Release.helmfile release = None ->
  exists r,
    render_release (env_with_flags flags' env) release = Returns [r]
    /\ Render.source r = dir +:+ "/" +:+ "helmfile.yaml"
    /\ Render.app_name r = Release.app_name release.
Proof.
  intros Hdir Hend Hname Hinit Hhelm.
  pose proof (initialize_source_dir host (dir +:+ "/" +:+ name) quiet debug
                skip_helm_repo_update flags config flags' Hinit) as Hflags.
  unfold render_release. rewrite Hhelm. eexists. split; [reflexivity|].
  rewrite render_of_source. split; [|apply render_of_labels].
  simpl. rewrite Hflags. unfold dirname.
  rewrite (path_split_append _ _ Hdir Hend Hname). simpl.
  now apply join2_plain.
Qed.

Lemma initialize_then_render_release_witness :
  exists r,
    render_release
      (env_with_flags {| flag_DEBUG := false; flag_QUIET := false;
                         flag_SKIP_HELM_REPO_UPDATE := false;
                         flag_SOURCE_DIR := "deploy" |} Scenario.env)
      (Release.mk "db" "pg" "postgresql" "15.0" None)
    = Returns [r]
    /\ Render.source r = "deploy" +:+ "/" +:+ "helmfile.yaml"
    /\ Render.app_name r = "db".
Proof.
  apply (initialize_then_render_release
           {| version_info := (3, 12)%nat; which := fun _ => true;
              load_config := fun _ => inl Scenario.config |}
           "deploy" "renderman.yaml" false false false
           {| flag_DEBUG := true; flag_QUIET := true;
              flag_SKIP_HELM_REPO_UPDATE := true; flag_SOURCE_DIR := "old" |}
           _ Scenario.config); try reflexivity; discriminate.
Defined.

(** *** When [update_manifests] returns *)

Lemma mkdir_Returns p fs :
  p <> "" -> FS.exists_ fs p = false -> FS.parent_isdir fs p = true ->
  FS.mkdir p fs = (Returns tt, <[p := Dir]> fs).
Proof.
  intros Hp He Hd. unfold FS.mkdir. destruct p; [congruence|]. now rewrite He, Hd.
Qed.

Lemma open_w_Returns p fs :
  p <> "" -> fs !! p <> Some Dir -> FS.is_root p = false ->
  FS.parent_isdir fs p = true ->
  FS.open_w p fs = (Returns tt, <[p := File ""]> fs).
Proof.
  intros Hp Hnd Hr Hd. unfold FS.open_w. destruct p as [|c p]; [congruence|].
  destruct (fs !! String c p) as [[|x]|]; [congruence| |]; now rewrite Hr, Hd.
Qed.

Lemma only_seps_endswith s : s <> "" -> only_seps s = true -> endswith_char sep s = true.
Proof.
  induction s as [|c s IH]; [congruence|]. intros _ H. simpl in H.
  apply andb_prop in H as [Hc Hs]. destruct s as [|c' s]; [exact Hc|].
  cbn [endswith_char]. apply IH; [discriminate | exact Hs].
Qed.

Lemma is_root_no_sep_end s : endswith_char sep s = false -> FS.is_root s = false.
Proof.
  intros H. unfold FS.is_root. destruct s as [|c s]; [reflexivity|].
  destruct (only_seps (String c s)) eqn:Ho; [|reflexivity].
  apply only_seps_endswith in Ho; [congruence | discriminate].
Qed.

Lemma endswith_plain x y :
  y <> "" -> char_in sep y = false -> endswith_char sep (x +:+ "/" +:+ y) = false.
Proof.
  intros Hy Hs. rewrite <- append_assoc, endswith_char_append by exact Hy.
  now apply endswith_char_absent.
Qed.

Lemma dirname_append x y :
  x <> "" -> endswith_char sep x = false -> char_in sep y = false ->
  dirname (x +:+ "/" +:+ y) = x.
Proof. intros. unfold dirname. now rewrite path_split_append. Qed.

Lemma parent_isdir_below fs x y :
  x <> "" -> endswith_char sep x = false -> char_in sep y = false ->
  fs !! x = Some Dir -> FS.parent_isdir fs (x +:+ "/" +:+ y) = true.
Proof.
  intros Hx Hend Hy Hd. unfold FS.parent_isdir. rewrite dirname_append by assumption.
  destruct x; [congruence|]. unfold FS.isdir. rewrite Hd.
  rewrite bool_decide_eq_true_2 by reflexivity. apply orb_true_r.
Qed.

Lemma tidy_insert_dir d fs app :
  char_in sep app = false -> app <> "" -> tidy d fs ->
  tidy d (<[d +:+ "/" +:+ app := Dir]> fs).
Proof.
  intros Happ Hne [Hd Hbelow]. split.
  - rewrite lookup_insert_ne; [exact Hd|]. apply append_ne_self. discriminate.
  - intros q x Hq Hqd Hx.
    destruct (decide (q = d +:+ "/" +:+ app)) as [->|Hneq].
    + rewrite lookup_insert_eq in Hx. injection Hx as <-. left. eauto.
    + rewrite lookup_insert_ne in Hx by congruence. eauto.
Qed.

Lemma tidy_insert_file d fs app file content :
  char_in sep app = false -> tidy d fs ->
  tidy d (<[d +:+ "/" +:+ app +:+ "/" +:+ file := File content]> fs).
Proof.
  intros Happ [Hd Hbelow]. split.
  - rewrite lookup_insert_ne; [exact Hd|]. apply append_ne_self. discriminate.
  - intros q x Hq Hqd Hx.
    destruct (decide (q = d +:+ "/" +:+ app +:+ "/" +:+ file)) as [->|Hneq].
    + rewrite lookup_insert_eq in Hx. injection Hx as <-. right. eauto 6.
    + rewrite lookup_insert_ne in Hx by congruence. eauto.
Qed.

Lemma save_tidy m d fs doc :
  plain_manifest m = true -> d <> "" -> endswith_char sep d = false ->
  tidy d fs -> Manifest.document m = Returns doc ->
  exists p fs', save m d fs = (Returns p, fs') /\ tidy d fs'.
Proof.
  intros Hm Hne Hend Htidy Hdoc.
  destruct (file_path_plain m d Hm Hne Hend) as (Hpath & Hdirname & Hsplit & Happ).
  destruct (plain_manifest_spec _ Hm) as (Hsep & _ & Hst).
  pose proof Htidy as [Hd Hbelow].
  assert (Hfile : char_in sep (Manifest.source_type m +:+ ".manifest.yaml") = false).
  { rewrite char_in_append. apply orb_false_intro; [exact Hst | reflexivity]. }
  fold (app_dir m d) in Hpath, Hdirname, Hsplit.
  assert (Hadir_ne : app_dir m d <> "") by (unfold app_dir; now destruct d).
  assert (Hadir_end : endswith_char sep (app_dir m d) = false)
    by (now apply endswith_plain).
  (* the directory of the app *)
  assert (Hmk : exists fs1,
             FS.makedirs (app_dir m d) true fs = (Returns tt, fs1)
             /\ tidy d fs1 /\ fs1 !! app_dir m d = Some Dir).
  { rewrite (makedirs_one _ _ _ true fs Hsplit Happ)
      by (right; unfold FS.exists_; rewrite Hd; apply orb_true_r).
    destruct (fs !! app_dir m d) as [x|] eqn:Hx.
    - assert (Hdir : x = Dir).
      { assert (Hqd : app_dir m d <> d) by (apply append_ne_self; discriminate).
        destruct (Hbelow _ _ (within_below d _) Hqd Hx)
          as [[-> _]|(c & app & file & _ & Happ' & Heq)]; [reflexivity|].
        unfold app_dir in Heq. apply String.app_inj, (String.app_inj "/") in Heq.
        rewrite Heq, char_in_append in Hsep. simpl in Hsep.
        apply orb_false_elim in Hsep as [_ Hsep]. discriminate. }
      subst x.
      destruct (mkdir_cases (app_dir m d) fs) as [[e ->]|[Hnone _]]; [|congruence].
      unfold FS.isdir. rewrite Hx, bool_decide_eq_true_2 by reflexivity.
      rewrite orb_true_r. simpl. eauto.
    - rewrite mkdir_Returns.
      + eexists. split; [reflexivity|]. split; [now apply tidy_insert_dir|].
        apply lookup_insert_eq.
      + exact Hadir_ne.
      + unfold FS.exists_. rewrite (is_root_no_sep_end _ Hadir_end), Hx.
        now rewrite bool_decide_eq_false_2 by (intros [? ?]; discriminate).
      + now apply parent_isdir_below. }
  destruct Hmk as (fs1 & Hmk & Htidy1 & Hadir).
  pose proof Htidy1 as [_ Hbelow1].
  unfold save, bind, lift, ret, FS.write, modify. rewrite Hdirname, Hmk.
  assert (Hpath' : Manifest.file_path m d
                   = d +:+ "/" +:+ Manifest.app_name m +:+ "/"
                       +:+ Manifest.source_type m +:+ ".manifest.yaml").
  { rewrite Hpath. unfold app_dir. now rewrite !append_assoc. }
  rewrite open_w_Returns.
  - unfold Manifest.document in Hdoc.
    destruct (Manifest.sections (Manifest.renders m)) as [sections|e]; [|discriminate].
    do 2 eexists. split; [reflexivity|].
    rewrite insert_insert_eq, Hpath'. now apply tidy_insert_file.
  - rewrite Hpath. now destruct (app_dir m d).
  - intros Hx. rewrite Hpath' in Hx.
    assert (Hqd : d +:+ "/" +:+ Manifest.app_name m +:+ "/"
                    +:+ Manifest.source_type m +:+ ".manifest.yaml" <> d)
      by (apply append_ne_self; discriminate).
    destruct (Hbelow1 _ _ (within_below d _) Hqd Hx)
      as [(_ & app & Happ' & Heq)|(c & app & file & Hc & _)]; [|discriminate].
    apply String.app_inj, (String.app_inj "/") in Heq.
    rewrite <- Heq, char_in_append in Happ'. simpl in Happ'.
    apply orb_false_elim in Happ' as [_ Happ']. discriminate.
  - apply is_root_no_sep_end. rewrite Hpath. now apply endswith_plain;
      [destruct (Manifest.source_type m)|].
  - rewrite Hpath. now apply parent_isdir_below.
Qed.

Lemma save_manifests_tidy manifests d fs :
  forallb plain_manifest manifests = true -> d <> "" -> endswith_char sep d = false ->
  tidy d fs ->
  (forall m, In m manifests -> exists doc, Manifest.document m = Returns doc) ->
  exists paths fs', save_manifests manifests d fs = (Returns paths, fs').
Proof.
  intros Hms Hne Hend. unfold save_manifests. revert fs.
  induction manifests as [|m ms IH]; intros fs Htidy Hdocs; simpl.
  - unfold ret. eauto.
  - simpl in Hms. apply andb_prop in Hms as [Hm Hms].
    destruct (Hdocs m ltac:(now left)) as [doc Hdoc].
    destruct (save_tidy m d fs doc Hm Hne Hend Htidy Hdoc) as (p & fs1 & Hs & Htidy1).
    unfold bind at 1. rewrite Hs.
    destruct (IH Hms fs1 Htidy1 ltac:(intros m' Hin; apply Hdocs; now right))
      as (ps & fs2 & Hrest).
    unfold bind. rewrite Hrest. unfold ret. eauto.
Qed.

Lemma save_manifests_documents manifests d fs paths fs' :
  save_manifests manifests d fs = (Returns paths, fs') ->
  forall m, In m manifests -> exists doc, Manifest.document m = Returns doc.
Proof.
  unfold save_manifests. revert fs fs' paths.
  induction manifests as [|m ms IH]; intros fs fs' paths H m0 Hin; [contradiction|].
  simpl in H. unfold bind at 1 in H.
  destruct (save m d fs) as [[p|e] fs1] eqn:Hs; [|discriminate].
  unfold bind in H.
  destruct (for_each_eff _ ms fs1) as [[ps|e] fs2] eqn:Hrest; [|discriminate].
  destruct Hin as [<-|Hin]; [|exact (IH _ _ _ Hrest _ Hin)].
  apply save_content in Hs as (sections & Hsec & _).
  unfold Manifest.document. rewrite Hsec. simpl. eauto.
Qed.

Lemma tidy_empty d fs :
  fs !! d = Some Dir ->
  (forall q, FS.within d q = true -> q <> d -> fs !! q = None) ->
  tidy d fs.
Proof.
  intros Hd Hnone. split; [exact Hd|]. intros q x Hq Hqd Hx.
  rewrite (Hnone q Hq Hqd) in Hx. discriminate.
Qed.

Lemma dir_or_absent_cleared fs d :
  dir_or_absent fs d = true ->
  forall q, FS.within d q = true -> FS.rmtree d fs !! q = None.
Proof.
  unfold dir_or_absent. intros H q Hq.
  destruct (fs !! d) as [[|x]|] eqn:Hd; [now apply rmtree_inside | discriminate|].
  unfold FS.rmtree. rewrite Hd.
  destruct (fs !! q) as [y|] eqn:Hy; [|reflexivity].
  rewrite forallb_forall in H.
  apply elem_of_map_to_list, list_elem_of_In, H in Hy. simpl in Hy.
  now rewrite Hq in Hy.
Qed.

Lemma update_sure_spec fs staging_dir manifests output_dir :
  update_sure fs staging_dir manifests output_dir = true ->
  update_ready fs staging_dir manifests output_dir = true
  /\ FS.parent_isdir fs staging_dir = true
  /\ FS.parent_isdir fs output_dir = true
  /\ dir_or_absent fs output_dir = true.
Proof.
  unfold update_sure. intros H.
  apply andb_prop in H as [H H4]. apply andb_prop in H as [H H3].
  apply andb_prop in H as [H H2]. auto.
Qed.

(** The staging pass of an update that is sure returns when every manifest
    has a document. *)
Lemma staging_pass_Returns staging_dir manifests fs :
  forallb plain_manifest manifests = true ->
  fresh_dir fs staging_dir = true ->
  FS.parent_isdir fs staging_dir = true ->
  (forall m, In m manifests -> exists doc, Manifest.document m = Returns doc) ->
  exists paths,
    fst (FS.TemporaryDirectory staging_dir (save_manifests manifests staging_dir) fs)
    = Returns paths.
Proof.
  intros Hms Hfresh Hparent Hdocs.
  destruct (fresh_dir_spec _ _ Hfresh) as (Hne & Hend & Hnone).
  unfold FS.TemporaryDirectory, bind, finally.
  rewrite mkdir_Returns; [|exact Hne| |exact Hparent].
  - destruct (save_manifests_tidy manifests staging_dir (<[staging_dir := Dir]> fs)
                Hms Hne Hend) as (ps & fs1 & ->); [|exact Hdocs|simpl; eauto].
    apply tidy_empty; [apply lookup_insert_eq|].
    intros q Hq Hqd. rewrite lookup_insert_ne by congruence. now apply Hnone.
  - unfold FS.exists_. rewrite (is_root_no_sep_end _ Hend), (Hnone _ (within_self _)).
    now rewrite bool_decide_eq_false_2 by (intros [? ?]; discriminate).
Qed.

Lemma update_manifests_Returns staging_dir manifests output_dir fs :
  update_sure fs staging_dir manifests output_dir = true ->
  (forall m, In m manifests -> exists doc, Manifest.document m = Returns doc) ->
  exists paths fs',
    update_manifests staging_dir manifests output_dir fs = (Returns paths, fs').
Proof.
  intros Hsure Hdocs.
  destruct (update_sure_spec _ _ _ _ Hsure) as (Hready & Hpstg & Hpout & Hout).
  destruct (update_ready_spec _ _ _ _ Hready)
    as (Hms & Hfresh & Hstg & Hne & Hend & head & tail & Hsplit & Htail & Hhead_out & _).
  destruct (staging_pass_Returns _ _ _ Hms Hfresh Hpstg Hdocs) as [ps0 Hpass].
  pose proof (dir_or_absent_cleared _ _ Hout) as Hcleared.
  destruct (update_manifests_run _ _ _ _ Hready)
    as [(e & He & _)|[(e & He & _)|(Hnone & _ & ->)]].
  - congruence.
  - rewrite mkdir_Returns in He; [discriminate|exact Hne| |].
    + unfold FS.exists_. rewrite (is_root_no_sep_end _ Hend), (Hcleared _ (within_self _)).
      now rewrite bool_decide_eq_false_2 by (intros [? ?]; discriminate).
    + unfold FS.parent_isdir in *. unfold dirname in *. rewrite Hsplit in *. simpl in *.
      destruct head as [|c h]; [reflexivity|].
      unfold FS.isdir in *. now rewrite rmtree_outside.
  - destruct (save_manifests_tidy manifests output_dir
                (<[output_dir := Dir]> (FS.rmtree output_dir fs)) Hms Hne Hend)
      as (ps & fs1 & ->); [|exact Hdocs|simpl; eauto].
    apply tidy_empty; [apply lookup_insert_eq|].
    intros q Hq Hqd. rewrite lookup_insert_ne by congruence. now apply Hcleared.
Qed.

(** An update whose staging pass meets a manifest without a document
    raises there, and a [diff_manifests] likewise; the file system is then
    as it was. *)
Lemma staging_pass_Raises staging_dir manifests fs :
  forallb plain_manifest manifests = true ->
  fresh_dir fs staging_dir = true ->
  (exists m e, In m manifests /\ Manifest.document m = Raises e) ->
  exists e,
    FS.TemporaryDirectory staging_dir (save_manifests manifests staging_dir) fs
    = (Raises e, fs).
Proof.
  intros Hms Hfresh (m & e & Hin & Hdoc).
  pose proof (TemporaryDirectory_restores staging_dir manifests fs Hms Hfresh) as Hfs.
  destruct (FS.TemporaryDirectory _ _ fs) as [[ps|e'] fs1] eqn:Ht; simpl in Hfs; subst fs1;
    [|eauto].
  exfalso.
  unfold FS.TemporaryDirectory, bind, finally in Ht.
  destruct (FS.mkdir staging_dir fs) as [[[]|e'] fs1]; [|discriminate].
  destruct (save_manifests manifests staging_dir fs1) as [[ps'|e'] fs2] eqn:Hs;
    [|discriminate].
  destruct (save_manifests_documents _ _ _ _ _ Hs m Hin) as [doc Hdoc'].
  congruence.
Qed.

(** X20.  On a settled file system, an [update_manifests] that is sure
    returns exactly when every manifest has a document; otherwise it raises
    in the staging pass, and the output directory and the rest of the file
    system are as they were: for manifests with plain names the staging pass
    does tell whether the pass into the output directory will succeed. *)
Theorem update_manifests_all_or_nothing (staging_dir : Path)
    (manifests : list Manifest.t) (output_dir : Path) (fs : FS.t) :
  settled fs staging_dir output_dir = true ->
  update_sure fs staging_dir manifests output_dir = true ->
  ((forall m, In m manifests -> exists doc, Manifest.document m = Returns doc)
   <-> exists paths fs',
        update_manifests staging_dir manifests output_dir fs = (Returns paths, fs'))
  /\ ((exists m e, In m manifests /\ Manifest.document m = Raises e) ->
      exists e, update_manifests staging_dir manifests output_dir fs = (Raises e, fs)).
Proof.
  intros _ Hsure.
  destruct (update_sure_spec _ _ _ _ Hsure) as (Hready & Hpstg & Hpout & Hout).
  destruct (update_ready_spec _ _ _ _ Hready) as (Hms & Hfresh & _).
  assert (Hback : forall paths fs',
             update_manifests staging_dir manifests output_dir fs = (Returns paths, fs') ->
             forall m, In m manifests -> exists doc, Manifest.document m = Returns doc).
  { intros paths fs' H.
    destruct (update_manifests_run _ _ _ _ Hready)
      as [(e & _ & He)|[(e & _ & He)|(_ & _ & He)]]; rewrite He in H; try discriminate.
    destruct (save_manifests manifests output_dir _) as [[ps|e] fs3] eqn:Hs;
      [|discriminate].
    exact (save_manifests_documents _ _ _ _ _ Hs). }
  split; [split|].
  - now apply update_manifests_Returns.
  - intros (paths & fs' & H). exact (Hback _ _ H).
  - intros Hbad. destruct (staging_pass_Raises _ _ _ Hms Hfresh Hbad) as [e He].
    exists e. unfold update_manifests. unfold bind at 1. now rewrite He.
Qed.

Lemma update_manifests_all_or_nothing_witness :
  exists e,
    update_manifests "/tmp/tmpa" (get_manifests [Scenario.render_a; Scenario.render_b])
                     "/out" Scenario.fs_out
    = (Raises e, Scenario.fs_out).
Proof.
  apply (proj2 (update_manifests_all_or_nothing "/tmp/tmpa"
                  (get_manifests [Scenario.render_a; Scenario.render_b]) "/out"
                  Scenario.fs_out ltac:(vm_compute; reflexivity)
                  ltac:(vm_compute; reflexivity))).
  eexists _, _. split; [left; reflexivity | reflexivity].
Defined.

(** X21.  [update_manifests] is idempotent: when an update that is sure
    returns, a second update of the same manifests into the same output
    directory returns the same paths and leaves the file system as the first
    left it. *)
Theorem update_manifests_idempotent (staging_dir staging_dir' : Path)
    (manifests : list Manifest.t) (output_dir : Path) (fs fs' : FS.t)
    (paths : list Path) :
  update_sure fs staging_dir manifests output_dir = true ->
  update_manifests staging_dir manifests output_dir fs = (Returns paths, fs') ->
  update_sure fs' staging_dir' manifests output_dir = true ->
  update_manifests staging_dir' manifests output_dir fs' = (Returns paths, fs').
Proof.
  intros Hsure H Hsure'.
  destruct (update_sure_spec _ _ _ _ Hsure) as (Hready & _ & _ & Hout).
  destruct (update_sure_spec _ _ _ _ Hsure') as (Hready' & _).
  pose proof (dir_or_absent_cleared _ _ Hout) as Hcleared.
  destruct (update_manifests_run _ _ _ _ Hready)
    as [(e & _ & He)|[(e & _ & He)|(_ & [Hdir Hst] & He)]]; rewrite He in H;
    try discriminate.
  destruct (save_manifests manifests output_dir
              (<[output_dir := Dir]> (FS.rmtree output_dir fs))) as [[ps|e] fs3] eqn:Hs;
    [|discriminate].
  simpl in H, Hdir, Hst. injection H as <- <-.
  assert (Hsame : FS.rmtree output_dir fs3 = FS.rmtree output_dir fs).
  { apply map_eq. intros q. destruct (FS.within output_dir q) eqn:Hq.
    - now rewrite (rmtree_inside _ _ _ Hdir Hq), (Hcleared _ Hq).
    - rewrite rmtree_outside by exact Hq. now apply Hst. }
  destruct (update_manifests_Returns _ _ _ _ Hsure'
              (save_manifests_documents _ _ _ _ _ Hs)) as (paths' & fs'' & H').
  destruct (update_manifests_run _ _ _ _ Hready')
    as [(e & _ & He')|[(e & _ & He')|(_ & _ & He')]]; rewrite He' in H';
    try discriminate.
  rewrite He', Hsame, Hs. reflexivity.
Qed.

Lemma update_manifests_idempotent_witness :
  update_manifests "/tmp/tmpb" [Scenario.manifest_web] "/out"
    (snd (update_manifests "/tmp/tmpa" [Scenario.manifest_web] "/out" Scenario.fs_out))
  = (Returns ["/out/web/bundle.manifest.yaml"],
     snd (update_manifests "/tmp/tmpa" [Scenario.manifest_web] "/out" Scenario.fs_out)).
Proof.
  apply (update_manifests_idempotent "/tmp/tmpa" "/tmp/tmpb" [Scenario.manifest_web] "/out"
           Scenario.fs_out); vm_compute; reflexivity.
Defined.

(** X22.  The manifests [get_manifests] builds from at least one render are
    never written: with plain names and a staging directory as
    [TemporaryDirectory] makes it, [update_manifests] and [diff_manifests]
    both raise in the staging pass, before the output directory is read or
    cleared, and the file system is as it was. *)
Theorem reconcile_grouped_renders (staging_dir : Path) (renders : list Render.t)
    (output_dir : Path) (fs : FS.t) :
  renders <> [] ->
  forallb plain_manifest (get_manifests renders) = true ->
  fresh_dir fs staging_dir = true ->
  (exists e, update_manifests staging_dir (get_manifests renders) output_dir fs
             = (Raises e, fs))
  /\ (exists e, diff_manifests staging_dir (get_manifests renders) output_dir fs
                = (Raises e, fs)).
Proof.
  intros Hne Hms Hfresh.
  assert (Hbad : exists m e, In m (get_manifests renders)
                             /\ Manifest.document m = Raises e).
  { destruct (get_manifests renders) as [|m ms] eqn:Hm.
    - exfalso. pose proof (get_manifests_keys renders) as Hk. rewrite Hm in Hk.
      destruct renders; [congruence | discriminate].
    - destruct (get_manifests_unreadable renders m) as [msg Hsec];
        [rewrite Hm; now left|].
      exists m, (AttributeError msg). split; [now left|].
      unfold Manifest.document. now rewrite Hsec. }
  destruct (staging_pass_Raises _ _ _ Hms Hfresh Hbad) as [e He].
  split; exists e.
  - unfold update_manifests. unfold bind at 1. now rewrite He.
  - unfold diff_manifests. unfold bind at 1. now rewrite He.
Qed.

Lemma reconcile_grouped_renders_witness :
  exists e,
    update_manifests "/tmp/tmpa" (get_manifests [Scenario.render_a; Scenario.render_b])
                     "/out" Scenario.fs_out
    = (Raises e, Scenario.fs_out).
Proof.
  apply (reconcile_grouped_renders "/tmp/tmpa" [Scenario.render_a; Scenario.render_b]
           "/out" Scenario.fs_out); [discriminate | reflexivity | vm_compute; reflexivity].
Defined.

(** X23.  When the staging directory and the output directory are written
    as plain words, so that the command line names them as the two operands
    of the diff utility, [diff_manifests] never reports that there are no
    differences: the status 0 is not returned, whatever the manifests and
    whatever the output directory holds. *)
Theorem diff_manifests_never_clean (staging_dir : Path) (manifests : list Manifest.t)
    (output_dir : Path) (fs : FS.t) :
  shell_word staging_dir = true -> shell_word output_dir = true ->
  fst (diff_manifests staging_dir manifests output_dir fs) <> Returns 0.
Proof.
  intros _ _.
  destruct (diff_manifests staging_dir manifests output_dir fs) as [[code|e] fs'] eqn:H;
    [|discriminate].
  apply diff_manifests_status in H. subst. discriminate.
Qed.

Lemma diff_manifests_never_clean_witness :
  fst (diff_manifests "/tmp/tmpb" [Scenario.manifest_web] "/out"
         (snd (update_manifests "/tmp/tmpa" [Scenario.manifest_web] "/out"
                 Scenario.fs_out)))
  <> Returns 0.
Proof.
  apply (diff_manifests_never_clean "/tmp/tmpb" [Scenario.manifest_web] "/out");
    reflexivity.
Defined.
